(** * enigma-jscrypto: identities, message envelopes and the EC primitive

    A shallow embedding of [lib/cipher/asymmetric/ec/ec.js],
    [lib/enigma/identity.js] and [lib/enigma/message.js], and of the
    storage wrapper that follows the identity in its file.

    JavaScript objects whose methods appear and disappear at run time are
    records carrying one boolean per method; a method call on an object
    that lacks the method raises [TypeError], as the engine does.
    Exceptions are the [Throw] case of the [result] monad.  Library code
    that the three files call but do not contain (serializer, hash,
    symmetric cipher, curve arithmetic, random source) is a record of
    operations, one record per file. *)

From Stdlib Require Import List ZArith Bool String Lia.
From Stdlib.Strings Require Import Byte.
Import ListNotations.
Local Open Scope string_scope.
Local Open Scope Z_scope.
Local Open Scope list_scope.

(** ** JavaScript values *)

(** The values the three files pass around.  [JArray] is a plain [Array]
    of numbers (what the big-integer and curve code produce and consume),
    [JArrayBuffer] an [ArrayBuffer] with its bytes. *)
Inductive jsval : Type :=
| JUndefined
| JNull
| JBool (b : bool)
| JNum (n : Z)
| JStr (s : string)
| JArray (a : list Z)
| JArrayBuffer (b : list byte).

Inductive error : Type :=
| Error (msg : string)
| TypeError (msg : string)
| ReferenceError (name : string).

(** ** Exceptions *)

Inductive result (A : Type) : Type :=
| Return (a : A)
| Throw (e : error).
Arguments Return {A} a.
Arguments Throw {A} e.

Definition bind {A B : Type} (m : result A) (k : A -> result B) : result B :=
  match m with
  | Return a => k a
  | Throw e => Throw e
  end.

Notation "x <- m ;; k" := (bind m (fun x => k))
  (at level 61, m at next level, right associativity).

(** [try { m } catch(e) { h }] *)
Definition try_catch {A : Type} (m : result A) (h : error -> result A) : result A :=
  match m with
  | Return a => Return a
  | Throw e => h e
  end.

Definition returns {A : Type} (m : result A) : Prop := exists a, m = Return a.
Definition throws {A : Type} (m : result A) : Prop := exists e, m = Throw e.

(** ** Exceptions over a mutable object

    A method body reads and assigns the closure variables of its object:
    a computation takes the object's state and gives back the outcome
    together with the state as the body left it, also when it throws. *)

Definition M (S A : Type) : Type := S -> result A * S.

Definition ret {S A : Type} (a : A) : M S A := fun s => (Return a, s).
Definition throw {S A : Type} (e : error) : M S A := fun s => (Throw e, s).
Definition get {S : Type} : M S S := fun s => (Return s, s).
Definition modify {S : Type} (f : S -> S) : M S unit := fun s => (Return tt, f s).
Definition lift {S A : Type} (r : result A) : M S A := fun s => (r, s).

Definition bindM {S A B : Type} (m : M S A) (k : A -> M S B) : M S B :=
  fun s =>
    match m s with
    | (Return a, s') => k a s'
    | (Throw e, s') => (Throw e, s')
    end.

Notation "x <~ m ;; k" := (bindM m (fun x => k))
  (at level 61, m at next level, right associativity).
Notation "m ;;; k" := (bindM m (fun _ => k))
  (at level 61, right associativity).

(** [try { m } catch(e) { h }]: assignments made before the throw stay. *)
Definition try_catchM {S A : Type} (m : M S A) (h : error -> M S A) : M S A :=
  fun s =>
    match m s with
    | (Return a, s') => (Return a, s')
    | (Throw e, s') => h e s'
    end.

(** ** Operators and built-ins *)

(** ToBoolean. Every object, an empty [ArrayBuffer] included, is truthy. *)
Definition truthy (v : jsval) : bool :=
  match v with
  | JUndefined | JNull => false
  | JBool b => b
  | JNum n => negb (n =? 0)
  | JStr s => negb (String.eqb s "")
  | JArray _ | JArrayBuffer _ => true
  end.

(** [Array.isArray] *)
Definition Array_isArray (v : jsval) : bool :=
  match v with
  | JArray _ => true
  | _ => false
  end.

(** Modelled from the spec: the type tester [util.type] is not among the
    sources; [util.type(x).isArrayBuffer()] is the test that validates an
    input to be a byte buffer (spec 4.2), true on [ArrayBuffer]s only. *)
Definition isArrayBuffer (v : jsval) : bool :=
  match v with
  | JArrayBuffer _ => true
  | _ => false
  end.

(** The [length] property.  An [ArrayBuffer] has [byteLength] and no
    [length]: reading it gives [undefined]. *)
Definition js_length (v : jsval) : jsval :=
  match v with
  | JArray a => JNum (Z.of_nat (List.length a))
  | JStr s => JNum (Z.of_nat (String.length s))
  | _ => JUndefined
  end.

(** The [byteLength] property. *)
Definition js_byteLength (v : jsval) : jsval :=
  match v with
  | JArrayBuffer b => JNum (Z.of_nat (List.length b))
  | _ => JUndefined
  end.

(** ToNumber on the operands the files compare, which are numbers and
    missing properties ([length] and [byteLength] give nothing else).
    [None] is NaN. *)
Definition to_number (v : jsval) : option Z :=
  match v with
  | JNum n => Some n
  | JNull => Some 0
  | JBool b => Some (if b then 1 else 0)
  | _ => None
  end.

(** [a <= b], [a > b] and [a >= b]; a comparison with NaN is false. *)
Definition js_le (a b : jsval) : bool :=
  match to_number a, to_number b with
  | Some x, Some y => x <=? y
  | _, _ => false
  end.

Definition js_gt (a b : jsval) : bool :=
  match to_number a, to_number b with
  | Some x, Some y => y <? x
  | _, _ => false
  end.

Definition js_ge (a b : jsval) : bool :=
  match to_number a, to_number b with
  | Some x, Some y => y <=? x
  | _, _ => false
  end.

(** [true === v] *)
Definition js_is_true (v : jsval) : bool :=
  match v with
  | JBool true => true
  | _ => false
  end.

(** [x.slice(start)] and [x.slice(start, stop)] for non-negative bounds, on
    the two kinds of value that have the method. *)
Definition slice_list {A : Type} (l : list A) (start : Z) (stop : option Z) : list A :=
  match stop with
  | None => skipn (Z.to_nat start) l
  | Some e => skipn (Z.to_nat start) (firstn (Z.to_nat e) l)
  end.

Definition js_slice (v : jsval) (start : Z) (stop : option Z) : result jsval :=
  match v with
  | JArrayBuffer b => Return (JArrayBuffer (slice_list b start stop))
  | JArray a => Return (JArray (slice_list a start stop))
  | _ => Throw (TypeError "slice is not a function")
  end.

Definition byte_val (b : byte) : Z := Z.of_N (Byte.to_N b).

(** [new Uint16Array(buf)[0]] on a two-byte buffer (little-endian host). *)
Definition Uint16Array_at0 (buf : jsval) : Z :=
  match buf with
  | JArrayBuffer [lo; hi] => byte_val lo + 256 * byte_val hi
  | _ => 0
  end.

Definition byte_of_Z (z : Z) : byte :=
  match Byte.of_N (Z.to_N (z mod 256)) with
  | Some b => b
  | None => x00
  end.

(** [var a = new Uint16Array(1); a[0] = n; a.buffer] *)
Definition Uint16Array_buffer (n : Z) : jsval :=
  let w := n mod 65536 in
  JArrayBuffer [byte_of_Z w; byte_of_Z (w / 256)].

(** ** lib/cipher/asymmetric/ec/ec.js *)

Module EC.

(** What [ec.js] takes from elsewhere: the curve and big-integer code
    ([_ecparams], [_ecdsa], [_ecurve], [_bigi]), the hash, buffer and
    random utilities under [root], and the two free names [$] and
    [buffer2array]. *)
Record Lib : Type := {
  seed : Type;
  bigi : Type;
  (* _ecparams(curveName) is truthy *)
  ecparams : string -> bool;
  (* _bigi.fromByteArrayUnsigned(a) *)
  fromByteArrayUnsigned : list Z -> bigi;
  (* ecparams.getG().multiply(k).getEncoded(false) *)
  publicOf : string -> bigi -> list Z;
  (* ECPointFp.decodeFrom(curve, q).multiply(k).getEncoded().slice(1) *)
  sharedOf : string -> list Z -> bigi -> result (list Z);
  (* new Buffer(ecdsa.sign(digest, k)) *)
  ecdsa_sign : string -> jsval -> option bigi -> seed -> result jsval;
  (* ecdsa.verify(digest, signature, publicKey) *)
  ecdsa_verify : string -> jsval -> jsval -> jsval -> result jsval;
  (* $.tools.type.isBuffer(x) *)
  isBuffer : jsval -> bool;
  buffer2array : jsval -> result jsval;
  (* new root.hash('BLAKE2s').pbkdf2(secret, salt, rounds, length) *)
  pbkdf2 : jsval -> jsval -> Z -> jsval -> result jsval;
  (* root.util.buffer.xor(a, b) *)
  buffer_xor : jsval -> jsval -> result jsval;
  (* root.util.buffer.concat(list) *)
  buffer_concat : list jsval -> result jsval;
  (* new root.util.srand().bytes(n) *)
  srand_bytes : seed -> Z -> jsval
}.

Section WithLib.
Variable L : Lib.

(** An [EC] instance: the closure variables and the methods currently
    present on [self]. *)
Record instance : Type := mkInstance {
  curveName : string;
  bigiPrivateKey : option (bigi L);
  bigiPublicKey : jsval;
  has_setPrivateKey : bool;
  has_setPublicKey : bool;
  has_sign : bool;
  has_getDecryptCredential : bool;
  has__computeSecret : bool;
  has_verify : bool;
  has_getEncryptCredentials : bool;
  has_getPublicKey : bool
}.

(** [new EC(curveName)] *)
Definition new_EC (name : string) : result instance :=
  if negb (ecparams L name) then Throw (Error "unknown-ec-curve-name")
  else Return (mkInstance name None JNull true true false false false false false false).

Definition init (self : instance) (prv : bool) : instance :=
  mkInstance (curveName self) (bigiPrivateKey self) (bigiPublicKey self)
    false false
    (if prv then true else has_sign self)
    (if prv then true else has_getDecryptCredential self)
    (if prv then true else has__computeSecret self)
    true true true.

Definition initWithPublicKey (self : instance) (publicKeyArray : jsval) : instance :=
  init (mkInstance (curveName self) None publicKeyArray
          (has_setPrivateKey self) (has_setPublicKey self) (has_sign self)
          (has_getDecryptCredential self) (has__computeSecret self)
          (has_verify self) (has_getEncryptCredentials self) (has_getPublicKey self))
       false.

Definition initWithPrivateKey (self : instance) (privateKeyArray : list Z) : instance :=
  let k := fromByteArrayUnsigned L privateKeyArray in
  init (mkInstance (curveName self) (Some k) (JArray (publicOf L (curveName self) k))
          (has_setPrivateKey self) (has_setPublicKey self) (has_sign self)
          (has_getDecryptCredential self) (has__computeSecret self)
          (has_verify self) (has_getEncryptCredentials self) (has_getPublicKey self))
       true.

Definition setPrivateKey (self : instance) (privateKeyArray : jsval) : result instance :=
  if negb (has_setPrivateKey self) then Throw (TypeError "setPrivateKey is not a function")
  else match privateKeyArray with
       | JArray a => Return (initWithPrivateKey self a)
       | _ => Throw (Error "invalid-parameter")
       end.

Definition setPublicKey (self : instance) (publicKeyArray : jsval) : result instance :=
  if negb (has_setPublicKey self) then Throw (TypeError "setPublicKey is not a function")
  else if negb (Array_isArray publicKeyArray) then Throw (Error "invalid-parameter")
  else Return (initWithPublicKey self publicKeyArray).

Definition getPublicKey (self : instance) : result jsval :=
  if negb (has_getPublicKey self) then Throw (TypeError "getPublicKey is not a function")
  else Return (bigiPublicKey self).

Definition sign (self : instance) (sd : seed L) (digestBuffer : jsval) : result jsval :=
  if negb (isBuffer L digestBuffer) then Throw (Error "invalid-parameter")
  else ecdsa_sign L (curveName self) digestBuffer (bigiPrivateKey self) sd.

Definition verify (self : instance) (digestBuffer signatureBuffer : jsval) : result jsval :=
  if negb (isBuffer L digestBuffer && isBuffer L signatureBuffer)
  then Throw (Error "invalid-parameter")
  else
    try_catch
      (signatureArray <- buffer2array L signatureBuffer ;;
       ecdsa_verify L (curveName self) digestBuffer signatureArray (bigiPublicKey self))
      (fun _ => Return (JBool false)).

Definition _computeSecret (self : instance) (anotherPublicKeyArray : jsval) : result jsval :=
  match anotherPublicKeyArray with
  | JArray q =>
      match bigiPrivateKey self with
      | Some k => s <- sharedOf L (curveName self) q k ;; Return (JArray s)
      | None => Throw (TypeError "multiply: private key is null")
      end
  | _ => Throw (Error "invalid-parameter")
  end.

Definition _XOR (sharedsecret salt dataBuf : jsval) : result jsval :=
  cryptStream <- pbkdf2 L sharedsecret salt 1024 (js_length dataBuf) ;;
  buffer_xor L dataBuf cryptStream.

Definition getEncryptCredentials (self : instance) (sd : seed L) (dataBuf : jsval)
  : result jsval :=
  if negb (isArrayBuffer dataBuf) then Throw (Error "invalid-parameter")
  else
    tempEC <- new_EC (curveName self) ;;
    let tempCredential := srand_bytes L sd 128 in
    tempEC <- setPrivateKey tempEC tempCredential ;;
    selfPublicKey <- getPublicKey self ;;
    sharedsecret <-
      (if has__computeSecret tempEC then _computeSecret tempEC selfPublicKey
       else Throw (TypeError "_computeSecret is not a function")) ;;
    tempPublicKey <- getPublicKey tempEC ;;
    resultStream <- _XOR sharedsecret tempPublicKey dataBuf ;;
    let lenBuf :=
      Uint16Array_buffer
        (match to_number (js_length tempPublicKey) with Some n => n | None => 0 end) in
    buffer_concat L [lenBuf; tempPublicKey; resultStream].

Definition getDecryptCredential (self : instance) (dataBuf : jsval) : result jsval :=
  if negb (isArrayBuffer dataBuf && js_gt (js_byteLength dataBuf) (JNum 2))
  then Throw (Error "invalid-parameter")
  else
    lenBuf <- js_slice dataBuf 0 (Some 2) ;;
    dataBuf <- js_slice dataBuf 2 None ;;
    let splitLen := Uint16Array_at0 lenBuf in
    if js_le (js_length dataBuf) (JNum splitLen)
    then Throw (Error "invalid-ciphertext")
    else
      tempPublicKey <- js_slice dataBuf 0 (Some splitLen) ;;
      resultStream <- js_slice dataBuf splitLen None ;;
      sharedsecret <- _computeSecret self tempPublicKey ;;
      _XOR sharedsecret tempPublicKey resultStream.

(** The methods as a caller reaches them, through [self]. *)
Definition call_verify (self : instance) (d s : jsval) : result jsval :=
  if has_verify self then verify self d s
  else Throw (TypeError "verify is not a function").

Definition call_getEncryptCredentials (self : instance) (sd : seed L) (d : jsval)
  : result jsval :=
  if has_getEncryptCredentials self then getEncryptCredentials self sd d
  else Throw (TypeError "getEncryptCredentials is not a function").

Definition call_getDecryptCredential (self : instance) (d : jsval) : result jsval :=
  if has_getDecryptCredential self then getDecryptCredential self d
  else Throw (TypeError "getDecryptCredential is not a function").

Definition call_sign (self : instance) (sd : seed L) (d : jsval) : result jsval :=
  if has_sign self then sign self sd d
  else Throw (TypeError "sign is not a function").

(** An instance holding a key: made by [new EC] and given a key once. *)
Inductive holds_key : instance -> Prop :=
| holds_public : forall name e0 k e,
    new_EC name = Return e0 -> setPublicKey e0 k = Return e -> holds_key e
| holds_private : forall name e0 k e,
    new_EC name = Return e0 -> setPrivateKey e0 k = Return e -> holds_key e.

Inductive holds_private_key : instance -> Prop :=
| holds_private_intro : forall name e0 k e,
    new_EC name = Return e0 -> setPrivateKey e0 k = Return e -> holds_private_key e.

End WithLib.

Arguments curveName {L} _.
Arguments bigiPrivateKey {L} _.
Arguments bigiPublicKey {L} _.
Arguments has_verify {L} _.
Arguments has_sign {L} _.
Arguments has_getDecryptCredential {L} _.
Arguments has_getEncryptCredentials {L} _.

End EC.

(** ** lib/enigma/identity.js *)

Module Identity.

(** [config.subjectRule = /^[0-9a-z\-_\s]{8,255}$/i], on strings of code
    units below 256: digits, letters of either case, [-], [_] and the
    white space [\s] matches there (TAB..CR, space, NBSP). *)
Definition subject_char (c : Ascii.ascii) : bool :=
  let n := Ascii.nat_of_ascii c in
  (((48 <=? n) && (n <=? 57)) || ((97 <=? n) && (n <=? 122)) || ((65 <=? n) && (n <=? 90))
   || (n =? 45) || (n =? 95) || ((9 <=? n) && (n <=? 13)) || (n =? 32) || (n =? 160))%nat.

Definition subjectRule_test (s : string) : bool :=
  (forallb subject_char (list_ascii_of_string s)
   && (8 <=? String.length s) && (String.length s <=? 255))%nat.

Definition defaultAlgorithmName : string := "NECRAC128".

(** The record the identity [template] describes. *)
Record record : Type := mkRecord {
  r_subject : jsval;
  r_algorithm : jsval;
  r_public : jsval;
  r_secret : jsval;
  r_signature : jsval
}.

(** An entry of [cipher.asymmetric.definition]. *)
Record definition : Type := mkDefinition {
  def_name : jsval;
  secretLength : Z
}.

(** The second argument of [generate]. *)
Record options : Type := mkOptions {
  algorithm : jsval;
  overrideSecret : jsval
}.

(** What [identity.js] fetches through [tool.get]. *)
Record Lib : Type := {
  seed : Type;
  (* an object made by tool.get('cipher.asymmetric')(name) *)
  cipher : Type;
  cipher_new : jsval -> result cipher;
  setPrivateKey : cipher -> jsval -> result cipher;
  setPublicKey : cipher -> jsval -> result cipher;
  getPublicKey : cipher -> result jsval;
  asym_sign : cipher -> jsval -> seed -> result jsval;
  asym_verify : cipher -> jsval -> jsval -> result jsval;
  asym_encrypt : cipher -> jsval -> seed -> result jsval;
  asym_decrypt : cipher -> jsval -> result jsval;
  (* tool.get('cipher.asymmetric.definition')(name) *)
  getDef : jsval -> option definition;
  (* tool.get('cipher.symmetric')().key(k).encrypt(p) and .decrypt(c) *)
  sym_encrypt : jsval -> jsval -> seed -> result jsval;
  sym_decrypt : jsval -> jsval -> result jsval;
  (* tool.get('util.serialize')(template) *)
  serialize : record -> result jsval;
  deserialize : jsval -> result record;
  (* hash().mac(a, b).buffer *)
  mac : jsval -> jsval -> list byte;
  (* hash(n).hash(encoding(x).toArrayBuffer()).buffer *)
  hash_secret : Z -> jsval -> jsval;
  (* tool.get('util.srand')().bytes(n) *)
  srand_bytes : seed -> Z -> jsval;
  (* tool.get('util.buffer').equal(a, b) *)
  buffer_equal : jsval -> jsval -> bool;
  (* encoding(s, 'ascii').toArrayBuffer(), encoding(b).toASCII(), encoding(b).toBase32() *)
  encode_ascii : string -> list byte;
  toASCII : jsval -> string;
  toBase32 : jsval -> string
}.

Section WithLib.
Variable L : Lib.

(** The closure variables of one identity.  [initialized] is [None] while
    [generate], [loadPublic] and [loadPrivate] are on the object, and
    [Some prv] once [initialize(prv)] has replaced them by the usage
    methods; [initialize] is the only place that adds or deletes methods,
    and [canLoadPrivate] is never deleted. *)
Record state : Type := mkState {
  subjectBuf : jsval;
  secretBuf : jsval;
  publicKeyBuf : jsval;
  algorithmName : jsval;
  signatureBuf : jsval;
  asymCipher : option (cipher L);
  identityID : option (list byte);
  initialized : option bool
}.

(** [new identity()] *)
Definition fresh : state :=
  mkState JUndefined JUndefined JUndefined JUndefined JUndefined None None None.

Definition set_subjectBuf (v : jsval) (s : state) : state :=
  mkState v (secretBuf s) (publicKeyBuf s) (algorithmName s) (signatureBuf s)
    (asymCipher s) (identityID s) (initialized s).
Definition set_secretBuf (v : jsval) (s : state) : state :=
  mkState (subjectBuf s) v (publicKeyBuf s) (algorithmName s) (signatureBuf s)
    (asymCipher s) (identityID s) (initialized s).
Definition set_publicKeyBuf (v : jsval) (s : state) : state :=
  mkState (subjectBuf s) (secretBuf s) v (algorithmName s) (signatureBuf s)
    (asymCipher s) (identityID s) (initialized s).
Definition set_algorithmName (v : jsval) (s : state) : state :=
  mkState (subjectBuf s) (secretBuf s) (publicKeyBuf s) v (signatureBuf s)
    (asymCipher s) (identityID s) (initialized s).
Definition set_signatureBuf (v : jsval) (s : state) : state :=
  mkState (subjectBuf s) (secretBuf s) (publicKeyBuf s) (algorithmName s) v
    (asymCipher s) (identityID s) (initialized s).
Definition set_asymCipher (c : cipher L) (s : state) : state :=
  mkState (subjectBuf s) (secretBuf s) (publicKeyBuf s) (algorithmName s) (signatureBuf s)
    (Some c) (identityID s) (initialized s).
Definition set_identityID (i : list byte) (s : state) : state :=
  mkState (subjectBuf s) (secretBuf s) (publicKeyBuf s) (algorithmName s) (signatureBuf s)
    (asymCipher s) (Some i) (initialized s).

Definition getID : M state (list byte) :=
  fun s =>
    match identityID s with
    | Some i => (Return i, s)
    | None =>
        let i := mac L (publicKeyBuf s) (subjectBuf s) in
        (Return i, set_identityID i s)
    end.

Definition initialize (prv : bool) : M state unit :=
  modify (fun s =>
    mkState (subjectBuf s) (secretBuf s) (publicKeyBuf s) (algorithmName s) (signatureBuf s)
      (asymCipher s) (identityID s) (Some prv)).

(** [asymCipher.m(...)] on the cipher object of the identity. *)
Definition the_cipher : M state (cipher L) :=
  fun s =>
    match asymCipher s with
    | Some c => (Return c, s)
    | None => (Throw (TypeError "asymCipher is undefined"), s)
    end.

Definition generate (subject : string) (opts : option options) (sd_secret sd_sign : seed L)
  : M state unit :=
  let opts := match opts with Some o => o | None => mkOptions JUndefined JUndefined end in
  if negb (subjectRule_test subject) then throw (Error "enigma-invalid-input")
  else
    modify (set_subjectBuf (JArrayBuffer (encode_ascii L subject))) ;;;
    let name := if truthy (algorithm opts) then algorithm opts
                else JStr defaultAlgorithmName in
    modify (set_algorithmName name) ;;;
    algorithm <~ match getDef L name with
                 | Some a => ret a
                 | None =>
                     (* algorithmName = defaults.algorithmName: no [defaults] is in scope *)
                     throw (ReferenceError "defaults")
                 end ;;
    modify (set_secretBuf
              (if truthy (overrideSecret opts)
               then hash_secret L (secretLength algorithm) (overrideSecret opts)
               else srand_bytes L sd_secret (secretLength algorithm))) ;;;
    c <~ lift (cipher_new L (def_name algorithm)) ;;
    modify (set_asymCipher c) ;;;
    s <~ get ;;
    c <~ lift (setPrivateKey L c (secretBuf s)) ;;
    modify (set_asymCipher c) ;;;
    pk <~ lift (getPublicKey L c) ;;
    modify (set_publicKeyBuf pk) ;;;
    id <~ getID ;;
    sig <~ lift (asym_sign L c (JArrayBuffer id) sd_sign) ;;
    modify (set_signatureBuf sig) ;;;
    initialize true.

Definition loadIdentityBuf (buf pinkeyBuf : jsval) : M state bool :=
  if negb (isArrayBuffer buf) then throw (Error "enigma-invalid-input")
  else if truthy pinkeyBuf && negb (isArrayBuffer pinkeyBuf)
  then throw (Error "enigma-invalid-input")
  else
    d <~ lift (try_catch (deserialize L buf)
                 (fun _ => Throw (Error "enigma-invalid-input"))) ;;
    let dSubjectBuf := r_subject d in
    let dAlgorithmName := r_algorithm d in
    let dSignatureBuf := r_signature d in
    let dPublicBuf := r_public d in
    let dSecretBuf := r_secret d in
    if negb (subjectRule_test (toASCII L dSubjectBuf))
    then throw (Error "enigma-invalid-input")
    else
      modify (set_subjectBuf dSubjectBuf) ;;;
      modify (set_algorithmName dAlgorithmName) ;;;
      modify (set_signatureBuf dSignatureBuf) ;;;
      modify (set_publicKeyBuf dPublicBuf) ;;;
      c <~ lift (cipher_new L dAlgorithmName) ;;
      modify (set_asymCipher c) ;;;
      c <~ (if truthy pinkeyBuf then
              sec <~ lift (try_catch (sym_decrypt L pinkeyBuf dSecretBuf)
                             (fun _ => Throw (Error "enigma-invalid-pinkey"))) ;;
              modify (set_secretBuf sec) ;;;
              c <~ lift (setPrivateKey L c sec) ;;
              modify (set_asymCipher c) ;;;
              derivedPublicKey <~ lift (getPublicKey L c) ;;
              if negb (buffer_equal L derivedPublicKey dPublicBuf)
              then throw (Error "enigma-identity-inconsistent")
              else ret c
            else
              c <~ lift (setPublicKey L c dPublicBuf) ;;
              modify (set_asymCipher c) ;;;
              ret c) ;;
      try_catchM
        (id <~ getID ;;
         selfSigVerify <~ lift (asym_verify L c (JArrayBuffer id) dSignatureBuf) ;;
         if negb (truthy selfSigVerify)
         then throw (Error "enigma-identity-bad-self-signature")
         else ret tt)
        (fun _ => throw (Error "enigma-identity-bad-self-signature")) ;;;
      ret true.

Definition loadPublic (publicIdentityBuf : jsval) : M state unit :=
  ok <~ loadIdentityBuf publicIdentityBuf JUndefined ;;
  if ok then initialize false else ret tt.

Definition loadPrivate (secretIdentityBuf pinkeyBuf : jsval) : M state unit :=
  ok <~ loadIdentityBuf secretIdentityBuf pinkeyBuf ;;
  if ok then initialize true else ret tt.

Definition canLoadPrivate (testIdentityBuf : jsval) : result jsval :=
  if negb (isArrayBuffer testIdentityBuf) then Throw (Error "enigma-invalid-input")
  else
    d <- try_catch (deserialize L testIdentityBuf)
           (fun _ => Throw (Error "enigma-invalid-input")) ;;
    (* null != d['secret'] *)
    Return (JBool (match r_secret d with
                   | JNull | JUndefined => false
                   | _ => true
                   end)).

Definition getSubject (s : state) : string := toASCII L (subjectBuf s).

Definition getAlgorithm (s : state) : jsval := algorithmName s.

Definition getFingerprint : M state jsval :=
  id <~ getID ;;
  ret (JArrayBuffer (slice_list id 0 (Some 10))).

Definition exportPublic (s : state) : result jsval :=
  serialize L
    (mkRecord (subjectBuf s) (algorithmName s) (publicKeyBuf s) (JArrayBuffer [])
       (signatureBuf s)).

Definition exportPrivate (s : state) (pinkeyBuf : jsval) (sd : seed L) : result jsval :=
  if negb (isArrayBuffer pinkeyBuf && js_ge (js_byteLength pinkeyBuf) (JNum 32))
  then Throw (Error "enigma-invalid-pinkey")
  else
    secretEncryptedBuf <- sym_encrypt L pinkeyBuf (secretBuf s) sd ;;
    serialize L
      (mkRecord (subjectBuf s) (algorithmName s) (publicKeyBuf s) secretEncryptedBuf
         (signatureBuf s)).

Definition verify (s : state) (plaintext signature : jsval) : result jsval :=
  if negb (isArrayBuffer plaintext && isArrayBuffer signature)
  then Throw (Error "enigma-invalid-input")
  else
    try_catch
      (match asymCipher s with
       | Some c => v <- asym_verify L c plaintext signature ;; Return (JBool (js_is_true v))
       | None => Throw (TypeError "asymCipher is undefined")
       end)
      (fun _ => Return (JBool false)).

Definition sign (s : state) (plaintext : jsval) (sd : seed L) : result jsval :=
  if negb (isArrayBuffer plaintext) then Throw (Error "enigma-invalid-input")
  else
    try_catch
      (match asymCipher s with
       | Some c => asym_sign L c plaintext sd
       | None => Throw (TypeError "asymCipher is undefined")
       end)
      (fun _ => Throw (Error "enigma-identity-unable-to-sign")).

Definition encrypt (s : state) (plaintext : jsval) (sd : seed L) : result jsval :=
  if negb (isArrayBuffer plaintext) then Throw (Error "enigma-invalid-input")
  else
    try_catch
      (match asymCipher s with
       | Some c => asym_encrypt L c plaintext sd
       | None => Throw (TypeError "asymCipher is undefined")
       end)
      (fun _ => Throw (Error "enigma-identity-unable-to-encrypt")).

Definition decrypt (s : state) (ciphertext : jsval) : result jsval :=
  if negb (isArrayBuffer ciphertext) then Throw (Error "enigma-invalid-input")
  else
    try_catch
      (match asymCipher s with
       | Some c => asym_decrypt L c ciphertext
       | None => Throw (TypeError "asymCipher is undefined")
       end)
      (fun _ => Throw (Error "enigma-identity-unable-to-decrypt")).

(** The methods as a caller reaches them on the object. *)
Definition call_generate (subject : string) (opts : option options)
    (sd_secret sd_sign : seed L) : M state unit :=
  fun s =>
    match initialized s with
    | None => generate subject opts sd_secret sd_sign s
    | Some _ => (Throw (TypeError "generate is not a function"), s)
    end.

Definition call_loadPublic (buf : jsval) : M state unit :=
  fun s =>
    match initialized s with
    | None => loadPublic buf s
    | Some _ => (Throw (TypeError "loadPublic is not a function"), s)
    end.

Definition call_loadPrivate (buf pinkeyBuf : jsval) : M state unit :=
  fun s =>
    match initialized s with
    | None => loadPrivate buf pinkeyBuf s
    | Some _ => (Throw (TypeError "loadPrivate is not a function"), s)
    end.

Definition call_isPrivate (s : state) : result bool :=
  match initialized s with
  | Some prv => Return prv
  | None => Throw (TypeError "isPrivate is not a function")
  end.

(** [getID] memoizes: the identifier it stores is the one later calls
    return, so the value alone is kept here. *)
Definition call_getFingerprint (s : state) : result jsval :=
  match initialized s with
  | Some _ => fst (getFingerprint s)
  | None => Throw (TypeError "getFingerprint is not a function")
  end.

Definition call_exportPublic (s : state) : result jsval :=
  match initialized s with
  | Some _ => exportPublic s
  | None => Throw (TypeError "exportPublic is not a function")
  end.

Definition call_exportPrivate (s : state) (pinkeyBuf : jsval) (sd : seed L) : result jsval :=
  match initialized s with
  | Some true => exportPrivate s pinkeyBuf sd
  | _ => Throw (TypeError "exportPrivate is not a function")
  end.

Definition call_verify (s : state) (plaintext signature : jsval) : result jsval :=
  match initialized s with
  | Some _ => verify s plaintext signature
  | None => Throw (TypeError "verify is not a function")
  end.

Definition call_encrypt (s : state) (plaintext : jsval) (sd : seed L) : result jsval :=
  match initialized s with
  | Some _ => encrypt s plaintext sd
  | None => Throw (TypeError "encrypt is not a function")
  end.

Definition call_sign (s : state) (plaintext : jsval) (sd : seed L) : result jsval :=
  match initialized s with
  | Some true => sign s plaintext sd
  | _ => Throw (TypeError "sign is not a function")
  end.

Definition call_decrypt (s : state) (ciphertext : jsval) : result jsval :=
  match initialized s with
  | Some true => decrypt s ciphertext
  | _ => Throw (TypeError "decrypt is not a function")
  end.

(** What the files expect of the serializer: a record that was written
    is a buffer that reads back as the same record. *)
Definition serializer_contract : Prop :=
  forall r v, serialize L r = Return v ->
              isArrayBuffer v = true /\ deserialize L v = Return r.

(** What the file expects of the other helpers it fetches: the symmetric
    cipher opens what it sealed, a subject reads back from its ASCII
    bytes, the definition table answers under the name it was asked, a
    buffer equals itself, and a signature made with a private key verifies
    under that key and under the public key derived from it, which a new
    cipher object accepts. *)
Record Contract : Prop := mkContract {
  serializer_ok : serializer_contract;
  symmetric_ok :
    forall k p sd c, sym_encrypt L k p sd = Return c -> sym_decrypt L k c = Return p;
  ascii_ok : forall s, toASCII L (JArrayBuffer (encode_ascii L s)) = s;
  definition_ok : forall name a, getDef L name = Some a -> def_name a = name;
  equal_ok : forall c pk, getPublicKey L c = Return pk -> buffer_equal L pk pk = true;
  signature_ok :
    forall c0 k c1 d sd sig,
      setPrivateKey L c0 k = Return c1 ->
      asym_sign L c1 d sd = Return sig ->
      asym_verify L c1 d sig = Return (JBool true)
      /\ (forall pk, getPublicKey L c1 = Return pk ->
                     exists c2, setPublicKey L c0 pk = Return c2
                                /\ asym_verify L c2 d sig = Return (JBool true))
}.

(** Modelled from the spec: the object that
    [tool.get('cipher.asymmetric')(name)] makes is not among the sources.
    The identity's [decrypt] is a thin delegation to the EC primitive
    (spec 2 and 4.2): the [decrypt] of that object calls
    [getDecryptCredential] of an EC instance, on the ciphertext or a
    conversion of it, and what that call raises comes out of it. *)
Definition decrypt_delegates (E : EC.Lib) : Prop :=
  exists (ec : cipher L -> EC.instance E) (pre : jsval -> jsval)
         (post : jsval -> result jsval),
    forall c ct,
      asym_decrypt L c ct
      = (v <- EC.call_getDecryptCredential E (ec c) (pre ct) ;; post v).

End WithLib.

Arguments subjectBuf {L} _.
Arguments secretBuf {L} _.
Arguments publicKeyBuf {L} _.
Arguments algorithmName {L} _.
Arguments signatureBuf {L} _.
Arguments asymCipher {L} _.
Arguments identityID {L} _.
Arguments initialized {L} _.

End Identity.

(** ** lib/enigma/message.js *)

Module Message.

(** The [compression] enum of the envelope template: [false] or ['lzw']. *)
Inductive compression : Type :=
| NoCompression
| Lzw.

(** The records of [templatePayload] and [templateEnvelope]. *)
Record payload : Type := mkPayload {
  p_signers : list jsval;
  p_signatures : list jsval;
  p_content : jsval
}.

Record envelope : Type := mkEnvelope {
  e_compression : compression;
  e_receivers : list jsval;
  e_decryptors : list jsval;
  e_payload : jsval
}.

(** The second argument of [write]. *)
Record woptions : Type := mkWoptions {
  clearsign : jsval
}.

(** What [message.js] fetches through [tool.get], on top of what the
    identities it is handed need. *)
Record Lib : Type := {
  I : Identity.Lib;
  (* tool.get('util.serialize')(templatePayload) *)
  payload_serialize : payload -> result jsval;
  payload_deserialize : jsval -> result payload;
  (* tool.get('util.serialize')(templateEnvelope) *)
  envelope_serialize : envelope -> result jsval;
  envelope_deserialize : jsval -> result envelope;
  (* tool.get('util.compress'), tool.get('util.decompress') *)
  compress : jsval -> result jsval;
  decompress : jsval -> result jsval
}.

(** The methods a message object can carry. *)
Inductive method : Type :=
| m_write
| m_read
| m_sign
| m_encrypt
| m_done
| m_decrypt
| m_getReceivers
| m_getPlaintext
| m_verify
| m_getSigners.

(** Which methods are on the object. *)
Record methods : Type := mkMethods {
  on_write : bool;
  on_read : bool;
  on_sign : bool;
  on_encrypt : bool;
  on_done : bool;
  on_decrypt : bool;
  on_getReceivers : bool;
  on_getPlaintext : bool;
  on_verify : bool;
  on_getSigners : bool
}.

Definition has (ms : methods) (m : method) : bool :=
  match m with
  | m_write => on_write ms
  | m_read => on_read ms
  | m_sign => on_sign ms
  | m_encrypt => on_encrypt ms
  | m_done => on_done ms
  | m_decrypt => on_decrypt ms
  | m_getReceivers => on_getReceivers ms
  | m_getPlaintext => on_getPlaintext ms
  | m_verify => on_verify ms
  | m_getSigners => on_getSigners ms
  end.

Definition set_method (m : method) (b : bool) (ms : methods) : methods :=
  match m with
  | m_write =>
      mkMethods b (on_read ms) (on_sign ms) (on_encrypt ms) (on_done ms) (on_decrypt ms)
        (on_getReceivers ms) (on_getPlaintext ms) (on_verify ms) (on_getSigners ms)
  | m_read =>
      mkMethods (on_write ms) b (on_sign ms) (on_encrypt ms) (on_done ms) (on_decrypt
        ms) (on_getReceivers ms) (on_getPlaintext ms) (on_verify ms) (on_getSigners ms)
  | m_sign =>
      mkMethods (on_write ms) (on_read ms) b (on_encrypt ms) (on_done ms) (on_decrypt
        ms) (on_getReceivers ms) (on_getPlaintext ms) (on_verify ms) (on_getSigners ms)
  | m_encrypt =>
      mkMethods (on_write ms) (on_read ms) (on_sign ms) b (on_done ms) (on_decrypt ms)
        (on_getReceivers ms) (on_getPlaintext ms) (on_verify ms) (on_getSigners ms)
  | m_done =>
      mkMethods (on_write ms) (on_read ms) (on_sign ms) (on_encrypt ms) b (on_decrypt
        ms) (on_getReceivers ms) (on_getPlaintext ms) (on_verify ms) (on_getSigners ms)
  | m_decrypt =>
      mkMethods (on_write ms) (on_read ms) (on_sign ms) (on_encrypt ms) (on_done ms) b
        (on_getReceivers ms) (on_getPlaintext ms) (on_verify ms) (on_getSigners ms)
  | m_getReceivers =>
      mkMethods (on_write ms) (on_read ms) (on_sign ms) (on_encrypt ms) (on_done ms)
        (on_decrypt ms) b (on_getPlaintext ms) (on_verify ms) (on_getSigners ms)
  | m_getPlaintext =>
      mkMethods (on_write ms) (on_read ms) (on_sign ms) (on_encrypt ms) (on_done ms)
        (on_decrypt ms) (on_getReceivers ms) b (on_verify ms) (on_getSigners ms)
  | m_verify =>
      mkMethods (on_write ms) (on_read ms) (on_sign ms) (on_encrypt ms) (on_done ms)
        (on_decrypt ms) (on_getReceivers ms) (on_getPlaintext ms) b (on_getSigners ms)
  | m_getSigners =>
      mkMethods (on_write ms) (on_read ms) (on_sign ms) (on_encrypt ms) (on_done ms)
        (on_decrypt ms) (on_getReceivers ms) (on_getPlaintext ms) (on_verify ms) b
  end.

(** The closure variables of one message and the methods on [self]. *)
Record state : Type := mkState {
  plaintextBuf : jsval;
  mainKeyBuf : jsval;
  receivers : list jsval;
  decryptors : list jsval;
  signatures : list jsval;
  signers : list jsval;
  clearSign : bool;
  payloadBuf : jsval;
  payloadCompression : option compression;
  self : methods
}.

Definition set_plaintextBuf (v : jsval) (s : state) : state :=
  mkState v (mainKeyBuf s) (receivers s) (decryptors s) (signatures s) (signers s)
    (clearSign s) (payloadBuf s) (payloadCompression s) (self s).

Definition set_mainKeyBuf (v : jsval) (s : state) : state :=
  mkState (plaintextBuf s) v (receivers s) (decryptors s) (signatures s) (signers s)
    (clearSign s) (payloadBuf s) (payloadCompression s) (self s).

Definition set_receivers (v : list jsval) (s : state) : state :=
  mkState (plaintextBuf s) (mainKeyBuf s) v (decryptors s) (signatures s) (signers s)
    (clearSign s) (payloadBuf s) (payloadCompression s) (self s).

Definition set_decryptors (v : list jsval) (s : state) : state :=
  mkState (plaintextBuf s) (mainKeyBuf s) (receivers s) v (signatures s) (signers s)
    (clearSign s) (payloadBuf s) (payloadCompression s) (self s).

Definition set_signatures (v : list jsval) (s : state) : state :=
  mkState (plaintextBuf s) (mainKeyBuf s) (receivers s) (decryptors s) v (signers s)
    (clearSign s) (payloadBuf s) (payloadCompression s) (self s).

Definition set_signers (v : list jsval) (s : state) : state :=
  mkState (plaintextBuf s) (mainKeyBuf s) (receivers s) (decryptors s) (signatures s) v
    (clearSign s) (payloadBuf s) (payloadCompression s) (self s).

Definition set_clearSign (v : bool) (s : state) : state :=
  mkState (plaintextBuf s) (mainKeyBuf s) (receivers s) (decryptors s) (signatures s)
    (signers s) v (payloadBuf s) (payloadCompression s) (self s).

Definition set_payloadBuf (v : jsval) (s : state) : state :=
  mkState (plaintextBuf s) (mainKeyBuf s) (receivers s) (decryptors s) (signatures s)
    (signers s) (clearSign s) v (payloadCompression s) (self s).

Definition set_payloadCompression (v : option compression) (s : state) : state :=
  mkState (plaintextBuf s) (mainKeyBuf s) (receivers s) (decryptors s) (signatures s)
    (signers s) (clearSign s) (payloadBuf s) v (self s).

Definition set_self (v : methods) (s : state) : state :=
  mkState (plaintextBuf s) (mainKeyBuf s) (receivers s) (decryptors s) (signatures s)
    (signers s) (clearSign s) (payloadBuf s) (payloadCompression s) v.


(** [new message()]: only [write] and [read] are on the object. *)
Definition fresh : state :=
  mkState JUndefined JUndefined [] [] [] [] false JUndefined None
    (mkMethods true true false false false false false false false false).

Definition install (m : method) : M state unit :=
  modify (fun s => set_self (set_method m true (self s)) s).

(** [delete self.m] *)
Definition delete (m : method) : M state unit :=
  modify (fun s => set_self (set_method m false (self s)) s).

(** The index at which a [for] loop with [break] on the first hit stops. *)
Fixpoint find_index (f : jsval -> bool) (l : list jsval) : option nat :=
  match l with
  | [] => None
  | x :: r => if f x then Some O
              else match find_index f r with
                   | Some i => Some (S i)
                   | None => None
                   end
  end.

(** [l[i]] *)
Definition item (l : list jsval) (i : nat) : jsval := nth i l JUndefined.

Section WithLib.
Variable L : Lib.

Definition identity : Type := Identity.state (I L).

Definition write (plaintext : jsval) (opts : option woptions) (sd : Identity.seed (I L))
  : M state unit :=
  if negb (isArrayBuffer plaintext) then throw (Error "enigma-invalid-input")
  else
    modify (set_plaintextBuf plaintext) ;;;
    modify (set_mainKeyBuf (Identity.srand_bytes (I L) sd 64)) ;;;
    let cs := match opts with
              | Some o => js_is_true (clearsign o)
              | None => false
              end in
    modify (set_clearSign cs) ;;;
    delete m_write ;;;
    delete m_read ;;;
    install m_sign ;;;
    if negb cs then install m_encrypt else ret tt.

Definition continueUnpackPayload : M state unit :=
  s <~ get ;;
  match payloadCompression s with
  | Some Lzw =>
      b <~ lift (try_catch (decompress L (payloadBuf s))
                   (fun _ => Throw (Error "enigma-invalid-input"))) ;;
      modify (set_payloadBuf b)
  | Some NoCompression => ret tt
  | None => throw (Error "enigma-invalid-input")
  end ;;;
  s <~ get ;;
  payloadDeserialized <~ lift (try_catch (payload_deserialize L (payloadBuf s))
                                 (fun _ => Throw (Error "enigma-invalid-input"))) ;;
  let dSignatures := p_signatures payloadDeserialized in
  let dSigners := p_signers payloadDeserialized in
  let dPlaintext := p_content payloadDeserialized in
  if negb (Nat.eqb (List.length dSignatures) (List.length dSigners))
  then throw (Error "enigma-invalid-input")
  else
    modify (set_plaintextBuf dPlaintext) ;;;
    install m_getPlaintext ;;;
    if Nat.ltb 0 (List.length dSigners) then
      modify (set_signatures dSignatures) ;;;
      modify (set_signers dSigners) ;;;
      install m_verify ;;;
      install m_getSigners
    else ret tt.

Definition read (textBuf : jsval) : M state unit :=
  if negb (isArrayBuffer textBuf) then throw (Error "enigma-invalid-input")
  else
    match envelope_deserialize L textBuf with
    | Return envelopeDeserialized =>
        let dReceivers := e_receivers envelopeDeserialized in
        let dDecryptors := e_decryptors envelopeDeserialized in
        let dCompression := e_compression envelopeDeserialized in
        let dPayload := e_payload envelopeDeserialized in
        modify (set_payloadBuf dPayload) ;;;
        modify (set_payloadCompression (Some dCompression)) ;;;
        if negb (Nat.eqb (List.length dReceivers) (List.length dDecryptors))
        then throw (Error "enigma-invalid-input")
        else if Nat.ltb 0 (List.length dReceivers) then
          modify (set_decryptors dDecryptors) ;;;
          modify (set_receivers dReceivers) ;;;
          install m_decrypt ;;;
          install m_getReceivers ;;;
          delete m_write ;;;
          delete m_read
        else
          continueUnpackPayload ;;;
          delete m_write ;;;
          delete m_read
    | Throw _ =>
        modify (set_payloadCompression (Some NoCompression)) ;;;
        modify (set_payloadBuf textBuf) ;;;
        continueUnpackPayload ;;;
        delete m_write ;;;
        delete m_read
    end.

Definition sign (withIdentity : identity) (sd : Identity.seed (I L)) : M state unit :=
  prv <~ lift (Identity.call_isPrivate (I L) withIdentity) ;;
  if negb prv then throw (Error "enigma-invalid-identity-for-sign")
  else
    withIdentityFp <~ lift (Identity.call_getFingerprint (I L) withIdentity) ;;
    s <~ get ;;
    signature <~ lift (Identity.call_sign (I L) withIdentity (plaintextBuf s) sd) ;;
    modify (fun s => set_signers (signers s ++ [withIdentityFp]) s) ;;;
    modify (fun s => set_signatures (signatures s ++ [signature]) s) ;;;
    s <~ get ;;
    (if Nat.leb 255 (List.length (signers s)) then delete m_sign else ret tt) ;;;
    s <~ get ;;
    if negb (has (self s) m_done) then install m_done else ret tt.

Definition encrypt (toIdentity : identity) (sd : Identity.seed (I L)) : M state bool :=
  s <~ get ;;
  decryptor <~ lift (Identity.call_encrypt (I L) toIdentity (mainKeyBuf s) sd) ;;
  toIdentityFp <~ lift (Identity.call_getFingerprint (I L) toIdentity) ;;
  modify (fun s => set_receivers (receivers s ++ [toIdentityFp]) s) ;;;
  modify (fun s => set_decryptors (decryptors s ++ [decryptor]) s) ;;;
  s <~ get ;;
  (if Nat.leb 255 (List.length (receivers s)) then delete m_encrypt else ret tt) ;;;
  s <~ get ;;
  (if negb (has (self s) m_done) then install m_done else ret tt) ;;;
  ret true.

Definition done (sd : Identity.seed (I L)) : M state jsval :=
  delete m_sign ;;;
  delete m_encrypt ;;;
  s <~ get ;;
  payloadBuf <~ lift (payload_serialize L
                        (mkPayload (signers s) (signatures s) (plaintextBuf s))) ;;
  if clearSign s then ret payloadBuf
  else
    payloadBuf <~ lift (compress L payloadBuf) ;;
    payloadBuf <~ (if Nat.ltb 0 (List.length (decryptors s))
                   then lift (Identity.sym_encrypt (I L) (mainKeyBuf s) payloadBuf sd)
                   else ret payloadBuf) ;;
    envelopeBuf <~ lift (envelope_serialize L
                           (mkEnvelope Lzw (receivers s) (decryptors s) payloadBuf)) ;;
    delete m_done ;;;
    ret envelopeBuf.

Definition decrypt (withIdentity : identity) : M state unit :=
  prv <~ lift (Identity.call_isPrivate (I L) withIdentity) ;;
  if negb prv then throw (Error "enigma-invalid-public-identity-for-decrypt")
  else
    identityFingerprint <~ lift (Identity.call_getFingerprint (I L) withIdentity) ;;
    s <~ get ;;
    match find_index (Identity.buffer_equal (I L) identityFingerprint) (receivers s) with
    | None => throw (Error "enigma-not-intended-identity-for-decrypt")
    | Some i =>
        let decryptor := item (decryptors s) i in
        mainKeyBuf <~ lift (try_catch (Identity.call_decrypt (I L) withIdentity decryptor)
                              (fun _ => Throw (Error "enigma-identity-decryption-error"))) ;;
        b <~ lift (try_catch (Identity.sym_decrypt (I L) mainKeyBuf (payloadBuf s))
                     (fun _ => Throw (Error "enigma-message-corrupted"))) ;;
        modify (set_payloadBuf b) ;;;
        continueUnpackPayload ;;;
        delete m_decrypt ;;;
        delete m_getReceivers
    end.

Definition verify (withIdentity : identity) : M state jsval :=
  identityFingerprint <~ lift (Identity.call_getFingerprint (I L) withIdentity) ;;
  s <~ get ;;
  match find_index (Identity.buffer_equal (I L) identityFingerprint) (signers s) with
  | None => throw (Error "enigma-invalid-identity-for-verify")
  | Some i =>
      let signature := item (signatures s) i in
      lift (try_catch (Identity.call_verify (I L) withIdentity (plaintextBuf s) signature)
              (fun _ => Throw (Error "enigma-invalid-identity-for-verify")))
  end.

Definition getPlaintext : M state jsval :=
  s <~ get ;; ret (plaintextBuf s).

Definition _fpListToStr (l : list jsval) : list string :=
  map (Identity.toBase32 (I L)) l.

Definition getReceivers : M state (list string) :=
  s <~ get ;; ret (_fpListToStr (receivers s)).

Definition getSigners : M state (list string) :=
  s <~ get ;; ret (_fpListToStr (signers s)).

(** [self.m(...)]: the body when [m] is on the object, [TypeError] when it
    is not. *)
Definition call {A : Type} (m : method) (body : M state A) : M state A :=
  fun s =>
    if has (self s) m then body s
    else (Throw (TypeError "not a function"), s).

(** The calls a user of a message object can make. *)
Inductive op : Type :=
| OpWrite (plaintext : jsval) (opts : option woptions) (sd : Identity.seed (I L))
| OpRead (textBuf : jsval)
| OpSign (withIdentity : identity) (sd : Identity.seed (I L))
| OpEncrypt (toIdentity : identity) (sd : Identity.seed (I L))
| OpDone (sd : Identity.seed (I L))
| OpDecrypt (withIdentity : identity)
| OpVerify (withIdentity : identity)
| OpGetPlaintext
| OpGetReceivers
| OpGetSigners.

Definition void {A : Type} (m : M state A) : M state unit := m ;;; ret tt.

(** The method a call goes through. *)
Definition op_method (o : op) : method :=
  match o with
  | OpWrite _ _ _ => m_write
  | OpRead _ => m_read
  | OpSign _ _ => m_sign
  | OpEncrypt _ _ => m_encrypt
  | OpDone _ => m_done
  | OpDecrypt _ => m_decrypt
  | OpVerify _ => m_verify
  | OpGetPlaintext => m_getPlaintext
  | OpGetReceivers => m_getReceivers
  | OpGetSigners => m_getSigners
  end.

(** The function behind it; the value it returns is dropped, its outcome
    and the state it leaves are kept. *)
Definition op_body (o : op) : M state unit :=
  match o with
  | OpWrite p opts sd => write p opts sd
  | OpRead b => read b
  | OpSign i sd => sign i sd
  | OpEncrypt i sd => void (encrypt i sd)
  | OpDone sd => void (done sd)
  | OpDecrypt i => decrypt i
  | OpVerify i => void (verify i)
  | OpGetPlaintext => void getPlaintext
  | OpGetReceivers => void getReceivers
  | OpGetSigners => void getSigners
  end.

(** One call. *)
Definition exec (o : op) : M state unit := call (op_method o) (op_body o).

(** A sequence of calls, each made whatever the outcome of the ones
    before; the outcomes are returned in order. *)
Fixpoint run (t : list op) (s : state) : list (result unit) * state :=
  match t with
  | [] => ([], s)
  | o :: t' =>
      let '(r, s') := exec o s in
      let '(rs, s'') := run t' s' in
      (r :: rs, s'')
  end.

Definition succeeded (r : result unit) : bool :=
  match r with
  | Return _ => true
  | Throw _ => false
  end.

Definition is_sign (o : op) : bool :=
  match o with OpSign _ _ => true | _ => false end.

Definition is_encrypt (o : op) : bool :=
  match o with OpEncrypt _ _ => true | _ => false end.

(** How many of the calls selected by [sel] returned normally. *)
Fixpoint count_ok (sel : op -> bool) (t : list op) (rs : list (result unit)) : nat :=
  match t, rs with
  | o :: t', r :: rs' =>
      (if sel o && succeeded r then 1 else 0)%nat + count_ok sel t' rs'
  | _, _ => O
  end.

Definition bump (sel : op -> bool) (o : op) (r : result unit) (n : nat) : nat :=
  (n + if sel o && succeeded r then 1 else 0)%nat.

(** What holds of a message object however it was used, with [n] the
    number of [sign] calls and [m] the number of [encrypt] calls that have
    returned: [sign] and [encrypt] are there only in a written message
    that has room left, [write] only while nothing was signed or
    encrypted, and [decrypt] never together with them. *)
Definition wf (s : state) (n m : nat) : Prop :=
  (has (self s) m_write = true ->
   has (self s) m_sign = false /\ has (self s) m_encrypt = false
   /\ has (self s) m_decrypt = false
   /\ signers s = [] /\ receivers s = [] /\ n = O /\ m = O)
  /\ (has (self s) m_read = true -> has (self s) m_write = true)
  /\ (has (self s) m_decrypt = true ->
      has (self s) m_sign = false /\ has (self s) m_encrypt = false)
  /\ (has (self s) m_sign = true -> List.length (signers s) = n /\ (n < 255)%nat)
  /\ (has (self s) m_encrypt = true -> List.length (receivers s) = m /\ (m < 255)%nat)
  /\ (n <= 255)%nat /\ (m <= 255)%nat.

(** [d] opens what is sealed for [r]: the two share a key pair. *)
Definition opens (d r : identity) : Prop :=
  forall k sd ct,
    Identity.call_encrypt (I L) r k sd = Return ct ->
    Identity.call_decrypt (I L) d ct = Return k.

(** [d] is a recipient among [calls]: [encrypt] was called for an
    identity that carries the fingerprint of [d], and [d] opens what is
    sealed for any identity among them that carries it (as it does when
    fingerprints tell key pairs apart). *)
Definition recipient (d : identity) (calls : list op) : Prop :=
  exists fp,
    Identity.call_getFingerprint (I L) d = Return fp
    /\ (exists r sd fr,
          In (OpEncrypt r sd) calls
          /\ Identity.call_getFingerprint (I L) r = Return fr
          /\ Identity.buffer_equal (I L) fp fr = true)
    /\ (forall r sd fr,
          In (OpEncrypt r sd) calls ->
          Identity.call_getFingerprint (I L) r = Return fr ->
          Identity.buffer_equal (I L) fp fr = true ->
          opens d r).

(** A message being written: plaintext [P], content key [K], one
    signature per signer, and every receiver entry next to the content
    key as sealed for it by one of the [encrypt] calls of [all]. *)
Definition writing (P K : jsval) (all : list op) (s : state) : Prop :=
  plaintextBuf s = P /\ mainKeyBuf s = K /\ clearSign s = false
  /\ List.length (signatures s) = List.length (signers s)
  /\ Forall2
       (fun fr ct =>
          exists r sd,
            In (OpEncrypt r sd) all
            /\ Identity.call_getFingerprint (I L) r = Return fr
            /\ Identity.call_encrypt (I L) r K sd = Return ct)
       (receivers s) (decryptors s).

(** The parallel lists are index-aligned. *)
Definition aligned (s : state) : Prop :=
  List.length (signers s) = List.length (signatures s)
  /\ List.length (receivers s) = List.length (decryptors s).

(** Whether a method of a read message is on the object. *)
Definition read_side (ms : methods) : bool :=
  on_decrypt ms || on_getReceivers ms || on_getPlaintext ms || on_verify ms
  || on_getSigners ms.

(** [a] accepts what [r] signs: the two share a key pair. *)
Definition vouches (a r : identity) : Prop :=
  forall p sd sig,
    Identity.call_sign (I L) r p sd = Return sig ->
    Identity.call_verify (I L) a p sig = Return (JBool true).

(** [a] is a signer among [calls]: [sign] was called with an identity
    that carries the fingerprint of [a], and [a] accepts what any identity
    among them that carries it has signed. *)
Definition signer (a : identity) (calls : list op) : Prop :=
  exists fp,
    Identity.call_getFingerprint (I L) a = Return fp
    /\ (exists r sd fr,
          In (OpSign r sd) calls
          /\ Identity.call_getFingerprint (I L) r = Return fr
          /\ Identity.buffer_equal (I L) fp fr = true)
    /\ (forall r sd fr,
          In (OpSign r sd) calls ->
          Identity.call_getFingerprint (I L) r = Return fr ->
          Identity.buffer_equal (I L) fp fr = true ->
          vouches a r).

(** Every signer entry stands next to the signature over [P] that one of
    the [sign] calls of [all] made for it. *)
Definition signing (P : jsval) (all : list op) (s : state) : Prop :=
  Forall2
    (fun fr sig =>
       exists r sd,
         In (OpSign r sd) all
         /\ Identity.call_getFingerprint (I L) r = Return fr
         /\ Identity.call_sign (I L) r P sd = Return sig)
    (signers s) (signatures s).

(** What a call that raises before it has installed anything leaves
    alone: everything but the payload buffer and its compression. *)
Definition kept (s s' : state) : Prop :=
  self s' = self s
  /\ plaintextBuf s' = plaintextBuf s
  /\ mainKeyBuf s' = mainKeyBuf s
  /\ clearSign s' = clearSign s
  /\ receivers s' = receivers s
  /\ decryptors s' = decryptors s
  /\ signers s' = signers s
  /\ signatures s' = signatures s.

(** [delete self.write; delete self.read] *)
Definition off_write_read (s : state) : state :=
  set_self (set_method m_read false (set_method m_write false (self s))) s.

(** [delete self.decrypt; delete self.getReceivers] *)
Definition off_decrypt (s : state) : state :=
  set_self (set_method m_getReceivers false (set_method m_decrypt false (self s))) s.

(** The object once the payload record [pl] was unpacked from the buffer
    [b]: its content is the plaintext, its lists replace those of the
    object when it names signers, and the reading methods are installed. *)
Definition unpacked (b : jsval) (pl : payload) (s : state) : state :=
  let n := Nat.ltb 0 (List.length (p_signers pl)) in
  let ms := self s in
  mkState (p_content pl) (mainKeyBuf s) (receivers s) (decryptors s)
    (if n then p_signatures pl else signatures s)
    (if n then p_signers pl else signers s)
    (clearSign s) b (payloadCompression s)
    (mkMethods (on_write ms) (on_read ms) (on_sign ms) (on_encrypt ms) (on_done ms)
       (on_decrypt ms) (on_getReceivers ms) true
       (n || on_verify ms) (n || on_getSigners ms)).

(** The stages of a message object.  A blank one has [write] and [read]
    and nothing else. *)
Definition blank (s : state) : Prop :=
  self s = mkMethods true true false false false false false false false false
  /\ plaintextBuf s = JUndefined /\ clearSign s = false
  /\ receivers s = [] /\ decryptors s = [] /\ signers s = [] /\ signatures s = [].

(** A written one holds a plaintext buffer, has none of the methods of a
    blank or a read one, and no receivers when it is clear-signed. *)
Definition written (s : state) : Prop :=
  on_write (self s) = false /\ on_read (self s) = false
  /\ read_side (self s) = false
  /\ isArrayBuffer (plaintextBuf s) = true
  /\ (clearSign s = true -> receivers s = [] /\ on_encrypt (self s) = false).

(** A locked one was read off an envelope with receivers: [decrypt] and
    [getReceivers] are its only methods and it holds no plaintext. *)
Definition locked (s : state) : Prop :=
  self s = mkMethods false false false false false true true false false false
  /\ plaintextBuf s = JUndefined /\ clearSign s = false
  /\ signers s = [] /\ signatures s = [] /\ receivers s <> [].

(** An opened one has [getPlaintext], and [verify] and [getSigners] when
    the payload named signers, and nothing else. *)
Definition opened (s : state) : Prop :=
  self s = mkMethods false false false false false false false true
             (Nat.ltb 0 (List.length (signers s)))
             (Nat.ltb 0 (List.length (signers s)))
  /\ clearSign s = false.

Definition lifecycle (s : state) : Prop :=
  aligned s /\ (blank s \/ written s \/ locked s \/ opened s).

(** What the file expects of the serializers, the compressor and the
    symmetric cipher: each undoes the other half. *)
Record Contract : Prop := mkContract {
  payload_roundtrip :
    forall r v, payload_serialize L r = Return v -> payload_deserialize L v = Return r;
  envelope_roundtrip :
    forall r v, envelope_serialize L r = Return v ->
                isArrayBuffer v = true /\ envelope_deserialize L v = Return r;
  compress_roundtrip :
    forall b c, compress L b = Return c -> decompress L c = Return b;
  symmetric_roundtrip :
    forall k p sd c, Identity.sym_encrypt (I L) k p sd = Return c ->
                     Identity.sym_decrypt (I L) k c = Return p
}.

End WithLib.

End Message.


(** ** A small instance of the EC library

    A stand-in for the curve code, used to run [ec.js] on concrete
    inputs: the group is the integers modulo 251 under addition, with
    generator 5. *)

Module ToyEC.

Definition bytes_of (v : jsval) : list Z :=
  match v with
  | JArrayBuffer b => map byte_val b
  | JArray a => a
  | _ => []
  end.

Definition unsigned (a : list Z) : Z :=
  fold_left (fun acc x => acc * 256 + x) a 0.

Definition xor_bytes (a b : list Z) : list byte :=
  map (fun p => byte_of_Z (Z.lxor (fst p) (snd p))) (combine a b).

Definition lib : EC.Lib := {|
  EC.seed := list Z;
  EC.bigi := Z;
  EC.ecparams := fun name => String.eqb name "toy";
  EC.fromByteArrayUnsigned := unsigned;
  EC.publicOf := fun _ k => [(5 * k) mod 251];
  EC.sharedOf := fun _ q k =>
    match q with
    | [x] => Return [(x * k) mod 251]
    | _ => Throw (Error "invalid point")
    end;
  EC.ecdsa_sign := fun _ d k _ =>
    match k with
    | Some k => Return (JArrayBuffer [byte_of_Z k; byte_of_Z (unsigned (bytes_of d))])
    | None => Throw (TypeError "null key")
    end;
  EC.ecdsa_verify := fun _ d s pk =>
    match s, pk with
    | JArray [r; m], JArray [q] =>
        Return (JBool (((5 * r) mod 251 =? q) && (m =? unsigned (bytes_of d) mod 256)))
    | _, _ => Throw (Error "invalid signature encoding")
    end;
  EC.isBuffer := isArrayBuffer;
  EC.buffer2array := fun v =>
    match v with
    | JArrayBuffer b => Return (JArray (map byte_val b))
    | _ => Throw (TypeError "not a buffer")
    end;
  EC.pbkdf2 := fun secret salt rounds len =>
    match len with
    | JNum n => Return (JArrayBuffer
                          (repeat (byte_of_Z (unsigned (bytes_of secret ++ bytes_of salt) + rounds))
                             (Z.to_nat n)))
    | _ => Return (JArrayBuffer [])
    end;
  EC.buffer_xor := fun a b => Return (JArrayBuffer (xor_bytes (bytes_of a) (bytes_of b)));
  EC.buffer_concat := fun l =>
    Return (JArrayBuffer (map byte_of_Z (flat_map bytes_of l)));
  EC.srand_bytes := fun sd n => JArray (firstn (Z.to_nat n) sd)
|}.

(** An instance with the public key [[35]] (private key 7). *)
Definition public_instance : EC.instance lib :=
  EC.initWithPublicKey lib
    (EC.mkInstance lib "toy" None JNull true true false false false false false false)
    (JArray [35]).

Definition private_instance : EC.instance lib :=
  EC.initWithPrivateKey lib
    (EC.mkInstance lib "toy" None JNull true true false false false false false false)
    [7].

End ToyEC.


(** ** A small instance of the identity and message libraries

    Stand-ins for the serializer, the ciphers, the hash and the random
    source, used to run [identity.js] and [message.js] on concrete inputs.
    The serializer writes the two magic bytes of the template, then each
    binary field as its bytes, every one behind a marker, closed by a zero
    marker; the symmetric cipher prefixes the key and refuses a ciphertext
    that does not start with it; a key pair is a byte string and its
    reverse. *)

Module Toy.

Fixpoint bytes_eqb (a b : list byte) : bool :=
  match a, b with
  | [], [] => true
  | x :: a', y :: b' => Byte.eqb x y && bytes_eqb a' b'
  | _, _ => false
  end.

Fixpoint strip_prefix (k l : list byte) : option (list byte) :=
  match k with
  | [] => Some l
  | x :: k' =>
      match l with
      | y :: l' => if Byte.eqb x y then strip_prefix k' l' else None
      | [] => None
      end
  end.

Definition as_buffer (v : jsval) : option (list byte) :=
  match v with
  | JArrayBuffer b => Some b
  | _ => None
  end.

Fixpoint as_buffers (l : list jsval) : option (list (list byte)) :=
  match l with
  | [] => Some []
  | v :: r =>
      match as_buffer v, as_buffers r with
      | Some b, Some bs => Some (b :: bs)
      | _, _ => None
      end
  end.

Definition enc_bytes (b : list byte) : list byte :=
  flat_map (fun x => [x01; x]) b ++ [x00].

Fixpoint dec_bytes (l : list byte) : option (list byte * list byte) :=
  match l with
  | t :: rest =>
      if Byte.eqb t x00 then Some ([], rest)
      else match rest with
           | x :: rest' =>
               match dec_bytes rest' with
               | Some (b, r) => Some (x :: b, r)
               | None => None
               end
           | [] => None
           end
  | [] => None
  end.

Definition enc_list (l : list (list byte)) : list byte :=
  flat_map (fun b => x01 :: enc_bytes b) l ++ [x00].

Fixpoint dec_list (fuel : nat) (l : list byte) : option (list (list byte) * list byte) :=
  match fuel with
  | O => None
  | S f =>
      match l with
      | t :: rest =>
          if Byte.eqb t x00 then Some ([], rest)
          else match dec_bytes rest with
               | Some (b, r) =>
                   match dec_list f r with
                   | Some (bs, r') => Some (b :: bs, r')
                   | None => None
                   end
               | None => None
               end
      | [] => None
      end
  end.

(** At most 255 items in an array. *)
Definition short (l : list jsval) : bool := Nat.leb (List.length l) 255.

Definition payload_serialize (r : Message.payload) : result jsval :=
  match as_buffers (Message.p_signers r), as_buffers (Message.p_signatures r),
        as_buffer (Message.p_content r) with
  | Some a, Some b, Some c =>
      if short (Message.p_signers r) && short (Message.p_signatures r)
      then Return (JArrayBuffer (x45 :: x70 :: enc_list a ++ enc_list b ++ enc_bytes c))
      else Throw (Error "serialize: too many items")
  | _, _, _ => Throw (Error "serialize: not a buffer")
  end.

Definition payload_deserialize (v : jsval) : result Message.payload :=
  match v with
  | JArrayBuffer (m1 :: m2 :: body) =>
      if Byte.eqb m1 x45 && Byte.eqb m2 x70 then
        match dec_list 256 body with
        | Some (a, r1) =>
            match dec_list 256 r1 with
            | Some (b, r2) =>
                match dec_bytes r2 with
                | Some (c, []) =>
                    Return (Message.mkPayload (map JArrayBuffer a) (map JArrayBuffer b)
                              (JArrayBuffer c))
                | _ => Throw (Error "deserialize: content")
                end
            | None => Throw (Error "deserialize: signatures")
            end
        | None => Throw (Error "deserialize: signers")
        end
      else Throw (Error "deserialize: magic")
  | _ => Throw (Error "deserialize: truncated")
  end.

Definition envelope_serialize (r : Message.envelope) : result jsval :=
  match as_buffers (Message.e_receivers r), as_buffers (Message.e_decryptors r),
        as_buffer (Message.e_payload r) with
  | Some a, Some b, Some c =>
      if short (Message.e_receivers r) && short (Message.e_decryptors r)
      then Return (JArrayBuffer
                     (x45 :: x43
                      :: match Message.e_compression r with
                         | Message.NoCompression => x00
                         | Message.Lzw => x01
                         end
                      :: enc_list a ++ enc_list b ++ enc_bytes c))
      else Throw (Error "serialize: too many items")
  | _, _, _ => Throw (Error "serialize: not a buffer")
  end.

Definition envelope_deserialize (v : jsval) : result Message.envelope :=
  match v with
  | JArrayBuffer (m1 :: m2 :: k :: body) =>
      if Byte.eqb m1 x45 && Byte.eqb m2 x43 then
        match (if Byte.eqb k x00 then Some Message.NoCompression
               else if Byte.eqb k x01 then Some Message.Lzw else None) with
        | Some comp =>
            match dec_list 256 body with
            | Some (a, r1) =>
                match dec_list 256 r1 with
                | Some (b, r2) =>
                    match dec_bytes r2 with
                    | Some (c, []) =>
                        Return (Message.mkEnvelope comp (map JArrayBuffer a)
                                  (map JArrayBuffer b) (JArrayBuffer c))
                    | _ => Throw (Error "deserialize: payload")
                    end
                | None => Throw (Error "deserialize: decryptors")
                end
            | None => Throw (Error "deserialize: receivers")
            end
        | None => Throw (Error "deserialize: enum")
        end
      else Throw (Error "deserialize: magic")
  | _ => Throw (Error "deserialize: truncated")
  end.

Definition is_default_name (v : jsval) : bool :=
  match v with
  | JStr s => String.eqb s Identity.defaultAlgorithmName
  | _ => false
  end.

Definition identity_serialize (r : Identity.record) : result jsval :=
  match as_buffer (Identity.r_subject r), as_buffer (Identity.r_public r),
        as_buffer (Identity.r_secret r), as_buffer (Identity.r_signature r) with
  | Some s, Some p, Some k, Some g =>
      if is_default_name (Identity.r_algorithm r)
      then Return (JArrayBuffer
                     (x45 :: x49 :: enc_bytes s ++ enc_bytes p ++ enc_bytes k ++ enc_bytes g))
      else Throw (Error "serialize: enum")
  | _, _, _, _ => Throw (Error "serialize: not a buffer")
  end.

Definition identity_deserialize (v : jsval) : result Identity.record :=
  match v with
  | JArrayBuffer (m1 :: m2 :: body) =>
      if Byte.eqb m1 x45 && Byte.eqb m2 x49 then
        match dec_bytes body with
        | Some (s, r1) =>
            match dec_bytes r1 with
            | Some (p, r2) =>
                match dec_bytes r2 with
                | Some (k, r3) =>
                    match dec_bytes r3 with
                    | Some (g, []) =>
                        Return (Identity.mkRecord (JArrayBuffer s)
                                  (JStr Identity.defaultAlgorithmName)
                                  (JArrayBuffer p) (JArrayBuffer k) (JArrayBuffer g))
                    | _ => Throw (Error "deserialize: signature")
                    end
                | None => Throw (Error "deserialize: secret")
                end
            | None => Throw (Error "deserialize: public")
            end
        | None => Throw (Error "deserialize: subject")
        end
      else Throw (Error "deserialize: magic")
  | _ => Throw (Error "deserialize: truncated")
  end.

(** A cipher object: the private key when one was set, and the public key. *)
Record cipher : Type := mkCipher {
  sk : option (list byte);
  pk : list byte
}.

Definition on_buffer {A : Type} (v : jsval) (f : list byte -> result A) : result A :=
  match v with
  | JArrayBuffer b => f b
  | _ => Throw (TypeError "not a buffer")
  end.

Definition ilib : Identity.Lib := {|
  Identity.seed := byte;
  Identity.cipher := cipher;
  Identity.cipher_new := fun name =>
    if is_default_name name then Return (mkCipher None [])
    else Throw (Error "unknown algorithm");
  Identity.setPrivateKey := fun _ v => on_buffer v (fun k => Return (mkCipher (Some k) (rev k)));
  Identity.setPublicKey := fun _ v => on_buffer v (fun p => Return (mkCipher None p));
  Identity.getPublicKey := fun c => Return (JArrayBuffer (pk c));
  Identity.asym_sign := fun c d _ =>
    match sk c with
    | Some k => on_buffer d (fun b => Return (JArrayBuffer (rev k ++ b)))
    | None => Throw (Error "no private key")
    end;
  Identity.asym_verify := fun c d s =>
    on_buffer d (fun b => on_buffer s (fun g => Return (JBool (bytes_eqb g (pk c ++ b)))));
  Identity.asym_encrypt := fun c m sd =>
    on_buffer m (fun b => Return (JArrayBuffer (sd :: pk c ++ b)));
  Identity.asym_decrypt := fun c ct =>
    match sk c with
    | Some k =>
        on_buffer ct (fun b =>
          match strip_prefix (rev k) (tl b) with
          | Some m => Return (JArrayBuffer m)
          | None => Throw (Error "wrong key")
          end)
    | None => Throw (Error "no private key")
    end;
  Identity.getDef := fun name =>
    if is_default_name name
    then Some (Identity.mkDefinition (JStr Identity.defaultAlgorithmName) 4)
    else None;
  Identity.sym_encrypt := fun k p _ =>
    on_buffer k (fun kb => on_buffer p (fun pb => Return (JArrayBuffer (enc_bytes kb ++ pb))));
  Identity.sym_decrypt := fun k c =>
    on_buffer k (fun kb => on_buffer c (fun cb =>
      match strip_prefix (enc_bytes kb) cb with
      | Some p => Return (JArrayBuffer p)
      | None => Throw (Error "authentication failed")
      end));
  Identity.serialize := identity_serialize;
  Identity.deserialize := identity_deserialize;
  Identity.mac := fun a b =>
    match as_buffer a, as_buffer b with
    | Some x, Some y => x ++ y
    | _, _ => []
    end;
  Identity.hash_secret := fun n v =>
    match v with
    | JStr s => JArrayBuffer (firstn (Z.to_nat n) (list_byte_of_string s))
    | _ => JArrayBuffer []
    end;
  Identity.srand_bytes := fun sd n => JArrayBuffer (repeat sd (Z.to_nat n));
  Identity.buffer_equal := fun a b =>
    match as_buffer a, as_buffer b with
    | Some x, Some y => bytes_eqb x y
    | _, _ => false
    end;
  Identity.encode_ascii := list_byte_of_string;
  Identity.toASCII := fun v =>
    match v with
    | JArrayBuffer b => string_of_list_byte b
    | _ => ""
    end;
  Identity.toBase32 := fun v =>
    match v with
    | JArrayBuffer b => string_of_list_byte b
    | _ => ""
    end
|}.

Definition mlib : Message.Lib := {|
  Message.I := ilib;
  Message.payload_serialize := payload_serialize;
  Message.payload_deserialize := payload_deserialize;
  Message.envelope_serialize := envelope_serialize;
  Message.envelope_deserialize := envelope_deserialize;
  Message.compress := fun v => on_buffer v (fun b => Return (JArrayBuffer (x4c :: b)));
  Message.decompress := fun v =>
    on_buffer v (fun b =>
      match b with
      | t :: r => if Byte.eqb t x4c then Return (JArrayBuffer r)
                  else Throw (Error "not compressed")
      | [] => Throw (Error "not compressed")
      end)
|}.

(** Three generated identities, and the public halves of the first two as
    a correspondent loads them. *)
Definition generated (subject : string) (sd : byte) : Identity.state ilib :=
  snd (Identity.call_generate ilib subject None sd sd (Identity.fresh ilib)).

Definition alice : Identity.state ilib := generated "alice in wonderland" x0a.
Definition bob : Identity.state ilib := generated "bob the builder" x0b.
Definition carol : Identity.state ilib := generated "carol of the bells" x0c.

Definition loaded_public (i : Identity.state ilib) : Identity.state ilib :=
  match Identity.call_exportPublic ilib i with
  | Return b => snd (Identity.call_loadPublic ilib b (Identity.fresh ilib))
  | Throw _ => Identity.fresh ilib
  end.

Definition exported_public (i : Identity.state ilib) : jsval :=
  match Identity.call_exportPublic ilib i with
  | Return b => b
  | Throw _ => JUndefined
  end.

Definition alice_public : Identity.state ilib := loaded_public alice.
Definition bob_public : Identity.state ilib := loaded_public bob.

Definition pin (b : byte) : jsval := JArrayBuffer (repeat b 32).

Definition exported_private (i : Identity.state ilib) (pinkey : jsval) : jsval :=
  match Identity.call_exportPrivate ilib i pinkey x00 with
  | Return b => b
  | Throw _ => JUndefined
  end.

(** The record of [alice] with the wrapped secret of [bob] in it. *)
Definition mismatched_private : jsval :=
  match Identity.sym_encrypt ilib (pin x07) (Identity.secretBuf bob) x00 with
  | Return k =>
      match identity_serialize
              (Identity.mkRecord (Identity.subjectBuf alice) (Identity.algorithmName alice)
                 (Identity.publicKeyBuf alice) k (Identity.signatureBuf alice)) with
      | Return b => b
      | Throw _ => JUndefined
      end
  | Throw _ => JUndefined
  end.

(** The record of [alice] with a signature that does not verify, and the
    record of [bob] with a signature made with his key over the
    identifier of [alice]. *)
Definition unsigned_public : jsval :=
  match identity_serialize
          (Identity.mkRecord (Identity.subjectBuf alice) (Identity.algorithmName alice)
             (Identity.publicKeyBuf alice) (JArrayBuffer []) (JArrayBuffer [x00])) with
  | Return b => b
  | Throw _ => JUndefined
  end.

Definition crossed_public : jsval :=
  match Identity.identityID alice, Identity.asymCipher bob with
  | Some i, Some c =>
      match Identity.asym_sign ilib c (JArrayBuffer i) x00 with
      | Return g =>
          match identity_serialize
                  (Identity.mkRecord (Identity.subjectBuf bob) (Identity.algorithmName bob)
                     (Identity.publicKeyBuf bob) (JArrayBuffer []) g) with
          | Return b => b
          | Throw _ => JUndefined
          end
      | Throw _ => JUndefined
      end
  | _, _ => JUndefined
  end.

Definition hello : list byte := [x68; x65; x6c; x6c; x6f].

Definition fingerprint_of (i : Identity.state ilib) : jsval :=
  match Identity.call_getFingerprint ilib i with
  | Return f => f
  | Throw _ => JUndefined
  end.

(** [alice] writes [hello], signs it and encrypts it to [bob]. *)
Definition written : Message.state :=
  snd (Message.run mlib
         [Message.OpWrite mlib (JArrayBuffer hello) None x33;
          Message.OpSign mlib alice x01;
          Message.OpEncrypt mlib bob_public x02]
         Message.fresh).

Definition sealed : jsval :=
  match fst (Message.call Message.m_done (Message.done mlib x03) written) with
  | Return b => b
  | Throw _ => JUndefined
  end.

(** [bob] reads and decrypts it. *)
Definition opened : Message.state :=
  snd ((Message.call Message.m_read (Message.read mlib sealed) ;;;
        Message.call Message.m_decrypt (Message.decrypt mlib bob)) Message.fresh).

(** [alice] writes [hello] for clear-signing and signs it, then [carol]
    does. *)
Definition clear_calls : list (Message.op mlib) :=
  [Message.OpSign mlib alice x01; Message.OpSign mlib carol x04].

Definition clear_written : Message.state :=
  snd (Message.run mlib
         (Message.OpWrite mlib (JArrayBuffer hello)
            (Some (Message.mkWoptions (JBool true))) x33 :: clear_calls)
         Message.fresh).

Definition clear_signed : jsval :=
  match fst (Message.call Message.m_done (Message.done mlib x03) clear_written) with
  | Return b => b
  | Throw _ => JUndefined
  end.

(** The locked object that reading [sealed] gives. *)
Definition received : Message.state :=
  snd (Message.call Message.m_read (Message.read mlib sealed) Message.fresh).

End Toy.

(** ** Toy identities over the EC primitive

    As [Toy], with the cipher object an instance of [ec.js] on the small
    curve of [ToyEC]: keys go in and out as byte buffers and are handed
    to the primitive as arrays, and [sign], [verify], [encrypt] and
    [decrypt] call the primitive's [sign], [verify],
    [getEncryptCredentials] and [getDecryptCredential]. *)

Module ToyOverEC.

Definition array_of (v : jsval) : jsval :=
  match v with
  | JArrayBuffer b => JArray (map byte_val b)
  | _ => v
  end.

Definition buffer_of (v : jsval) : jsval :=
  match v with
  | JArray a => JArrayBuffer (map byte_of_Z a)
  | _ => v
  end.

Definition ilib : Identity.Lib := {|
  Identity.seed := byte;
  Identity.cipher := EC.instance ToyEC.lib;
  Identity.cipher_new := fun name =>
    if Toy.is_default_name name then EC.new_EC ToyEC.lib "toy"
    else Throw (Error "unknown algorithm");
  Identity.setPrivateKey := fun c v => EC.setPrivateKey ToyEC.lib c (array_of v);
  Identity.setPublicKey := fun c v => EC.setPublicKey ToyEC.lib c (array_of v);
  Identity.getPublicKey := fun c =>
    pk <- EC.getPublicKey ToyEC.lib c ;; Return (buffer_of pk);
  Identity.asym_sign := fun c d sd => EC.call_sign ToyEC.lib c [byte_val sd] d;
  Identity.asym_verify := fun c d s => EC.call_verify ToyEC.lib c d s;
  Identity.asym_encrypt := fun c m sd =>
    EC.call_getEncryptCredentials ToyEC.lib c [byte_val sd] m;
  Identity.asym_decrypt := fun c ct => EC.call_getDecryptCredential ToyEC.lib c ct;
  Identity.getDef := fun name =>
    if Toy.is_default_name name
    then Some (Identity.mkDefinition (JStr Identity.defaultAlgorithmName) 1)
    else None;
  Identity.sym_encrypt := Identity.sym_encrypt Toy.ilib;
  Identity.sym_decrypt := Identity.sym_decrypt Toy.ilib;
  Identity.serialize := Identity.serialize Toy.ilib;
  Identity.deserialize := Identity.deserialize Toy.ilib;
  Identity.mac := Identity.mac Toy.ilib;
  Identity.hash_secret := Identity.hash_secret Toy.ilib;
  Identity.srand_bytes := Identity.srand_bytes Toy.ilib;
  Identity.buffer_equal := Identity.buffer_equal Toy.ilib;
  Identity.encode_ascii := Identity.encode_ascii Toy.ilib;
  Identity.toASCII := Identity.toASCII Toy.ilib;
  Identity.toBase32 := Identity.toBase32 Toy.ilib
|}.

Definition mlib : Message.Lib := {|
  Message.I := ilib;
  Message.payload_serialize := Message.payload_serialize Toy.mlib;
  Message.payload_deserialize := Message.payload_deserialize Toy.mlib;
  Message.envelope_serialize := Message.envelope_serialize Toy.mlib;
  Message.envelope_deserialize := Message.envelope_deserialize Toy.mlib;
  Message.compress := Message.compress Toy.mlib;
  Message.decompress := Message.decompress Toy.mlib
|}.

(** An identity generated over the primitive; its private key is the one
    byte [x0b]. *)
Definition bob : Identity.state ilib :=
  snd (Identity.call_generate ilib "bob the builder" None x0b x0b (Identity.fresh ilib)).

Definition fingerprint_of (i : Identity.state ilib) : jsval :=
  match Identity.call_getFingerprint ilib i with
  | Return f => f
  | Throw _ => JUndefined
  end.

(** [hello] is written and encrypted to [bob], and [done] is called. *)
Definition calls : list (Message.op mlib) := [Message.OpEncrypt mlib bob x02].

Definition written : Message.state :=
  snd (Message.run mlib
         (Message.OpWrite mlib (JArrayBuffer Toy.hello) None x33 :: calls)
         Message.fresh).

Definition sealed : jsval :=
  match fst (Message.call Message.m_done (Message.done mlib x03) written) with
  | Return b => b
  | Throw _ => JUndefined
  end.

End ToyOverEC.

(** * The storage wrapper ([enigma.interface.storage])

    The wrapper is given an object with the [localStorage] interface of
    the W3C and keeps two kinds of entries in it: a value per key, under
    [value.<key>], and notes per key, under [note.<key>.<noteKey>].  What
    it stores is the [JSON] text of the data. *)

Module Storage.

(** The storage object: its entries in the order [key(i)] lists them,
    one per key. *)
Definition storage : Type := list (string * string).

(** [storage.length] *)
Definition length (st : storage) : nat := List.length st.

(** [storage.key(i)]: [null] past the end. *)
Definition key (st : storage) (i : nat) : option string := nth_error (map fst st) i.

(** [storage.getItem(k)]: [null] when there is no such entry. *)
Fixpoint getItem (st : storage) (k : string) : option string :=
  match st with
  | [] => None
  | (k', v) :: r => if String.eqb k' k then Some v else getItem r k
  end.

(** [storage.setItem(k, v)]: the entry keeps its place when there is one. *)
Fixpoint setItem (st : storage) (k v : string) : storage :=
  match st with
  | [] => [(k, v)]
  | (k', v') :: r => if String.eqb k' k then (k', v) :: r else (k', v') :: setItem r k v
  end.

(** [storage.removeItem(k)] *)
Definition removeItem (st : storage) (k : string) : storage :=
  filter (fun e => negb (String.eqb (fst e) k)) st.

(** [s.slice(0, n)] and [s.slice(n)], on strings of one-byte characters. *)
Definition slice_to (s : string) (n : nat) : string := String.substring 0 n s.

Definition slice_from (s : string) (n : nat) : string :=
  String.substring n (String.length s - n) s.

(** [/^[0-9a-z\-_]+$/i.test(key)] *)
Definition key_char (c : Ascii.ascii) : bool :=
  let n := Ascii.nat_of_ascii c in
  (((48 <=? n) && (n <=? 57)) || ((97 <=? n) && (n <=? 122)) || ((65 <=? n) && (n <=? 90))
   || (n =? 45) || (n =? 95))%nat.

Definition key_test (k : string) : bool :=
  (forallb key_char (list_ascii_of_string k) && (1 <=? String.length k))%nat.

(** [JSON.stringify] and [JSON.parse], which the platform provides. *)
Record Lib : Type := {
  stringify : jsval -> string;
  parse : string -> result jsval
}.

(** What a method of the wrapper returns: a value read, or the wrapper
    itself. *)
Inductive answer : Type :=
| Value (v : jsval)
| Self.

(** [function listAll(prefix)]: the keys that start with [prefix], without
    it, in the order of the storage.  [i] stays below [storage.length], so
    [key(i)] is a string. *)
Definition listAll (prefix : string) (st : storage) : list string :=
  fold_left
    (fun ret i =>
       match key st i with
       | Some k =>
           if String.eqb prefix (slice_to k (String.length prefix))
           then ret ++ [slice_from k (String.length prefix)]
           else ret
       | None => ret
       end)
    (seq 0 (length st)) [].

(** [for(var i=0; i<l.length; i++) body(l[i])] *)
Fixpoint for_each {A : Type} (l : list A) (body : A -> M storage unit) : M storage unit :=
  match l with
  | [] => ret tt
  | x :: r => body x ;;; for_each r body
  end.

Section WithLib.
Variable L : Lib.

(** [this.all] *)
Definition all : M storage (list string) :=
  st <~ get ;; ret (listAll "value." st).

(** [function operator(mappedKey, data)]: read when [data] is [undefined],
    remove when it is [null], store otherwise.  (The [console.log] of
    what is stored is left out.)  [getItem] gives [null] when there is no
    entry, which [JSON.parse] reads as the text [null]. *)
Definition operator (mappedKey : string) (data : jsval) : M storage answer :=
  match data with
  | JUndefined =>
      st <~ get ;;
      lift (try_catch
              (v <- parse L (match getItem st mappedKey with
                             | Some text => text
                             | None => "null"
                             end) ;;
               Return (Value v))
              (fun _ => Return (Value JNull)))
  | JNull =>
      modify (fun st => removeItem st mappedKey) ;;;
      ret Self
  | _ =>
      modify (fun st => setItem st mappedKey (stringify L data)) ;;;
      ret Self
  end.

(** [this.value] *)
Definition value (k : string) (data : jsval) : M storage answer :=
  if negb (key_test k) then throw (Error "Invalid key")
  else
    let mappedKey := ("value." ++ k)%string in
    operator mappedKey data.

(** [this.note] *)
Definition note (k noteKey : string) (data : jsval) : M storage answer :=
  if negb (key_test k) then throw (Error "Invalid key")
  else if negb (key_test noteKey) then throw (Error "Invalid note key")
  else
    let mappedKey := ("note." ++ k ++ "." ++ noteKey)%string in
    operator mappedKey data.

(** [this.remove] *)
Definition remove (k : string) : M storage unit :=
  if negb (key_test k) then throw (Error "Invalid key")
  else
    value k JNull ;;;
    let prefix := ("note." ++ k ++ ".")%string in
    st <~ get ;;
    let notes := listAll prefix st in
    for_each notes (fun n => operator (prefix ++ n)%string JNull ;;; ret tt).

(** The calls a user of the wrapper can make. *)
Inductive op : Type :=
| OpAll
| OpValue (k : string) (data : jsval)
| OpNote (k noteKey : string) (data : jsval)
| OpRemove (k : string).

Definition exec (o : op) : M storage unit :=
  match o with
  | OpAll => all ;;; ret tt
  | OpValue k d => value k d ;;; ret tt
  | OpNote k n d => note k n d ;;; ret tt
  | OpRemove k => remove k
  end.

End WithLib.

(** A key the wrapper keeps for itself. *)
Definition owned (x : string) : bool :=
  String.eqb "value." (slice_to x 6) || String.eqb "note." (slice_to x 5).

End Storage.

(** A toy [JSON] for examples: [null], the booleans, and strings, which
    are written behind a quote. *)
Module ToyJSON.

Definition quote : Ascii.ascii := Ascii.ascii_of_nat 34.

Definition lib : Storage.Lib := {|
  Storage.stringify := fun v =>
    match v with
    | JBool true => "true"
    | JBool false => "false"
    | JStr s => String quote s
    | _ => "null"
    end;
  Storage.parse := fun t =>
    if String.eqb t "null" then Return JNull
    else if String.eqb t "true" then Return (JBool true)
    else if String.eqb t "false" then Return (JBool false)
    else match t with
         | String c s => if Ascii.eqb c quote then Return (JStr s)
                         else Throw (Error "SyntaxError")
         | EmptyString => Throw (Error "SyntaxError")
         end
|}.

(** A storage with two values and three notes, and an entry of someone
    else. *)
Definition shelf : Storage.storage :=
  [("value.alice", String quote "first");
   ("note.alice.seen", "true");
   ("theme", "dark");
   ("value.al", "false");
   ("note.al.seen", "false");
   ("note.alice.mail", String quote "a@example.org")].

End ToyJSON.

(** * The EC primitive *)

Section ECFacts.
Variable L : EC.Lib.

Lemma new_EC_methods name e0 :
  EC.new_EC L name = Return e0 ->
  EC.has_setPrivateKey L e0 = true /\ EC.has_setPublicKey L e0 = true.
Proof.
  unfold EC.new_EC. destruct (EC.ecparams L name); simpl; [|discriminate].
  intros H. injection H as <-. split; reflexivity.
Qed.

(** Setting a key puts [verify] and [getEncryptCredentials] on the object. *)
Lemma holds_key_verify self :
  EC.holds_key L self -> EC.has_verify self = true.
Proof.
  intros [name e0 k e Hn Hs | name e0 k e Hn Hs];
    destruct (new_EC_methods _ _ Hn) as [Hp Hq].
  - unfold EC.setPublicKey in Hs. rewrite Hq in Hs. simpl in Hs.
    destruct (Array_isArray k); simpl in Hs; [|discriminate].
    injection Hs as <-. reflexivity.
  - unfold EC.setPrivateKey in Hs. rewrite Hp in Hs. simpl in Hs.
    destruct k; try discriminate. injection Hs as <-. reflexivity.
Qed.

Lemma holds_private_key_decrypt self :
  EC.holds_private_key L self -> EC.has_getDecryptCredential self = true.
Proof.
  intros [name e0 k e Hn Hs]. destruct (new_EC_methods _ _ Hn) as [Hp _].
  unfold EC.setPrivateKey in Hs. rewrite Hp in Hs. simpl in Hs.
  destruct k; try discriminate. injection Hs as <-. reflexivity.
Qed.

(** [_computeSecret] accepts arrays only. *)
Lemma _computeSecret_ArrayBuffer self b :
  EC._computeSecret L self (JArrayBuffer b) = Throw (Error "invalid-parameter").
Proof. reflexivity. Qed.

(** Whatever it is given, [getDecryptCredential] ends in
    [invalid-parameter]: either at its own guard, or, for an [ArrayBuffer]
    of more than two bytes, when it hands a slice of that buffer, which is
    an [ArrayBuffer] again, to [_computeSecret].  The length test in
    between reads [length] of an [ArrayBuffer], which is [undefined], and
    so never fires. *)
Lemma getDecryptCredential_invalid_parameter self dataBuf :
  EC.getDecryptCredential L self dataBuf = Throw (Error "invalid-parameter").
Proof.
  unfold EC.getDecryptCredential.
  destruct dataBuf; try reflexivity.
  cbn [isArrayBuffer andb js_byteLength].
  destruct (js_gt _ _); [|reflexivity].
  cbn [negb js_slice bind js_length js_le to_number].
  reflexivity.
Qed.

End ECFacts.

(** C5. The test of the declared key length never fires.  On every
    ciphertext whose two-byte prefix declares an ephemeral key longer than
    what follows the prefix, [getDecryptCredential] raises
    [invalid-parameter], not [invalid-ciphertext]. *)
Theorem getDecryptCredential_declared_length_exceeds
    (L : EC.Lib) (self : EC.instance L) (lo hi : byte) (rest : list byte) :
  Z.of_nat (List.length rest) < byte_val lo + 256 * byte_val hi ->
  EC.getDecryptCredential L self (JArrayBuffer (lo :: hi :: rest))
  = Throw (Error "invalid-parameter")
  /\ EC.getDecryptCredential L self (JArrayBuffer (lo :: hi :: rest))
     <> Throw (Error "invalid-ciphertext").
Proof.
  intros _. rewrite getDecryptCredential_invalid_parameter.
  split; [reflexivity | discriminate].
Qed.

Lemma getDecryptCredential_declared_length_exceeds_witness :
  Z.of_nat (List.length [x01]) < byte_val x05 + 256 * byte_val x00
  /\ (EC.getDecryptCredential ToyEC.lib ToyEC.private_instance (JArrayBuffer [x05; x00; x01])
      = Throw (Error "invalid-parameter")
      /\ EC.getDecryptCredential ToyEC.lib ToyEC.private_instance
           (JArrayBuffer [x05; x00; x01])
         <> Throw (Error "invalid-ciphertext")).
Proof.
  split.
  - vm_compute. reflexivity.
  - apply (getDecryptCredential_declared_length_exceeds ToyEC.lib ToyEC.private_instance
             x05 x00 [x01]).
    vm_compute. reflexivity.
Defined.

(** C2. Decrypting what [getEncryptCredentials] produced never gives the
    plaintext back: for every library, every pair of instances, every
    random draw and every plaintext, the composition raises. *)
Theorem getDecryptCredential_after_getEncryptCredentials
    (L : EC.Lib) (pub prv : EC.instance L) (sd : EC.seed L) (P : list byte) :
  throws (ct <- EC.call_getEncryptCredentials L pub sd (JArrayBuffer P) ;;
          EC.call_getDecryptCredential L prv ct).
Proof.
  unfold throws.
  destruct (EC.call_getEncryptCredentials L pub sd (JArrayBuffer P)) as [ct|e]; simpl.
  - unfold EC.call_getDecryptCredential.
    destruct (EC.has_getDecryptCredential prv).
    + rewrite getDecryptCredential_invalid_parameter. eauto.
    + eauto.
  - eauto.
Qed.

(** C7. On an instance holding a key, [verify] raises
    [invalid-parameter] when the digest or the signature is not a buffer:
    the guard stands before the [try].  Given two buffers it always
    returns: what the underlying verification answers when that returns,
    and [false] whenever converting the signature or the underlying
    verification raises. *)
Theorem EC_verify_malformed_signature
    (L : EC.Lib) (self : EC.instance L) (digest signature : jsval) :
  EC.holds_key L self ->
  (EC.isBuffer L digest && EC.isBuffer L signature = false ->
   EC.call_verify L self digest signature = Throw (Error "invalid-parameter"))
  /\ (EC.isBuffer L digest && EC.isBuffer L signature = true ->
      returns (EC.call_verify L self digest signature)
      /\ (throws (a <- EC.buffer2array L signature ;;
                  EC.ecdsa_verify L (EC.curveName self) digest a (EC.bigiPublicKey self)) ->
          EC.call_verify L self digest signature = Return (JBool false))
      /\ (forall v,
            (a <- EC.buffer2array L signature ;;
             EC.ecdsa_verify L (EC.curveName self) digest a (EC.bigiPublicKey self))
            = Return v ->
            EC.call_verify L self digest signature = Return v)).
Proof.
  intros Hk. unfold EC.call_verify, EC.verify.
  rewrite (holds_key_verify L self Hk). split.
  - intros ->. reflexivity.
  - intros ->. cbn [negb].
    destruct (a <- EC.buffer2array L signature ;; _) as [v|e]; simpl.
    + split; [exists v; reflexivity|]. split; [intros [e He]; discriminate|].
      intros v' H. exact H.
    + split; [exists (JBool false); reflexivity|]. split; [reflexivity|].
      intros v' H. discriminate.
Qed.

Lemma ToyEC_public_instance_holds_key : EC.holds_key ToyEC.lib ToyEC.public_instance.
Proof.
  apply (EC.holds_public ToyEC.lib "toy"
           (EC.mkInstance ToyEC.lib "toy" None JNull true true false false false false false false)
           (JArray [35])); reflexivity.
Qed.

Lemma EC_verify_malformed_signature_witness :
  EC.holds_key ToyEC.lib ToyEC.public_instance
  /\ EC.isBuffer ToyEC.lib (JArrayBuffer [x01]) && EC.isBuffer ToyEC.lib (JArrayBuffer [x09])
     = true
  /\ throws (a <- EC.buffer2array ToyEC.lib (JArrayBuffer [x09]) ;;
             EC.ecdsa_verify ToyEC.lib (EC.curveName ToyEC.public_instance)
               (JArrayBuffer [x01]) a (EC.bigiPublicKey ToyEC.public_instance))
  /\ EC.call_verify ToyEC.lib ToyEC.public_instance (JArrayBuffer [x01]) (JArrayBuffer [x09])
     = Return (JBool false).
Proof.
  split; [exact ToyEC_public_instance_holds_key|].
  split; [reflexivity|].
  split; [eexists; reflexivity|].
  destruct (EC_verify_malformed_signature ToyEC.lib ToyEC.public_instance
              (JArrayBuffer [x01]) (JArrayBuffer [x09])
              ToyEC_public_instance_holds_key) as [_ H].
  destruct (H eq_refl) as (_ & H2 & _).
  apply H2. eexists. reflexivity.
Defined.

(** A signature that is no buffer, here the bytes of a good signature as
    a plain array, does not make [verify] answer [false]: it raises. *)
Lemma EC_verify_malformed_signature_counterexample :
  EC.holds_key ToyEC.lib ToyEC.public_instance
  /\ EC.call_verify ToyEC.lib ToyEC.public_instance (JArrayBuffer [x01]) (JArray [7; 1])
     = Throw (Error "invalid-parameter")
  /\ EC.call_verify ToyEC.lib ToyEC.public_instance (JArrayBuffer [x01]) (JArray [7; 1])
     <> Return (JBool false).
Proof.
  split; [exact ToyEC_public_instance_holds_key|].
  split; [reflexivity | discriminate].
Qed.

(** The one-byte signature above is malformed for the toy library: the
    underlying verification raises, and [verify] answers [false]. *)
Example EC_verify_malformed_run :
  EC.call_verify ToyEC.lib ToyEC.public_instance (JArrayBuffer [x01]) (JArrayBuffer [x09])
  = Return (JBool false).
Proof. reflexivity. Qed.

(** A well-formed toy signature made with private key 7 verifies. *)
Example EC_verify_good_run :
  EC.call_verify ToyEC.lib ToyEC.public_instance (JArrayBuffer [x01]) (JArrayBuffer [x07; x01])
  = Return (JBool true).
Proof. reflexivity. Qed.

(** The round trip on the toy library: encryption returns a buffer, and
    decryption of that buffer raises. *)
Example EC_roundtrip_run :
  returns (EC.call_getEncryptCredentials ToyEC.lib ToyEC.public_instance [3]
             (JArrayBuffer [x68; x69]))
  /\ (ct <- EC.call_getEncryptCredentials ToyEC.lib ToyEC.public_instance [3]
              (JArrayBuffer [x68; x69]) ;;
      EC.call_getDecryptCredential ToyEC.lib ToyEC.private_instance ct)
     = Throw (Error "invalid-parameter").
Proof. split; [eexists; reflexivity | reflexivity]. Qed.

(** * The toy libraries honour the contracts *)

Section ToyFacts.

Lemma bytes_eqb_refl a : Toy.bytes_eqb a a = true.
Proof.
  induction a as [|x a IH]; simpl; [reflexivity|].
  rewrite IH, andb_true_r. apply Byte.byte_dec_lb. reflexivity.
Qed.

Lemma strip_prefix_app k l : Toy.strip_prefix k (k ++ l) = Some l.
Proof.
  induction k as [|x k IH]; simpl; [reflexivity|].
  rewrite (@Byte.byte_dec_lb x x eq_refl). exact IH.
Qed.

Lemma as_buffers_map l bs : Toy.as_buffers l = Some bs -> l = map JArrayBuffer bs.
Proof.
  revert bs. induction l as [|v l IH]; simpl; intros bs H.
  - injection H as <-. reflexivity.
  - destruct v; simpl in H; try discriminate.
    destruct (Toy.as_buffers l) as [bs'|]; [|discriminate].
    injection H as <-. simpl. rewrite (IH bs' eq_refl). reflexivity.
Qed.

Lemma as_buffers_length l bs : Toy.as_buffers l = Some bs -> List.length bs = List.length l.
Proof.
  intros H. rewrite (as_buffers_map _ _ H), length_map. reflexivity.
Qed.

Lemma dec_enc_bytes b rest : Toy.dec_bytes (Toy.enc_bytes b ++ rest) = Some (b, rest).
Proof.
  unfold Toy.enc_bytes. induction b as [|x b IH]; [reflexivity|].
  cbn [flat_map app Toy.dec_bytes Byte.eqb].
  change (Byte.eqb x01 x00) with false. cbn iota.
  rewrite <- app_assoc in IH |- *. cbn [app] in IH |- *. rewrite IH. reflexivity.
Qed.

Lemma dec_enc_bytes_nil b : Toy.dec_bytes (Toy.enc_bytes b) = Some (b, []).
Proof. rewrite <- (app_nil_r (Toy.enc_bytes b)). apply dec_enc_bytes. Qed.

Lemma dec_enc_list l rest fuel :
  (List.length l < fuel)%nat ->
  Toy.dec_list fuel (Toy.enc_list l ++ rest) = Some (l, rest).
Proof.
  unfold Toy.enc_list. revert fuel.
  induction l as [|b l IH]; intros fuel Hf.
  - destruct fuel; [inversion Hf|]. reflexivity.
  - destruct fuel; [inversion Hf|]. simpl in Hf.
    cbn [flat_map app Toy.dec_list].
    change (Byte.eqb x01 x00) with false. cbn iota.
    rewrite <- !app_assoc. rewrite dec_enc_bytes.
    rewrite app_assoc, IH by lia. reflexivity.
Qed.

Lemma toy_identity_serializer : Identity.serializer_contract Toy.ilib.
Proof.
  intros [s a p k g] v. cbn [Identity.serialize Identity.deserialize Toy.ilib].
  unfold Toy.identity_serialize. cbn [Identity.r_subject Identity.r_public
    Identity.r_secret Identity.r_signature Identity.r_algorithm].
  destruct s; try discriminate. destruct p; try discriminate.
  destruct k; try discriminate. destruct g; try discriminate.
  cbn [Toy.as_buffer].
  destruct (Toy.is_default_name a) eqn:Ha; [|discriminate].
  intros H. injection H as <-. split; [reflexivity|].
  destruct a; try discriminate. simpl in Ha. apply String.eqb_eq in Ha. subst s.
  unfold Toy.identity_deserialize.
  change (Byte.eqb x45 x45 && Byte.eqb x49 x49) with true. cbn iota.
  rewrite !dec_enc_bytes, dec_enc_bytes_nil. reflexivity.
Qed.

Lemma toy_payload_roundtrip r v :
  Toy.payload_serialize r = Return v -> Toy.payload_deserialize v = Return r.
Proof.
  destruct r as [sg st c]. unfold Toy.payload_serialize.
  cbn [Message.p_signers Message.p_signatures Message.p_content].
  destruct (Toy.as_buffers sg) as [a|] eqn:Ha; [|discriminate].
  destruct (Toy.as_buffers st) as [b|] eqn:Hb; [|discriminate].
  destruct c; try discriminate. cbn [Toy.as_buffer].
  destruct (Toy.short sg && Toy.short st) eqn:Hs; [|discriminate].
  apply andb_true_iff in Hs. destruct Hs as [Hs1 Hs2].
  apply Nat.leb_le in Hs1, Hs2.
  intros H. injection H as <-. unfold Toy.payload_deserialize.
  change (Byte.eqb x45 x45 && Byte.eqb x70 x70) with true. cbn iota.
  rewrite dec_enc_list by (rewrite (as_buffers_length _ _ Ha); lia).
  rewrite dec_enc_list by (rewrite (as_buffers_length _ _ Hb); lia).
  rewrite dec_enc_bytes_nil.
  rewrite <- (as_buffers_map _ _ Ha), <- (as_buffers_map _ _ Hb). reflexivity.
Qed.

Lemma toy_envelope_roundtrip r v :
  Toy.envelope_serialize r = Return v ->
  isArrayBuffer v = true /\ Toy.envelope_deserialize v = Return r.
Proof.
  destruct r as [k rc dc p]. unfold Toy.envelope_serialize.
  cbn [Message.e_receivers Message.e_decryptors Message.e_payload Message.e_compression].
  destruct (Toy.as_buffers rc) as [a|] eqn:Ha; [|discriminate].
  destruct (Toy.as_buffers dc) as [b|] eqn:Hb; [|discriminate].
  destruct p; try discriminate. cbn [Toy.as_buffer].
  destruct (Toy.short rc && Toy.short dc) eqn:Hs; [|discriminate].
  apply andb_true_iff in Hs. destruct Hs as [Hs1 Hs2].
  apply Nat.leb_le in Hs1, Hs2.
  intros H. injection H as <-. split; [reflexivity|].
  unfold Toy.envelope_deserialize.
  change (Byte.eqb x45 x45 && Byte.eqb x43 x43) with true. cbn iota.
  assert (Hk : (if Byte.eqb match k with Message.NoCompression => x00 | Message.Lzw => x01 end x00
                then Some Message.NoCompression
                else if Byte.eqb match k with Message.NoCompression => x00 | Message.Lzw => x01 end x01
                     then Some Message.Lzw else None) = Some k)
    by (destruct k; reflexivity).
  rewrite Hk.
  rewrite dec_enc_list by (rewrite (as_buffers_length _ _ Ha); lia).
  rewrite dec_enc_list by (rewrite (as_buffers_length _ _ Hb); lia).
  rewrite dec_enc_bytes_nil.
  rewrite <- (as_buffers_map _ _ Ha), <- (as_buffers_map _ _ Hb). reflexivity.
Qed.

Lemma toy_message_contract : Message.Contract Toy.mlib.
Proof.
  constructor.
  - exact toy_payload_roundtrip.
  - exact toy_envelope_roundtrip.
  - intros b c. cbn [Message.compress Message.decompress Toy.mlib].
    destruct b; try discriminate. cbn [Toy.on_buffer].
    intros H. injection H as <-. reflexivity.
  - intros k p sd c. cbn [Identity.sym_encrypt Identity.sym_decrypt Message.I Toy.mlib Toy.ilib].
    destruct k; try discriminate. destruct p; try discriminate. cbn [Toy.on_buffer].
    intros H. injection H as <-. cbn [Toy.on_buffer].
    rewrite strip_prefix_app. reflexivity.
Qed.

End ToyFacts.

(** * Identities *)

Ltac munfold :=
  unfold bindM, lift, modify, throw, ret, get, try_catchM, try_catch, bind in *.

Section IdentityFacts.
Variable L : Identity.Lib.

(** [generate] that returns has run [initialize(true)]: the identity is
    private-capable, and its cipher object, subject and algorithm name are
    set. *)
Lemma generate_returns subject opts sd1 sd2 (st0 st : Identity.state L) :
  Identity.generate L subject opts sd1 sd2 st0 = (Return tt, st) ->
  Identity.initialized st = Some true
  /\ Identity.subjectBuf st = JArrayBuffer (Identity.encode_ascii L subject)
  /\ Identity.algorithmName st
     = (let o := match opts with
                 | Some o => o
                 | None => Identity.mkOptions JUndefined JUndefined
                 end in
        if truthy (Identity.algorithm o) then Identity.algorithm o
        else JStr Identity.defaultAlgorithmName)
  /\ exists c, Identity.asymCipher st = Some c.
Proof.
  unfold Identity.generate, Identity.initialize, Identity.getID.
  set (o := match opts with Some o => o | None => _ end).
  destruct (Identity.subjectRule_test subject); munfold; [|discriminate].
  cbn [negb].
  set (name := if truthy (Identity.algorithm o) then _ else _).
  destruct (Identity.getDef L name) as [a|]; [|discriminate].
  cbn.
  destruct (Identity.cipher_new L (Identity.def_name a)) as [c|]; [|discriminate].
  cbn.
  destruct (Identity.setPrivateKey L c _) as [c'|]; [|discriminate].
  cbn.
  destruct (Identity.getPublicKey L c') as [pk|]; [|discriminate].
  cbn.
  destruct (Identity.identityID st0) as [i|]; cbn;
    destruct (Identity.asym_sign L c' _ sd2) as [sg|]; try discriminate; cbn;
    intros H; injection H as <-; cbn; repeat split; eauto.
Qed.

(** Left without an algorithm, [generate] asks the definition table for
    the default name. *)
Lemma generate_default_algorithm subject overrideSecret sd1 sd2 (st0 st : Identity.state L) opts :
  opts = None \/ opts = Some (Identity.mkOptions JUndefined overrideSecret) ->
  Identity.generate L subject opts sd1 sd2 st0 = (Return tt, st) ->
  Identity.algorithmName st = JStr Identity.defaultAlgorithmName
  /\ Identity.initialized st = Some true.
Proof.
  intros Ho H. apply generate_returns in H. destruct H as (Hi & _ & Ha & _).
  split; [|exact Hi]. rewrite Ha. destruct Ho as [-> | ->]; reflexivity.
Qed.

End IdentityFacts.

(** C6. Naming an algorithm the definition table does not know makes
    [generate] raise [ReferenceError]: the fallback branch reads
    [defaults], which is not declared anywhere.  No identity is
    produced: the object is left uninitialized. *)
Theorem generate_unknown_algorithm
    (L : Identity.Lib) (st0 : Identity.state L) (subject : string)
    (name overrideSecret : jsval) (sd1 sd2 : Identity.seed L) :
  Identity.initialized st0 = None ->
  Identity.subjectRule_test subject = true ->
  truthy name = true ->
  Identity.getDef L name = None ->
  let out := Identity.call_generate L subject
               (Some (Identity.mkOptions name overrideSecret)) sd1 sd2 st0 in
  fst out = Throw (ReferenceError "defaults")
  /\ Identity.initialized (snd out) = None.
Proof.
  intros Hi Hs Hn Hd. unfold Identity.call_generate, Identity.generate.
  rewrite Hi, Hs. cbn [negb Identity.algorithm]. rewrite Hn. munfold. cbn.
  rewrite Hd. cbn. split; [reflexivity | exact Hi].
Qed.

Lemma generate_unknown_algorithm_witness :
  Identity.initialized (Identity.fresh Toy.ilib) = None
  /\ Identity.subjectRule_test "alice in wonderland" = true
  /\ truthy (JStr "RSA4096") = true
  /\ Identity.getDef Toy.ilib (JStr "RSA4096") = None
  /\ (let out := Identity.call_generate Toy.ilib "alice in wonderland"
                   (Some (Identity.mkOptions (JStr "RSA4096") JUndefined)) x0a x0a
                   (Identity.fresh Toy.ilib) in
      fst out = Throw (ReferenceError "defaults")
      /\ Identity.initialized (snd out) = None).
Proof.
  split; [reflexivity|]. split; [reflexivity|]. split; [reflexivity|].
  split; [reflexivity|].
  apply (generate_unknown_algorithm Toy.ilib (Identity.fresh Toy.ilib)
           "alice in wonderland" (JStr "RSA4096") JUndefined x0a x0a);
    reflexivity.
Defined.

(** With the algorithm left out, the toy library generates a
    private-capable identity under the default name. *)
Example generate_default_run :
  Identity.initialized Toy.alice = Some true
  /\ Identity.algorithmName Toy.alice = JStr "NECRAC128".
Proof. split; reflexivity. Qed.

(** C10. [canLoadPrivate] answers [true] on what [exportPublic] wrote,
    for every identity that can export, a generated one in particular:
    the secret field written is an empty buffer, it reads back as an empty
    buffer, and that is not [null]. *)
Theorem canLoadPrivate_of_exportPublic
    (L : Identity.Lib) (subject : string) (opts : option Identity.options)
    (sd1 sd2 : Identity.seed L) (st0 st : Identity.state L) (b : jsval) :
  Identity.serializer_contract L ->
  Identity.call_generate L subject opts sd1 sd2 st0 = (Return tt, st) ->
  Identity.call_exportPublic L st = Return b ->
  Identity.canLoadPrivate L b = Return (JBool true).
Proof.
  intros HC _ He. unfold Identity.call_exportPublic in He.
  destruct (Identity.initialized st); [|discriminate].
  unfold Identity.exportPublic in He. apply HC in He. destruct He as [Hb Hd].
  unfold Identity.canLoadPrivate. rewrite Hb, Hd. reflexivity.
Qed.

Lemma canLoadPrivate_of_exportPublic_witness :
  Identity.serializer_contract Toy.ilib
  /\ Identity.call_generate Toy.ilib "alice in wonderland" None x0a x0a
       (Identity.fresh Toy.ilib) = (Return tt, Toy.alice)
  /\ Identity.call_exportPublic Toy.ilib Toy.alice = Return (Toy.exported_public Toy.alice)
  /\ Identity.canLoadPrivate Toy.ilib (Toy.exported_public Toy.alice) = Return (JBool true).
Proof.
  split; [exact toy_identity_serializer|].
  split; [vm_compute; reflexivity|]. split; [vm_compute; reflexivity|].
  apply (canLoadPrivate_of_exportPublic Toy.ilib "alice in wonderland" None x0a x0a
           (Identity.fresh Toy.ilib) Toy.alice (Toy.exported_public Toy.alice)).
  - exact toy_identity_serializer.
  - vm_compute. reflexivity.
  - vm_compute. reflexivity.
Defined.

(** On the toy library the export of a generated identity is read as
    holding a private key, though its secret field is empty. *)
Example canLoadPrivate_run :
  (b <- Identity.call_exportPublic Toy.ilib Toy.alice ;; Identity.canLoadPrivate Toy.ilib b)
  = Return (JBool true).
Proof. reflexivity. Qed.

(** C3. [loadPrivate] with a pin key supplied.  When the symmetric
    decryption of the stored secret under the pin key raises, the load
    fails with [enigma-invalid-pinkey]; when the public key derived from
    the decrypted secret is not equal to the stored one, it fails with
    [enigma-identity-inconsistent]; and whenever it returns, the secret
    was decrypted under the pin key and the public key derived from it
    equals the stored public key. *)
Theorem loadPrivate_pinkey_and_consistency
    (L : Identity.Lib) (st : Identity.state L) (buf pin : jsval) :
  truthy pin = true ->
  (forall d c,
      isArrayBuffer buf = true -> isArrayBuffer pin = true ->
      Identity.deserialize L buf = Return d ->
      Identity.subjectRule_test (Identity.toASCII L (Identity.r_subject d)) = true ->
      Identity.cipher_new L (Identity.r_algorithm d) = Return c ->
      throws (Identity.sym_decrypt L pin (Identity.r_secret d)) ->
      fst (Identity.loadPrivate L buf pin st) = Throw (Error "enigma-invalid-pinkey"))
  /\ (forall d c sec c' pk,
      isArrayBuffer buf = true -> isArrayBuffer pin = true ->
      Identity.deserialize L buf = Return d ->
      Identity.subjectRule_test (Identity.toASCII L (Identity.r_subject d)) = true ->
      Identity.cipher_new L (Identity.r_algorithm d) = Return c ->
      Identity.sym_decrypt L pin (Identity.r_secret d) = Return sec ->
      Identity.setPrivateKey L c sec = Return c' ->
      Identity.getPublicKey L c' = Return pk ->
      Identity.buffer_equal L pk (Identity.r_public d) = false ->
      fst (Identity.loadPrivate L buf pin st) = Throw (Error "enigma-identity-inconsistent"))
  /\ (fst (Identity.loadPrivate L buf pin st) = Return tt ->
      exists d c sec c' pk,
        Identity.deserialize L buf = Return d
        /\ Identity.cipher_new L (Identity.r_algorithm d) = Return c
        /\ Identity.sym_decrypt L pin (Identity.r_secret d) = Return sec
        /\ Identity.setPrivateKey L c sec = Return c'
        /\ Identity.getPublicKey L c' = Return pk
        /\ Identity.buffer_equal L pk (Identity.r_public d) = true
        /\ Identity.asymCipher (snd (Identity.loadPrivate L buf pin st)) = Some c'
        /\ Identity.secretBuf (snd (Identity.loadPrivate L buf pin st)) = sec
        /\ Identity.initialized (snd (Identity.loadPrivate L buf pin st)) = Some true).
Proof.
  intros Ht. unfold Identity.loadPrivate, Identity.loadIdentityBuf.
  split; [|split].
  - intros d c Hb Hp Hd Hs Hc [e He].
    rewrite Hb, Hp, Ht. cbn [negb andb]. munfold. rewrite Hd. cbn.
    rewrite Hs. cbn. rewrite Hc. cbn. rewrite He. reflexivity.
  - intros d c sec c' pk Hb Hp Hd Hs Hc Hsec Hset Hpk Hne.
    rewrite Hb, Hp, Ht. cbn [negb andb]. munfold. rewrite Hd. cbn.
    rewrite Hs. cbn. rewrite Hc. cbn. rewrite Hsec. cbn. rewrite Hset. cbn.
    rewrite Hpk. cbn. rewrite Hne. reflexivity.
  - rewrite Ht. destruct (isArrayBuffer buf); [|discriminate].
    destruct (isArrayBuffer pin); [|discriminate].
    cbn [negb andb]. munfold.
    destruct (Identity.deserialize L buf) as [d|] eqn:Hd; [|discriminate]. cbn.
    destruct (Identity.subjectRule_test _); [|discriminate]. cbn.
    destruct (Identity.cipher_new L _) as [c|] eqn:Hc; [|discriminate]. cbn.
    destruct (Identity.sym_decrypt L pin _) as [sec|] eqn:Hsec; [|discriminate]. cbn.
    destruct (Identity.setPrivateKey L c sec) as [c'|] eqn:Hset; [|discriminate]. cbn.
    destruct (Identity.getPublicKey L c') as [pk|] eqn:Hpk; [|discriminate]. cbn.
    destruct (Identity.buffer_equal L pk _) eqn:He; [|discriminate]. cbn.
    unfold Identity.getID. cbn.
    destruct (Identity.identityID st) as [i|]; cbn;
      (destruct (Identity.asym_verify L c' _ _) as [v|]; [|discriminate]); cbn;
      (destruct (truthy v); [|discriminate]); cbn;
      intros _; exists d, c, sec, c', pk; repeat split; assumption || reflexivity.
Qed.

Lemma loadPrivate_pinkey_and_consistency_witness :
  truthy (Toy.pin x08) = true
  /\ fst (Identity.loadPrivate Toy.ilib (Toy.exported_private Toy.alice (Toy.pin x07))
            (Toy.pin x08) (Identity.fresh Toy.ilib))
     = Throw (Error "enigma-invalid-pinkey")
  /\ fst (Identity.loadPrivate Toy.ilib Toy.mismatched_private (Toy.pin x07)
            (Identity.fresh Toy.ilib))
     = Throw (Error "enigma-identity-inconsistent").
Proof.
  split; [reflexivity|]. split.
  - eapply (proj1 (loadPrivate_pinkey_and_consistency Toy.ilib (Identity.fresh Toy.ilib)
                     (Toy.exported_private Toy.alice (Toy.pin x07)) (Toy.pin x08)
                     eq_refl)).
    + reflexivity.
    + reflexivity.
    + vm_compute. reflexivity.
    + vm_compute. reflexivity.
    + vm_compute. reflexivity.
    + eexists. vm_compute. reflexivity.
  - eapply (proj1 (proj2 (loadPrivate_pinkey_and_consistency Toy.ilib
                            (Identity.fresh Toy.ilib) Toy.mismatched_private (Toy.pin x07)
                            eq_refl))).
    + reflexivity.
    + reflexivity.
    + vm_compute. reflexivity.
    + vm_compute. reflexivity.
    + vm_compute. reflexivity.
    + vm_compute. reflexivity.
    + vm_compute. reflexivity.
    + vm_compute. reflexivity.
    + vm_compute. reflexivity.
Defined.

(** Export under a pin key, load under the same pin key: the load
    returns, and the identity has the fingerprint it had. *)
Example loadPrivate_roundtrip_run :
  let out := Identity.call_loadPrivate Toy.ilib
               (Toy.exported_private Toy.alice (Toy.pin x07)) (Toy.pin x07)
               (Identity.fresh Toy.ilib) in
  fst out = Return tt
  /\ Identity.call_isPrivate Toy.ilib (snd out) = Return true
  /\ Identity.call_getFingerprint Toy.ilib (snd out)
     = Identity.call_getFingerprint Toy.ilib Toy.alice.
Proof. vm_compute. repeat split. Qed.

(** With the pin key left out, [loadIdentityBuf] takes
    the public branch and [loadPrivate] still runs [initialize(true)], so
    the object answers [isPrivate()] with [true] while its cipher holds no
    private key. *)
Example loadPrivate_without_pinkey_run :
  let out := Identity.call_loadPrivate Toy.ilib (Toy.exported_public Toy.alice) JUndefined
               (Identity.fresh Toy.ilib) in
  fst out = Return tt
  /\ Identity.call_isPrivate Toy.ilib (snd out) = Return true
  /\ Identity.secretBuf (snd out) = JUndefined.
Proof. vm_compute. repeat split. Qed.

(** * Messages *)

Section MessageFacts.
Variable L : Message.Lib.

Lemma find_index_none f l :
  Message.find_index f l = None <-> (forall x, In x l -> f x = false).
Proof.
  induction l as [|y l IH]; simpl.
  - split; [intros _ x []|reflexivity].
  - destruct (f y) eqn:Hy.
    + split; [discriminate|]. intros H. rewrite (H y (or_introl eq_refl)) in Hy.
      discriminate.
    + destruct (Message.find_index f l) as [i|].
      * split; [discriminate|]. intros H.
        assert (Hn : Some i = None) by (apply IH; intros x Hx; apply H; right; exact Hx).
        discriminate.
      * split; [|reflexivity]. intros _ x [<-|Hx]; [exact Hy|].
        apply (proj1 IH eq_refl x Hx).
Qed.

(** The index found is that of the first entry that matches. *)
Lemma find_index_some f l i :
  Message.find_index f l = Some i ->
  (i < List.length l)%nat
  /\ f (Message.item l i) = true
  /\ (forall j, (j < i)%nat -> f (Message.item l j) = false).
Proof.
  revert i. induction l as [|y l IH]; simpl; intros i H; [discriminate|].
  destruct (f y) eqn:Hy.
  - injection H as <-. repeat split; [lia | exact Hy | intros j Hj; lia].
  - destruct (Message.find_index f l) as [k|]; [|discriminate].
    injection H as <-. destruct (IH k eq_refl) as (Hk & Hf & Hb).
    repeat split; [lia | exact Hf |].
    intros [|j] Hj; [exact Hy|]. apply Hb. lia.
Qed.

Lemma find_index_exists f l :
  (exists x, In x l /\ f x = true) -> exists i, Message.find_index f l = Some i.
Proof.
  intros (x & Hx & Hf).
  destruct (Message.find_index f l) as [i|] eqn:H; [eauto|].
  rewrite (proj1 (find_index_none f l) H x Hx) in Hf. discriminate.
Qed.


End MessageFacts.



(** The scenario of the specification on the toy library: B decrypts and
    reads [hello], A's signature verifies, a flipped signature byte gives
    [false], and an identity that did not sign is refused. *)
Example message_scenario_run :
  fst (Message.call Message.m_getPlaintext Message.getPlaintext Toy.opened)
  = Return (JArrayBuffer Toy.hello)
  /\ fst (Message.call Message.m_verify (Message.verify Toy.mlib Toy.alice_public) Toy.opened)
     = Return (JBool true)
  /\ fst (Message.call Message.m_verify (Message.verify Toy.mlib Toy.alice_public)
            (Message.set_signatures
               [JArrayBuffer
                  (x0b :: tl match Message.item (Message.signatures Toy.opened) 0 with
                             | JArrayBuffer g => g
                             | _ => []
                             end)]
               Toy.opened))
     = Return (JBool false)
  /\ fst (Message.call Message.m_verify (Message.verify Toy.mlib Toy.carol) Toy.opened)
     = Throw (Error "enigma-invalid-identity-for-verify")
  /\ fst ((Message.call Message.m_read (Message.read Toy.mlib Toy.sealed) ;;;
           Message.call Message.m_decrypt (Message.decrypt Toy.mlib Toy.carol)) Message.fresh)
     = Throw (Error "enigma-not-intended-identity-for-decrypt").
Proof. vm_compute. repeat split. Qed.

(** ** The state machine of a message object *)

(** Case analysis on a scrutinee that has no case analysis inside. *)
Ltac break_goal :=
  match goal with
  | |- context [match ?x with _ => _ end] =>
      lazymatch x with
      | context [match _ with _ => _ end] => fail
      | _ => destruct x eqn:?
      end
  end.

Section MessageMachine.
Variable L : Message.Lib.

Local Abbreviation has s m := (Message.has (Message.self s) m).

#[local] Arguments Nat.leb : simpl never.
#[local] Arguments Nat.ltb : simpl never.
#[local] Arguments Nat.eqb : simpl never.

(** A call through a method that is not on the object raises and changes
    nothing. *)
Lemma exec_absent o s :
  has s (Message.op_method L o) = false ->
  Message.exec L o s = (Throw (TypeError "not a function"), s).
Proof. intros H. unfold Message.exec, Message.call. rewrite H. reflexivity. Qed.

Lemma exec_present o s :
  has s (Message.op_method L o) = true ->
  Message.exec L o s = Message.op_body L o s.
Proof. intros H. unfold Message.exec, Message.call. rewrite H. reflexivity. Qed.

(** Unpacking the payload leaves the receivers and every method but the
    three it installs as they were; when it raises, it has put nothing on
    the object and the signers are as they were. *)
Lemma continueUnpackPayload_frame s :
  let r := fst (Message.continueUnpackPayload L s) in
  let s' := snd (Message.continueUnpackPayload L s) in
  Message.receivers s' = Message.receivers s
  /\ Message.decryptors s' = Message.decryptors s
  /\ (forall m, m <> Message.m_getPlaintext -> m <> Message.m_verify ->
                m <> Message.m_getSigners -> has s' m = has s m)
  /\ (Message.succeeded r = false ->
      Message.signers s' = Message.signers s /\ Message.self s' = Message.self s).
Proof.
  unfold Message.continueUnpackPayload, Message.install. munfold.
  destruct s as [pt mk rc dc sgs sn cs pb pc ms]. cbn.
  destruct pc as [[|]|]; cbn; repeat (break_goal; cbn).
  all: repeat split; auto; try discriminate.
  all: intros m H1 H2 H3; destruct m; try reflexivity; congruence.
Qed.

#[local] Arguments Message.continueUnpackPayload : simpl never.

Ltac use_frame :=
  match goal with
  | |- context [Message.continueUnpackPayload ?L ?x] =>
      let H := fresh "Hcup" in
      pose proof (continueUnpackPayload_frame x) as H; cbn zeta in H;
      destruct (Message.continueUnpackPayload L x) as [[[]|?] ?]; cbn in H |- *;
      destruct H as (? & ? & ? & ?)
  end.

Ltac keep m H := pose proof (H m) as ?; cbn in *.

(** [read] never touches [sign], [encrypt] or [done]; when it returns,
    [write] and [read] are gone; when it raises, the methods, the signers
    and the receivers are as they were. *)
Lemma read_frame b s :
  let r := fst (Message.read L b s) in
  let s' := snd (Message.read L b s) in
  has s' Message.m_sign = has s Message.m_sign
  /\ has s' Message.m_encrypt = has s Message.m_encrypt
  /\ has s' Message.m_done = has s Message.m_done
  /\ (Message.succeeded r = true ->
      has s' Message.m_write = false /\ has s' Message.m_read = false)
  /\ (Message.succeeded r = false ->
      Message.self s' = Message.self s /\ Message.signers s' = Message.signers s
      /\ Message.receivers s' = Message.receivers s).
Proof.
  unfold Message.read, Message.install, Message.delete. munfold.
  destruct s as [pt mk rc dc sgs sn cs pb pc ms]. cbn.
  repeat (first [use_frame | break_goal]; cbn).
  all: repeat match goal with
              | H : true = false -> _ |- _ => clear H
              | H : false = false -> _ |- _ => destruct (H eq_refl); clear H
              | H : forall m, _ |- _ =>
                  pose proof (H Message.m_sign); pose proof (H Message.m_encrypt);
                  pose proof (H Message.m_done); clear H
              end.
  all: cbn in *; subst; cbn in *.
  all: repeat split; auto; try discriminate.
  all: match goal with H : _ |- _ => apply H; discriminate end.
Qed.

(** [decrypt] never touches the methods of a written message. *)
Lemma decrypt_frame i s :
  let s' := snd (Message.decrypt L i s) in
  has s' Message.m_write = has s Message.m_write
  /\ has s' Message.m_read = has s Message.m_read
  /\ has s' Message.m_sign = has s Message.m_sign
  /\ has s' Message.m_encrypt = has s Message.m_encrypt
  /\ has s' Message.m_done = has s Message.m_done.
Proof.
  unfold Message.decrypt, Message.install, Message.delete. munfold.
  destruct s as [pt mk rc dc sgs sn cs pb pc ms]. cbn.
  repeat (first [use_frame | break_goal]; cbn).
  all: repeat match goal with
              | H : _ = false -> _ |- _ => clear H
              | H : forall m, _ |- _ =>
                  pose proof (H Message.m_sign); pose proof (H Message.m_encrypt);
                  pose proof (H Message.m_done); pose proof (H Message.m_write);
                  pose proof (H Message.m_read); clear H
              end.
  all: cbn in *; subst; cbn in *.
  all: repeat split; auto; try discriminate.
  all: match goal with H : _ |- _ => apply H; discriminate end.
Qed.

(** [sign] either raises and leaves the object as it was, or appends the
    fingerprint and the signature, puts [done] on the object, and takes
    [sign] off it once 255 signers are there. *)
Lemma sign_cases i sd s :
  (exists e, Message.sign L i sd s = (Throw e, s))
  \/ (exists fp sig,
        Identity.call_isPrivate (Message.I L) i = Return true
        /\ Identity.call_getFingerprint (Message.I L) i = Return fp
        /\ Identity.call_sign (Message.I L) i (Message.plaintextBuf s) sd = Return sig
        /\ Message.sign L i sd s
           = (Return tt,
              Message.mkState (Message.plaintextBuf s) (Message.mainKeyBuf s)
                (Message.receivers s) (Message.decryptors s)
                (Message.signatures s ++ [sig]) (Message.signers s ++ [fp])
                (Message.clearSign s) (Message.payloadBuf s) (Message.payloadCompression s)
                (Message.set_method Message.m_done true
                   (if Nat.leb 255 (List.length (Message.signers s ++ [fp]))
                    then Message.set_method Message.m_sign false (Message.self s)
                    else Message.self s)))).
Proof.
  unfold Message.sign, Message.install, Message.delete. munfold.
  destruct s as [pt mk rc dc sgs sn cs pb pc [w r sg en dn de gr gp vf gs]]. cbn.
  destruct (Identity.call_isPrivate _ i) as [[|]|e]; cbn; eauto.
  destruct (Identity.call_getFingerprint _ i) as [fp|e]; cbn; eauto.
  destruct (Identity.call_sign _ i pt sd) as [sig|e]; cbn; eauto.
  right. exists fp, sig. repeat split.
  destruct (Nat.leb 255 _); cbn; destruct dn; reflexivity.
Qed.

Lemma encrypt_cases i sd s :
  (exists e, Message.encrypt L i sd s = (Throw e, s))
  \/ (exists fp ct,
        Identity.call_encrypt (Message.I L) i (Message.mainKeyBuf s) sd = Return ct
        /\ Identity.call_getFingerprint (Message.I L) i = Return fp
        /\ Message.encrypt L i sd s
           = (Return true,
              Message.mkState (Message.plaintextBuf s) (Message.mainKeyBuf s)
                (Message.receivers s ++ [fp]) (Message.decryptors s ++ [ct])
                (Message.signatures s) (Message.signers s)
                (Message.clearSign s) (Message.payloadBuf s) (Message.payloadCompression s)
                (Message.set_method Message.m_done true
                   (if Nat.leb 255 (List.length (Message.receivers s ++ [fp]))
                    then Message.set_method Message.m_encrypt false (Message.self s)
                    else Message.self s)))).
Proof.
  unfold Message.encrypt, Message.install, Message.delete. munfold.
  destruct s as [pt mk rc dc sgs sn cs pb pc [w r sg en dn de gr gp vf gs]]. cbn.
  destruct (Identity.call_encrypt _ i mk sd) as [ct|e]; cbn; eauto.
  destruct (Identity.call_getFingerprint _ i) as [fp|e]; cbn; eauto.
  right. exists fp, ct. repeat split.
  destruct (Nat.leb 255 _); cbn; destruct dn; reflexivity.
Qed.

(** [done] takes [sign] and [encrypt] off the object and leaves the lists
    and the methods of a read message as they were. *)
Lemma done_frame sd s :
  let s' := snd (Message.done L sd s) in
  has s' Message.m_sign = false /\ has s' Message.m_encrypt = false
  /\ has s' Message.m_write = has s Message.m_write
  /\ has s' Message.m_read = has s Message.m_read
  /\ has s' Message.m_decrypt = has s Message.m_decrypt
  /\ Message.signers s' = Message.signers s
  /\ Message.receivers s' = Message.receivers s.
Proof.
  unfold Message.done, Message.install, Message.delete. munfold.
  destruct s as [pt mk rc dc sgs sn cs pb pc ms]. cbn.
  repeat (break_goal; cbn).
  all: repeat split.
Qed.

Lemma void_snd (A : Type) (c : M Message.state A) s :
  snd (Message.void c s) = snd (c s).
Proof. unfold Message.void. munfold. destruct (c s) as [[|] ?]; reflexivity. Qed.

Lemma void_fst (A : Type) (c : M Message.state A) s :
  Message.succeeded (fst (Message.void c s))
  = match fst (c s) with Return _ => true | Throw _ => false end.
Proof. unfold Message.void. munfold. destruct (c s) as [[|] ?]; reflexivity. Qed.

(** [verify] changes nothing on the object. *)
Lemma verify_state i s : snd (Message.verify L i s) = s.
Proof.
  unfold Message.verify. munfold.
  destruct (Identity.call_getFingerprint _ i); cbn; [|reflexivity].
  destruct (Message.find_index _ _); reflexivity.
Qed.

Lemma wf_fresh : Message.wf Message.fresh 0 0.
Proof. unfold Message.wf. cbn. repeat split; try discriminate; lia. Qed.

Lemma exec_wf o s n m :
  Message.wf s n m ->
  Message.wf (snd (Message.exec L o s))
     (Message.bump L (Message.is_sign L) o (fst (Message.exec L o s)) n)
     (Message.bump L (Message.is_encrypt L) o (fst (Message.exec L o s)) m).
Proof.
  intros H.
  destruct (has s (Message.op_method L o)) eqn:Hm.
  2:{ rewrite (exec_absent o s Hm). unfold Message.bump. cbn.
      rewrite !andb_false_r, !Nat.add_0_r. exact H. }
  rewrite (exec_present o s Hm). unfold Message.bump.
  destruct H as (Hw & Hr & Hd & Hs & He & Hn & Hk).
  destruct o; cbn [Message.op_method Message.op_body Message.is_sign Message.is_encrypt
                   andb] in *; rewrite ?Nat.add_0_r.
  - (* write *)
    destruct (Hw Hm) as (? & ? & ? & ? & ? & ? & ?). subst n m.
    unfold Message.write, Message.install, Message.delete. munfold.
    destruct s as [pt mk rc dc sgs sn cs pb pc [w r sg en dn de gr gp vf gs]].
    cbn in *. subst.
    repeat (break_goal; cbn).
    all: unfold Message.wf; cbn; repeat split; intros; try congruence; try lia.
  - (* read *)
    pose proof (read_frame textBuf s) as F. cbn zeta in F.
    destruct (Message.read L textBuf s) as [r s']. cbn [fst snd] in *.
    destruct F as (F1 & F2 & F3 & F4 & F5).
    destruct (Hw (Hr Hm)) as (? & ? & ? & ? & ? & ? & ?). subst n m.
    unfold Message.wf. cbn [Message.has] in *. rewrite F1, F2.
    destruct r as [[]|e]; cbn in F4, F5.
    + destruct (F4 eq_refl) as [G1 G2]. rewrite G1, G2.
      repeat split; intros; try congruence; try lia.
    + destruct (F5 eq_refl) as (G1 & G2 & G3). rewrite G1, G2, G3.
      repeat split; intros; try congruence; try lia; auto.
  - (* sign *)
    destruct (Hs Hm) as [Hlen Hlt].
    assert (Hnw : has s Message.m_write = false).
    { destruct (has s Message.m_write); [|reflexivity]. destruct (Hw eq_refl). congruence. }
    assert (Hnr : has s Message.m_read = false).
    { destruct (has s Message.m_read); [|reflexivity]. rewrite (Hr eq_refl) in Hnw.
      discriminate. }
    assert (Hnd : has s Message.m_decrypt = false).
    { destruct (has s Message.m_decrypt); [|reflexivity]. destruct (Hd eq_refl). congruence. }
    destruct (sign_cases withIdentity sd s) as [[e ->] | (fp & sig & _ & _ & _ & ->)].
    + cbn. rewrite Nat.add_0_r.
      unfold Message.wf. repeat split; intros; try congruence; try lia; auto;
        try (apply Hw; assumption); try (apply Hd; assumption);
        try (apply He; assumption).
    + cbn [fst snd Message.succeeded].
      destruct s as [pt mk rc dc sgs sn cs pb pc [w r sg en dn de gr gp vf gs]].
      cbn in *. subst.
      unfold Message.wf. rewrite length_app. cbn [List.length].
      destruct (Nat.leb_spec 255 (List.length sn + 1)); cbn;
        repeat split; intros; try congruence; try lia; auto;
        try (apply He; assumption); try (rewrite length_app; cbn; lia).
  - (* encrypt *)
    destruct (He Hm) as [Hlen Hlt].
    assert (Hnw : has s Message.m_write = false).
    { destruct (has s Message.m_write); [|reflexivity]. destruct (Hw eq_refl) as (? & ? & ?).
      congruence. }
    assert (Hnr : has s Message.m_read = false).
    { destruct (has s Message.m_read); [|reflexivity]. rewrite (Hr eq_refl) in Hnw.
      discriminate. }
    assert (Hnd : has s Message.m_decrypt = false).
    { destruct (has s Message.m_decrypt); [|reflexivity]. destruct (Hd eq_refl). congruence. }
    unfold Message.void. munfold.
    destruct (encrypt_cases toIdentity sd s) as [[e ->] | (fp & ct & _ & _ & ->)].
    + cbn. rewrite Nat.add_0_r.
      unfold Message.wf. repeat split; intros; try congruence; try lia; auto;
        try (apply Hw; assumption); try (apply Hd; assumption);
        try (apply Hs; assumption).
    + cbn [fst snd Message.succeeded].
      destruct s as [pt mk rc dc sgs sn cs pb pc [w r sg en dn de gr gp vf gs]].
      cbn in *. subst.
      unfold Message.wf. rewrite length_app. cbn [List.length].
      destruct (Nat.leb_spec 255 (List.length rc + 1)); cbn;
        repeat split; intros; try congruence; try lia; auto;
        try (apply Hs; assumption); try (rewrite length_app; cbn; lia).
  - (* done *)
    pose proof (done_frame sd s) as F. cbn zeta in F.
    unfold Message.void. munfold.
    destruct (Message.done L sd s) as [r s']. cbn [fst snd] in *.
    destruct F as (F1 & F2 & F3 & F4 & F5 & F6 & F7).
    assert (G : snd (match r with Return _ => (Return tt, s') | Throw e => (Throw e, s') end)
                = s') by (destruct r; reflexivity).
    rewrite G. unfold Message.wf. rewrite F1, F2, F3, F4, F5, F6, F7.
    repeat split; intros; try congruence; try lia; auto;
      try (apply Hw; assumption).
  - (* decrypt *)
    pose proof (decrypt_frame withIdentity s) as F. cbn zeta in F.
    destruct (Message.decrypt L withIdentity s) as [r s']. cbn [fst snd] in *.
    destruct F as (F1 & F2 & F3 & F4 & F5).
    destruct (Hd Hm) as [Hns Hne].
    assert (Hnw : has s Message.m_write = false).
    { destruct (has s Message.m_write); [|reflexivity]. destruct (Hw eq_refl) as (? & ? & ? & ?).
      congruence. }
    unfold Message.wf. rewrite F1, F2, F3, F4, Hns, Hne, Hnw.
    repeat split; intros; try congruence; try lia; auto.
    rewrite (Hr H) in Hnw. discriminate.
  - (* verify *)
    rewrite void_snd, verify_state. exact (conj Hw (conj Hr (conj Hd (conj Hs (conj He (conj Hn Hk)))))).
  - cbn. exact (conj Hw (conj Hr (conj Hd (conj Hs (conj He (conj Hn Hk)))))).
  - cbn. exact (conj Hw (conj Hr (conj Hd (conj Hs (conj He (conj Hn Hk)))))).
  - cbn. exact (conj Hw (conj Hr (conj Hd (conj Hs (conj He (conj Hn Hk)))))).
Qed.

End MessageMachine.

Section MessageTraces.
Variable L : Message.Lib.

Local Abbreviation has s m := (Message.has (Message.self s) m).

#[local] Arguments Nat.leb : simpl never.
#[local] Arguments Nat.ltb : simpl never.

Lemma run_cons o t s :
  Message.run L (o :: t) s
  = (fst (Message.exec L o s) :: fst (Message.run L t (snd (Message.exec L o s))),
     snd (Message.run L t (snd (Message.exec L o s)))).
Proof.
  cbn [Message.run]. destruct (Message.exec L o s) as [r s'].
  cbn [fst snd]. destruct (Message.run L t s') as [rs s'']. reflexivity.
Qed.

Lemma count_ok_cons sel o t r rs :
  Message.count_ok L sel (o :: t) (r :: rs)
  = ((if sel o && Message.succeeded r then 1 else 0) + Message.count_ok L sel t rs)%nat.
Proof. reflexivity. Qed.

(** The invariant holds along every sequence of calls, with the counts of
    the [sign] and [encrypt] calls that returned. *)
Lemma run_wf t s n m :
  Message.wf s n m ->
  Message.wf (snd (Message.run L t s))
    (n + Message.count_ok L (Message.is_sign L) t (fst (Message.run L t s)))
    (m + Message.count_ok L (Message.is_encrypt L) t (fst (Message.run L t s))).
Proof.
  revert s n m. induction t as [|o t IH]; intros s n m H.
  - cbn. rewrite !Nat.add_0_r. exact H.
  - rewrite run_cons. cbn [fst snd]. rewrite !count_ok_cons.
    apply (exec_wf L o) in H. apply IH in H. unfold Message.bump in H.
    rewrite !Nat.add_assoc. exact H.
Qed.

(** Calls other than [sign] and [encrypt] aside, [done] is on the object
    after a call exactly when it was there before or the call returned. *)
Lemma exec_done_flag o s :
  Message.is_sign L o || Message.is_encrypt L o = true ->
  has (snd (Message.exec L o s)) Message.m_done
  = has s Message.m_done || Message.succeeded (fst (Message.exec L o s)).
Proof.
  intros Ho.
  destruct (has s (Message.op_method L o)) eqn:Hm.
  2:{ rewrite (exec_absent L o s Hm). cbn. rewrite orb_false_r. reflexivity. }
  rewrite (exec_present L o s Hm).
  destruct o; try discriminate; cbn [Message.op_body].
  - destruct (sign_cases L withIdentity sd s) as [[e ->] | (fp & sig & _ & _ & _ & ->)].
    + cbn. rewrite orb_false_r. reflexivity.
    + cbn. rewrite orb_true_r. reflexivity.
  - rewrite void_snd, void_fst.
    destruct (encrypt_cases L toIdentity sd s) as [[e ->] | (fp & ct & _ & _ & ->)].
    + cbn. rewrite orb_false_r. reflexivity.
    + cbn. rewrite orb_true_r. reflexivity.
Qed.

Lemma run_done_flag t s :
  forallb (fun o => Message.is_sign L o || Message.is_encrypt L o) t = true ->
  has (snd (Message.run L t s)) Message.m_done
  = has s Message.m_done
    || Nat.ltb 0 (Message.count_ok L (fun o => Message.is_sign L o || Message.is_encrypt L o)
                    t (fst (Message.run L t s))).
Proof.
  revert s. induction t as [|o t IH]; intros s Ht.
  - cbn. rewrite orb_false_r. reflexivity.
  - cbn [forallb] in Ht. apply andb_true_iff in Ht. destruct Ht as [Ho Ht].
    rewrite run_cons. cbn [fst snd]. rewrite count_ok_cons, (IH _ Ht), (exec_done_flag o s Ho).
    rewrite Ho. cbn [andb].
    destruct (Message.succeeded (fst (Message.exec L o s))); cbn.
    + rewrite !orb_true_r. reflexivity.
    + rewrite orb_false_r. reflexivity.
Qed.

(** On an object that carries [sign] alone, every call but [sign] is
    refused. *)
Lemma run_only_sign t s :
  (forall m, m <> Message.m_sign -> has s m = false) ->
  forallb (fun o => negb (Message.is_sign L o)) t = true ->
  snd (Message.run L t s) = s
  /\ Forall (fun r => Message.succeeded r = false) (fst (Message.run L t s)).
Proof.
  intros Hs. induction t as [|o t IH]; intros Ht.
  - cbn. split; [reflexivity | constructor].
  - cbn [forallb] in Ht. apply andb_true_iff in Ht. destruct Ht as [Ho Ht].
    rewrite run_cons. cbn [fst snd].
    assert (Ha : has s (Message.op_method L o) = false).
    { apply Hs. destruct o; cbn in *; congruence. }
    rewrite (exec_absent L o s Ha). cbn [fst snd].
    destruct (IH Ht) as [E F]. split; [exact E|]. constructor; [reflexivity | exact F].
Qed.

End MessageTraces.

(** C9. Along every sequence of calls on a new message object, at most
    255 [sign] calls and at most 255 [encrypt] calls return; once 255
    have, the method is off the object, and a further call is refused
    and leaves the lists as they are. *)
Theorem sign_encrypt_capacity (L : Message.Lib) (t : list (Message.op L)) :
  let rs := fst (Message.run L t Message.fresh) in
  let s := snd (Message.run L t Message.fresh) in
  ((Message.count_ok L (Message.is_sign L) t rs <= 255)%nat
   /\ (Message.count_ok L (Message.is_encrypt L) t rs <= 255)%nat)
  /\ (Message.count_ok L (Message.is_sign L) t rs = 255%nat ->
      Message.has (Message.self s) Message.m_sign = false
      /\ forall i sd,
          Message.exec L (Message.OpSign L i sd) s
          = (Throw (TypeError "not a function"), s))
  /\ (Message.count_ok L (Message.is_encrypt L) t rs = 255%nat ->
      Message.has (Message.self s) Message.m_encrypt = false
      /\ forall i sd,
          Message.exec L (Message.OpEncrypt L i sd) s
          = (Throw (TypeError "not a function"), s)).
Proof.
  intros rs s.
  pose proof (run_wf L t Message.fresh 0 0 (wf_fresh)) as H.
  fold rs s in H. cbn [Nat.add] in H.
  destruct H as (_ & _ & _ & Hs & He & Hn & Hm).
  split; [split; assumption|]. split.
  - intros E.
    assert (Hf : Message.has (Message.self s) Message.m_sign = false).
    { destruct (Message.has (Message.self s) Message.m_sign); [|reflexivity].
      destruct (Hs eq_refl). lia. }
    split; [exact Hf|]. intros i sd. apply exec_absent. exact Hf.
  - intros E.
    assert (Hf : Message.has (Message.self s) Message.m_encrypt = false).
    { destruct (Message.has (Message.self s) Message.m_encrypt); [|reflexivity].
      destruct (He eq_refl). lia. }
    split; [exact Hf|]. intros i sd. apply exec_absent. exact Hf.
Qed.

(** C8. After [write], along calls to [sign] and [encrypt], [done] is on
    the object exactly when one of them has returned; and on a message
    written with [clearsign], as long as [sign] is not called every call
    is refused, [done] included, and the object stays as [write] left
    it. *)
Theorem done_available_after_sign_or_encrypt
    (L : Message.Lib) (p : jsval) (opts : option Message.woptions)
    (sd : Identity.seed (Message.I L)) (t : list (Message.op L)) :
  isArrayBuffer p = true ->
  let s0 := snd (Message.exec L (Message.OpWrite L p opts sd) Message.fresh) in
  let rs := fst (Message.run L t s0) in
  let s := snd (Message.run L t s0) in
  (forallb (fun o => Message.is_sign L o || Message.is_encrypt L o) t = true ->
   (Message.has (Message.self s) Message.m_done = true
    <-> (0 < Message.count_ok L (fun o => Message.is_sign L o || Message.is_encrypt L o)
               t rs)%nat))
  /\ (opts = Some (Message.mkWoptions (JBool true)) ->
      forallb (fun o => negb (Message.is_sign L o)) t = true ->
      s = s0
      /\ Message.has (Message.self s) Message.m_done = false
      /\ Forall (fun r => Message.succeeded r = false) rs).
Proof.
  intros Hp s0 rs s. split.
  - intros Ht. unfold s, rs. rewrite (run_done_flag L t s0 Ht).
    assert (H0 : Message.has (Message.self s0) Message.m_done = false).
    { unfold s0, Message.exec, Message.call. cbn.
      unfold Message.write. rewrite Hp. destruct opts as [[c]|]; cbn;
        [destruct (js_is_true c)|]; reflexivity. }
    rewrite H0. cbn [orb]. apply Nat.ltb_lt.
  - intros -> Ht.
    assert (Hs : forall m, m <> Message.m_sign ->
                           Message.has (Message.self s0) m = false).
    { unfold s0, Message.exec, Message.call. cbn. unfold Message.write. rewrite Hp.
      cbn. intros m Hm. destruct m; try reflexivity. congruence. }
    destruct (run_only_sign L t s0 Hs Ht) as [E F]. fold s in E. fold rs in F.
    split; [exact E|]. split; [|exact F]. rewrite E. apply Hs. discriminate.
Qed.

Lemma done_available_after_sign_or_encrypt_witness :
  isArrayBuffer (JArrayBuffer Toy.hello) = true
  /\ (let s0 := snd (Message.exec Toy.mlib
                       (Message.OpWrite Toy.mlib (JArrayBuffer Toy.hello)
                          (Some (Message.mkWoptions (JBool true))) x33)
                       Message.fresh) in
      let t := [Message.OpEncrypt Toy.mlib Toy.bob_public x02; Message.OpDone Toy.mlib x03] in
      let rs := fst (Message.run Toy.mlib t s0) in
      let s := snd (Message.run Toy.mlib t s0) in
      (forallb (fun o => Message.is_sign Toy.mlib o || Message.is_encrypt Toy.mlib o) t = true ->
       (Message.has (Message.self s) Message.m_done = true
        <-> (0 < Message.count_ok Toy.mlib
                   (fun o => Message.is_sign Toy.mlib o || Message.is_encrypt Toy.mlib o)
                   t rs)%nat))
      /\ (Some (Message.mkWoptions (JBool true)) = Some (Message.mkWoptions (JBool true)) ->
          forallb (fun o => negb (Message.is_sign Toy.mlib o)) t = true ->
          s = s0
          /\ Message.has (Message.self s) Message.m_done = false
          /\ Forall (fun r => Message.succeeded r = false) rs)).
Proof.
  split; [reflexivity|].
  apply (done_available_after_sign_or_encrypt Toy.mlib (JArrayBuffer Toy.hello)
           (Some (Message.mkWoptions (JBool true))) x33
           [Message.OpEncrypt Toy.mlib Toy.bob_public x02; Message.OpDone Toy.mlib x03]).
  reflexivity.
Defined.

(** On the toy library: a clear-signed message on which nobody signed
    refuses [encrypt] and [done]; after one signature [done] returns. *)
Example clearsign_run :
  fst (Message.run Toy.mlib
         [Message.OpWrite Toy.mlib (JArrayBuffer Toy.hello)
            (Some (Message.mkWoptions (JBool true))) x33;
          Message.OpEncrypt Toy.mlib Toy.bob_public x02;
          Message.OpDone Toy.mlib x03;
          Message.OpSign Toy.mlib Toy.alice x01;
          Message.OpDone Toy.mlib x03]
         Message.fresh)
  = [Return tt; Throw (TypeError "not a function"); Throw (TypeError "not a function");
     Return tt; Return tt].
Proof. vm_compute. reflexivity. Qed.

(** On the toy library: 255 signatures are taken, the 256th call is
    refused and the list of signers keeps its 255 entries. *)
Example capacity_run :
  let t := Message.OpWrite Toy.mlib (JArrayBuffer Toy.hello) None x33
           :: repeat (Message.OpSign Toy.mlib Toy.alice x01) 256 in
  Message.count_ok Toy.mlib (Message.is_sign Toy.mlib) t
    (fst (Message.run Toy.mlib t Message.fresh)) = 255%nat
  /\ nth 256 (fst (Message.run Toy.mlib t Message.fresh)) (Return tt)
     = Throw (TypeError "not a function")
  /\ List.length (Message.signers (snd (Message.run Toy.mlib t Message.fresh))) = 255%nat.
Proof. vm_compute. repeat split. Qed.

(** ** Writing, sealing and opening a message *)

Section MessageRoundTrip.
Variable L : Message.Lib.

Local Abbreviation has s m := (Message.has (Message.self s) m).
Local Abbreviation sign_or_encrypt :=
  (fun o => Message.is_sign L o || Message.is_encrypt L o).

#[local] Arguments Nat.leb : simpl never.
#[local] Arguments Nat.ltb : simpl never.
#[local] Arguments Nat.eqb : simpl never.
#[local] Arguments Message.continueUnpackPayload : simpl never.

Lemma exec_succeeded_present o s :
  Message.succeeded (fst (Message.exec L o s)) = true ->
  has s (Message.op_method L o) = true.
Proof.
  destruct (has s (Message.op_method L o)) eqn:Hm; [reflexivity|].
  rewrite (exec_absent L o s Hm). discriminate.
Qed.

(** One [sign] or [encrypt] call that returns keeps a message being
    written such, keeps the receivers there were, and adds the
    fingerprint of the identity it was made for when it is [encrypt]. *)
Lemma exec_writing P K all o s :
  Message.writing L P K all s ->
  In o all ->
  sign_or_encrypt o = true ->
  Message.succeeded (fst (Message.exec L o s)) = true ->
  let s' := snd (Message.exec L o s) in
  Message.writing L P K all s'
  /\ (forall x, In x (Message.receivers s) -> In x (Message.receivers s'))
  /\ (forall r sd, o = Message.OpEncrypt L r sd ->
        exists fr, Identity.call_getFingerprint (Message.I L) r = Return fr
                   /\ In fr (Message.receivers s'))
  /\ (Message.is_encrypt L o = false -> Message.receivers s' = Message.receivers s).
Proof.
  intros (HP & HK & HC & Hlen & HF) Hin Ho Hok.
  pose proof (exec_succeeded_present o s Hok) as Hm.
  rewrite (exec_present L o s Hm) in *.
  destruct o; try discriminate; cbn [Message.op_body] in *.
  - destruct (sign_cases L withIdentity sd s) as [[e E] | (fp & sig & _ & _ & _ & E)];
      rewrite E in *; cbn [fst snd Message.succeeded] in *; [congruence|].
    unfold Message.writing. cbn. rewrite !length_app, Hlen. cbn.
    repeat split; auto. intros r sd0 Hr. discriminate.
  - rewrite void_snd. rewrite void_fst in Hok.
    destruct (encrypt_cases L toIdentity sd s) as [[e E] | (fp & ct & Hct & Hfp & E)];
      rewrite E in *; cbn [fst snd Message.succeeded] in *; [congruence|].
    unfold Message.writing. cbn.
    repeat split; auto.
    + apply Forall2_app; [exact HF|]. constructor; [|constructor].
      exists toIdentity, sd. rewrite <- HK. auto.
    + intros x Hx. apply in_or_app. left. exact Hx.
    + intros r sd0 Hr. injection Hr as <- <-. exists fp. split; [exact Hfp|].
      apply in_or_app. right. left. reflexivity.
    + discriminate.
Qed.

Lemma run_writing P K all t s :
  Message.writing L P K all s ->
  incl t all ->
  forallb sign_or_encrypt t = true ->
  forallb Message.succeeded (fst (Message.run L t s)) = true ->
  let s' := snd (Message.run L t s) in
  Message.writing L P K all s'
  /\ (forall x, In x (Message.receivers s) -> In x (Message.receivers s'))
  /\ (forall r sd, In (Message.OpEncrypt L r sd) t ->
        exists fr, Identity.call_getFingerprint (Message.I L) r = Return fr
                   /\ In fr (Message.receivers s'))
  /\ (existsb (Message.is_encrypt L) t = false ->
      Message.receivers s' = Message.receivers s).
Proof.
  revert s. induction t as [|o t IH]; intros s Hw Hin Ht Hok.
  - cbn. split; [exact Hw|]. repeat split; auto. intros r sd [].
  - cbn [forallb] in Ht. apply andb_true_iff in Ht. destruct Ht as [Ho Ht].
    rewrite run_cons in *. cbn [fst snd forallb] in *.
    apply andb_true_iff in Hok. destruct Hok as [Hok1 Hok].
    destruct (exec_writing P K all o s Hw (Hin o (or_introl eq_refl)) Ho Hok1)
      as (W1 & K1 & E1 & N1).
    destruct (IH (snd (Message.exec L o s)) W1
                (fun x Hx => Hin x (or_intror Hx)) Ht Hok) as (W2 & K2 & E2 & N2).
    split; [exact W2|]. repeat split; auto.
    + intros r sd [-> | Hr].
      * destruct (E1 r sd eq_refl) as (fr & Hfr & Hi). exists fr. auto.
      * apply (E2 r sd Hr).
    + cbn [existsb]. intros Hn. apply orb_false_iff in Hn. destruct Hn as [Hn1 Hn2].
      rewrite (N2 Hn2). apply N1. exact Hn1.
Qed.

(** What [write] leaves on a new object. *)
Lemma write_fresh P sd all :
  let out := Message.exec L (Message.OpWrite L (JArrayBuffer P) None sd) Message.fresh in
  fst out = Return tt
  /\ Message.writing L (JArrayBuffer P) (Identity.srand_bytes (Message.I L) sd 64) all
       (snd out)
  /\ Message.receivers (snd out) = [].
Proof.
  cbn. unfold Message.writing. cbn. repeat split. constructor.
Qed.

(** What [done] computed when it returned on a message not written with
    [clearsign]. *)
Lemma done_returns sd s B :
  fst (Message.call Message.m_done (Message.done L sd) s) = Return B ->
  Message.clearSign s = false ->
  exists pb cb eb,
    Message.payload_serialize L
      (Message.mkPayload (Message.signers s) (Message.signatures s) (Message.plaintextBuf s))
    = Return pb
    /\ Message.compress L pb = Return cb
    /\ (if Nat.ltb 0 (List.length (Message.decryptors s))
        then Identity.sym_encrypt (Message.I L) (Message.mainKeyBuf s) cb sd = Return eb
        else eb = cb)
    /\ Message.envelope_serialize L
         (Message.mkEnvelope Message.Lzw (Message.receivers s) (Message.decryptors s) eb)
       = Return B.
Proof.
  unfold Message.call, Message.done, Message.delete. munfold.
  destruct s as [pt mk rc dc sgs sn cs pb0 pc ms]. cbn.
  intros H ->. revert H.
  destruct (Message.on_done ms); cbn; [|discriminate].
  destruct (Message.payload_serialize L _) as [pb|] eqn:E1; cbn; [|discriminate].
  destruct (Message.compress L pb) as [cb|] eqn:E2; cbn; [|discriminate].
  destruct (Nat.ltb 0 (List.length dc)); cbn.
  - destruct (Identity.sym_encrypt _ mk cb sd) as [eb|] eqn:E3; cbn; [|discriminate].
    destruct (Message.envelope_serialize L _) as [B'|] eqn:E4; cbn; [|discriminate].
    intros H. injection H as ->. exists pb, cb, eb. repeat split; assumption.
  - destruct (Message.envelope_serialize L _) as [B'|] eqn:E4; cbn; [|discriminate].
    intros H. injection H as ->. exists pb, cb, cb. repeat split; assumption.
Qed.

(** Unpacking a compressed payload that decompresses and deserializes. *)
Lemma continueUnpackPayload_returns s b pl :
  Message.payloadCompression s = Some Message.Lzw ->
  Message.decompress L (Message.payloadBuf s) = Return b ->
  Message.payload_deserialize L b = Return pl ->
  List.length (Message.p_signatures pl) = List.length (Message.p_signers pl) ->
  exists s',
    Message.continueUnpackPayload L s = (Return tt, s')
    /\ Message.plaintextBuf s' = Message.p_content pl
    /\ has s' Message.m_getPlaintext = true.
Proof.
  intros Hc Hd Hp Hl.
  unfold Message.continueUnpackPayload, Message.install. munfold.
  rewrite Hc, Hd. cbn. rewrite Hp. cbn. rewrite Hl, Nat.eqb_refl. cbn.
  destruct (Nat.ltb 0 _); cbn; eexists; repeat split.
Qed.

(** Reading an envelope without receivers unpacks the payload at once. *)
Lemma read_open B cb pb pl :
  isArrayBuffer B = true ->
  Message.envelope_deserialize L B = Return (Message.mkEnvelope Message.Lzw [] [] cb) ->
  Message.decompress L cb = Return pb ->
  Message.payload_deserialize L pb = Return pl ->
  List.length (Message.p_signatures pl) = List.length (Message.p_signers pl) ->
  exists s',
    Message.read L B Message.fresh = (Return tt, s')
    /\ Message.plaintextBuf s' = Message.p_content pl
    /\ has s' Message.m_getPlaintext = true.
Proof.
  intros HB He Hd Hp Hl.
  unfold Message.read, Message.delete. munfold. rewrite HB, He. cbn.
  change (Nat.eqb 0 0) with true. change (Nat.ltb 0 0) with false. cbn.
  match goal with
  | |- context [Message.continueUnpackPayload L ?x] =>
      destruct (continueUnpackPayload_returns x pb pl eq_refl Hd Hp Hl) as (s' & E & H1 & H2);
      rewrite E
  end.
  cbn. eexists. split; [reflexivity|]. cbn. split; [exact H1|].
  cbn in H2. exact H2.
Qed.

(** Reading an envelope with receivers stops before the payload and puts
    [decrypt] on the object. *)
Lemma read_locked B rc dc eb :
  isArrayBuffer B = true ->
  Message.envelope_deserialize L B = Return (Message.mkEnvelope Message.Lzw rc dc eb) ->
  List.length rc = List.length dc ->
  (0 < List.length rc)%nat ->
  Message.read L B Message.fresh
  = (Return tt,
     Message.mkState JUndefined JUndefined rc dc [] [] false eb (Some Message.Lzw)
       (Message.mkMethods false false false false false true true false false false)).
Proof.
  intros HB He Hl Hn.
  unfold Message.read, Message.delete, Message.install. munfold. rewrite HB, He. cbn.
  rewrite Hl, Nat.eqb_refl. cbn. rewrite <- Hl.
  apply Nat.ltb_lt in Hn. rewrite Hn. reflexivity.
Qed.

(** Decrypting with an identity whose first matching receiver entry it
    opens unpacks the payload. *)
Lemma decrypt_open d s fp i K cb pb pl :
  Message.payloadCompression s = Some Message.Lzw ->
  Identity.call_isPrivate (Message.I L) d = Return true ->
  Identity.call_getFingerprint (Message.I L) d = Return fp ->
  Message.find_index (Identity.buffer_equal (Message.I L) fp) (Message.receivers s) = Some i ->
  Identity.call_decrypt (Message.I L) d (Message.item (Message.decryptors s) i) = Return K ->
  Identity.sym_decrypt (Message.I L) K (Message.payloadBuf s) = Return cb ->
  Message.decompress L cb = Return pb ->
  Message.payload_deserialize L pb = Return pl ->
  List.length (Message.p_signatures pl) = List.length (Message.p_signers pl) ->
  exists s',
    Message.decrypt L d s = (Return tt, s')
    /\ Message.plaintextBuf s' = Message.p_content pl
    /\ has s' Message.m_getPlaintext = true.
Proof.
  intros Hc Hprv Hfp Hi HK Hs Hd Hp Hl.
  unfold Message.decrypt, Message.delete. munfold.
  rewrite Hprv, Hfp. cbn. rewrite Hi, HK, Hs. cbn.
  match goal with
  | |- context [Message.continueUnpackPayload L ?x] =>
      destruct (continueUnpackPayload_returns x pb pl Hc Hd Hp Hl) as (s' & E & H1 & H2);
      rewrite E
  end.
  cbn. eexists. split; [reflexivity|]. cbn. split; [exact H1|].
  cbn in H2. exact H2.
Qed.

Lemma Forall2_item (R : jsval -> jsval -> Prop) l1 l2 i :
  Forall2 R l1 l2 -> (i < List.length l1)%nat ->
  R (Message.item l1 i) (Message.item l2 i).
Proof.
  intros H. revert i. induction H as [|x y l1 l2 Hxy H IH]; intros i Hi.
  - inversion Hi.
  - destruct i; [exact Hxy|]. apply IH. cbn in Hi. lia.
Qed.

End MessageRoundTrip.

(** Round trip of a message, as far as the envelope goes.  A plaintext
    buffer is written, any number of [sign] and [encrypt] calls are made
    and return, and [done] returns a buffer.  Read on a new object, that
    buffer gives the plaintext back: at once when no [encrypt] call was
    made, and otherwise after [decrypt] with a private identity that is
    one of the recipients, provided the cipher of that identity opens
    what was sealed for it.  (That all the calls returned bounds their
    number by 255 each, and that [done] was there means one of them was
    made.) *)
Lemma message_roundtrip_opened
    (L : Message.Lib) (P : list byte) (sd0 sdd : Identity.seed (Message.I L))
    (calls : list (Message.op L)) (B : jsval) :
  Message.Contract L ->
  forallb (fun o => Message.is_sign L o || Message.is_encrypt L o) calls = true ->
  let w := Message.run L (Message.OpWrite L (JArrayBuffer P) None sd0 :: calls)
             Message.fresh in
  forallb Message.succeeded (fst w) = true ->
  fst (Message.call Message.m_done (Message.done L sdd) (snd w)) = Return B ->
  (existsb (Message.is_encrypt L) calls = false ->
   fst ((Message.call Message.m_read (Message.read L B) ;;;
         Message.call Message.m_getPlaintext Message.getPlaintext) Message.fresh)
   = Return (JArrayBuffer P))
  /\ (forall d,
      existsb (Message.is_encrypt L) calls = true ->
      Identity.call_isPrivate (Message.I L) d = Return true ->
      Message.recipient L d calls ->
      fst ((Message.call Message.m_read (Message.read L B) ;;;
            Message.call Message.m_decrypt (Message.decrypt L d) ;;;
            Message.call Message.m_getPlaintext Message.getPlaintext) Message.fresh)
      = Return (JArrayBuffer P)).
Proof.
  intros HC Hcalls w Hok HB. unfold w in *. clear w.
  rewrite run_cons in Hok, HB. cbn [fst snd forallb] in Hok, HB.
  destruct (write_fresh L P sd0 calls) as (_ & W0 & R0). cbn zeta in W0, R0.
  apply andb_true_iff in Hok. destruct Hok as [_ Hok].
  set (s0 := snd (Message.exec L (Message.OpWrite L (JArrayBuffer P) None sd0)
                    Message.fresh)) in *.
  destruct (run_writing L _ _ calls calls s0 W0 (incl_refl calls) Hcalls Hok)
    as (W1 & _ & E1 & N1).
  set (s1 := snd (Message.run L calls s0)) in *.
  destruct W1 as (HP & HK & Hcs & Hlen & HF).
  destruct (done_returns L sdd s1 B HB Hcs) as (pb & cb & eb & D1 & D2 & D3 & D4).
  rewrite HP in D1. rewrite HK in D3.
  destruct (Message.envelope_roundtrip L HC _ _ D4) as [HBuf Henv].
  pose proof (Message.compress_roundtrip L HC _ _ D2) as Hdec.
  pose proof (Message.payload_roundtrip L HC _ _ D1) as Hpl.
  pose proof (Forall2_length HF) as Hrd.
  split.
  - intros Hnone. specialize (N1 Hnone). rewrite R0 in N1.
    rewrite N1 in *. destruct (Message.decryptors s1) as [|x l]; [|discriminate].
    cbn in D3. subst eb.
    destruct (read_open L B cb pb _ HBuf Henv Hdec Hpl Hlen) as (s' & Er & Hp' & Hg).
    unfold Message.call, Message.getPlaintext. munfold. cbn -[Message.read].
    rewrite Er. cbn in Hg |- *. rewrite Hg. cbn. rewrite Hp'. reflexivity.
  - intros d Hsome Hprv (fp & Hfp & (r & sd & fr & Hin & Hfr & Heq) & Hopen).
    destruct (E1 r sd Hin) as (fr' & Hfr' & Hinr).
    rewrite Hfr in Hfr'. injection Hfr' as <-.
    destruct (find_index_exists (Identity.buffer_equal (Message.I L) fp)
                (Message.receivers s1) (ex_intro _ fr (conj Hinr Heq))) as [i Hi].
    destruct (find_index_some _ _ _ Hi) as (Hlt & Hmatch & _).
    destruct (Forall2_item _ _ _ i HF Hlt) as (r' & sd' & Hin' & Hfr'' & Hct).
    pose proof (Hopen r' sd' _ Hin' Hfr'' Hmatch _ _ _ Hct) as Hkey.
    assert (Hpos : Nat.ltb 0 (List.length (Message.decryptors s1)) = true)
      by (apply Nat.ltb_lt; lia).
    rewrite Hpos in D3.
    pose proof (Message.symmetric_roundtrip L HC _ _ _ _ D3) as Hsym.
    unfold Message.call, Message.getPlaintext. munfold.
    cbn -[Message.read Message.decrypt].
    rewrite (read_locked L B _ _ eb HBuf Henv Hrd) by lia.
    cbn -[Message.decrypt].
    match goal with
    | |- context [Message.decrypt L d ?x] =>
        destruct (decrypt_open L d x fp i _ cb pb _ eq_refl Hprv Hfp Hi Hkey Hsym Hdec Hpl Hlen)
          as (s' & Ed & Hp' & Hg); rewrite Ed
    end.
    cbn in Hg |- *. rewrite Hg. cbn. rewrite Hp'. reflexivity.
Qed.

Lemma toy_bob_opens : Message.opens Toy.mlib Toy.bob Toy.bob_public.
Proof.
  assert (Hp : Identity.initialized Toy.bob_public = Some false
               /\ Identity.asymCipher Toy.bob_public
                  = Some (Toy.mkCipher None (repeat x0b 4)))
    by (vm_compute; split; reflexivity).
  assert (Hs : Identity.initialized Toy.bob = Some true
               /\ Identity.asymCipher Toy.bob
                  = Some (Toy.mkCipher (Some (repeat x0b 4)) (repeat x0b 4)))
    by (vm_compute; split; reflexivity).
  destruct Hp as [Hp1 Hp2]. destruct Hs as [Hs1 Hs2].
  intros k sd ct.
  unfold Identity.call_encrypt, Identity.call_decrypt, Identity.encrypt, Identity.decrypt.
  cbn [Message.I Toy.mlib]. rewrite Hp1, Hp2, Hs1, Hs2.
  destruct k; cbn; try discriminate.
  intros H. injection H as <-. cbn. reflexivity.
Qed.

Lemma toy_bob_recipient :
  Message.recipient Toy.mlib Toy.bob
    [Message.OpSign Toy.mlib Toy.alice x01; Message.OpEncrypt Toy.mlib Toy.bob_public x02].
Proof.
  exists (Toy.fingerprint_of Toy.bob). split; [vm_compute; reflexivity|]. split.
  - exists Toy.bob_public, x02, (Toy.fingerprint_of Toy.bob_public).
    split; [right; left; reflexivity|]. split; vm_compute; reflexivity.
  - intros r sd fr [H|[H|[]]]; [discriminate|].
    injection H as <- <-. intros _ _. exact toy_bob_opens.
Qed.

(** On the toy library, whose cipher opens what it seals. *)
Lemma message_roundtrip_opened_run :
  Message.Contract Toy.mlib
  /\ forallb (fun o => Message.is_sign Toy.mlib o || Message.is_encrypt Toy.mlib o)
       [Message.OpSign Toy.mlib Toy.alice x01; Message.OpEncrypt Toy.mlib Toy.bob_public x02]
     = true
  /\ forallb Message.succeeded
       (fst (Message.run Toy.mlib
               [Message.OpWrite Toy.mlib (JArrayBuffer Toy.hello) None x33;
                Message.OpSign Toy.mlib Toy.alice x01;
                Message.OpEncrypt Toy.mlib Toy.bob_public x02]
               Message.fresh)) = true
  /\ fst (Message.call Message.m_done (Message.done Toy.mlib x03)
            (snd (Message.run Toy.mlib
                    [Message.OpWrite Toy.mlib (JArrayBuffer Toy.hello) None x33;
                     Message.OpSign Toy.mlib Toy.alice x01;
                     Message.OpEncrypt Toy.mlib Toy.bob_public x02]
                    Message.fresh)))
     = Return Toy.sealed
  /\ Identity.call_isPrivate Toy.ilib Toy.bob = Return true
  /\ Message.recipient Toy.mlib Toy.bob
       [Message.OpSign Toy.mlib Toy.alice x01; Message.OpEncrypt Toy.mlib Toy.bob_public x02]
  /\ fst ((Message.call Message.m_read (Message.read Toy.mlib Toy.sealed) ;;;
           Message.call Message.m_decrypt (Message.decrypt Toy.mlib Toy.bob) ;;;
           Message.call Message.m_getPlaintext Message.getPlaintext) Message.fresh)
     = Return (JArrayBuffer Toy.hello).
Proof.
  split; [exact toy_message_contract|].
  split; [reflexivity|].
  split; [vm_compute; reflexivity|].
  split; [vm_compute; reflexivity|].
  split; [vm_compute; reflexivity|].
  split; [exact toy_bob_recipient|].
  apply (proj2 (message_roundtrip_opened Toy.mlib Toy.hello x33 x03
                  [Message.OpSign Toy.mlib Toy.alice x01;
                   Message.OpEncrypt Toy.mlib Toy.bob_public x02]
                  Toy.sealed toy_message_contract eq_refl
                  ltac:(vm_compute; reflexivity) ltac:(vm_compute; reflexivity))).
  - reflexivity.
  - vm_compute. reflexivity.
  - exact toy_bob_recipient.
Qed.

(** On the toy library: a message that is signed and not encrypted reads
    back without [decrypt]. *)
Example signed_only_run :
  let '(rs, s) := Message.run Toy.mlib
                    [Message.OpWrite Toy.mlib (JArrayBuffer Toy.hello) None x33;
                     Message.OpSign Toy.mlib Toy.alice x01]
                    Message.fresh in
  (b <- fst (Message.call Message.m_done (Message.done Toy.mlib x03) s) ;;
   fst ((Message.call Message.m_read (Message.read Toy.mlib b) ;;;
         Message.call Message.m_getPlaintext Message.getPlaintext) Message.fresh))
  = Return (JArrayBuffer Toy.hello).
Proof. vm_compute. reflexivity. Qed.

(** * More on the EC primitive *)

(** X1. A key is set once: on an instance that holds a key both setters
    are gone, and calling either raises [TypeError]. *)
Theorem EC_key_set_once (L : EC.Lib) (self : EC.instance L) (k : jsval) :
  EC.holds_key L self ->
  EC.setPrivateKey L self k = Throw (TypeError "setPrivateKey is not a function")
  /\ EC.setPublicKey L self k = Throw (TypeError "setPublicKey is not a function").
Proof.
  intros [name e0 k0 e Hn Hs | name e0 k0 e Hn Hs];
    destruct (new_EC_methods L _ _ Hn) as [Hp Hq].
  - unfold EC.setPublicKey in Hs. rewrite Hq in Hs. cbn in Hs.
    destruct (Array_isArray k0); cbn in Hs; [|discriminate].
    injection Hs as <-. split; reflexivity.
  - unfold EC.setPrivateKey in Hs. rewrite Hp in Hs. cbn in Hs.
    destruct k0; try discriminate. injection Hs as <-. split; reflexivity.
Qed.

Lemma EC_key_set_once_witness :
  EC.holds_key ToyEC.lib ToyEC.public_instance
  /\ EC.setPrivateKey ToyEC.lib ToyEC.public_instance (JArray [7])
     = Throw (TypeError "setPrivateKey is not a function")
  /\ EC.setPublicKey ToyEC.lib ToyEC.public_instance (JArray [7])
     = Throw (TypeError "setPublicKey is not a function").
Proof.
  split; [exact ToyEC_public_instance_holds_key|].
  apply (EC_key_set_once ToyEC.lib ToyEC.public_instance (JArray [7])).
  exact ToyEC_public_instance_holds_key.
Defined.

(** X2. An instance given a public key only: [getPublicKey] returns the
    very array it was given, [verify] and [getEncryptCredentials] are on
    the object, and [sign] and [getDecryptCredential] are not: calling
    them raises [TypeError]. *)
Theorem EC_public_only (L : EC.Lib) (name : string) (e0 e : EC.instance L) (k : jsval) :
  EC.new_EC L name = Return e0 ->
  EC.setPublicKey L e0 k = Return e ->
  Array_isArray k = true
  /\ EC.getPublicKey L e = Return k
  /\ EC.bigiPrivateKey e = None
  /\ EC.has_verify e = true
  /\ EC.has_getEncryptCredentials e = true
  /\ (forall sd d, EC.call_sign L e sd d = Throw (TypeError "sign is not a function"))
  /\ (forall d, EC.call_getDecryptCredential L e d
                = Throw (TypeError "getDecryptCredential is not a function")).
Proof.
  intros Hn Hs. destruct (new_EC_methods L _ _ Hn) as [_ Hq].
  unfold EC.new_EC in Hn. destruct (EC.ecparams L name); cbn in Hn; [|discriminate].
  injection Hn as <-.
  unfold EC.setPublicKey in Hs. cbn in Hs.
  destruct (Array_isArray k) eqn:Hk; cbn in Hs; [|discriminate].
  injection Hs as <-. repeat split.
Qed.

Lemma EC_public_only_witness :
  EC.new_EC ToyEC.lib "toy"
  = Return (EC.mkInstance ToyEC.lib "toy" None JNull true true false false false false false
              false)
  /\ EC.setPublicKey ToyEC.lib
       (EC.mkInstance ToyEC.lib "toy" None JNull true true false false false false false false)
       (JArray [35]) = Return ToyEC.public_instance
  /\ EC.getPublicKey ToyEC.lib ToyEC.public_instance = Return (JArray [35])
  /\ (forall sd d, EC.call_sign ToyEC.lib ToyEC.public_instance sd d
                   = Throw (TypeError "sign is not a function")).
Proof.
  split; [reflexivity|]. split; [reflexivity|].
  pose proof (EC_public_only ToyEC.lib "toy"
                (EC.mkInstance ToyEC.lib "toy" None JNull true true false false false false
                   false false)
                ToyEC.public_instance (JArray [35]) eq_refl eq_refl) as H.
  destruct H as (_ & Hg & _ & _ & _ & Hsig & _). split; [exact Hg | exact Hsig].
Defined.

(** X3. An instance given a private key: the call returns exactly when
    the argument is an [Array]; the public key it then publishes is the
    one derived from the private key, whatever the caller may hold, and
    [sign] and [getDecryptCredential] are on the object. *)
Theorem EC_private_key_derives_public
    (L : EC.Lib) (name : string) (e0 : EC.instance L) (k : jsval) :
  EC.new_EC L name = Return e0 ->
  (Array_isArray k = false ->
   EC.setPrivateKey L e0 k = Throw (Error "invalid-parameter"))
  /\ (forall a, k = JArray a ->
      exists e,
        EC.setPrivateKey L e0 k = Return e
        /\ EC.bigiPrivateKey e = Some (EC.fromByteArrayUnsigned L a)
        /\ EC.getPublicKey L e
           = Return (JArray (EC.publicOf L name (EC.fromByteArrayUnsigned L a)))
        /\ EC.has_sign e = true
        /\ EC.has_getDecryptCredential e = true
        /\ EC.has_verify e = true).
Proof.
  intros Hn. unfold EC.new_EC in Hn.
  destruct (EC.ecparams L name); cbn in Hn; [|discriminate]. injection Hn as <-.
  split.
  - intros Hk. destruct k; try reflexivity. discriminate.
  - intros a ->. eexists. repeat split.
Qed.

Lemma EC_private_key_derives_public_witness :
  EC.new_EC ToyEC.lib "toy"
  = Return (EC.mkInstance ToyEC.lib "toy" None JNull true true false false false false false
              false)
  /\ EC.setPrivateKey ToyEC.lib
       (EC.mkInstance ToyEC.lib "toy" None JNull true true false false false false false false)
       (JArrayBuffer [x07]) = Throw (Error "invalid-parameter")
  /\ exists e,
      EC.setPrivateKey ToyEC.lib
        (EC.mkInstance ToyEC.lib "toy" None JNull true true false false false false false
           false) (JArray [7]) = Return e
      /\ EC.getPublicKey ToyEC.lib e = Return (JArray [35]).
Proof.
  split; [reflexivity|].
  split.
  - apply (proj1 (EC_private_key_derives_public ToyEC.lib "toy" _ (JArrayBuffer [x07])
                    eq_refl)).
    reflexivity.
  - destruct (proj2 (EC_private_key_derives_public ToyEC.lib "toy" _ (JArray [7]) eq_refl)
                [7] eq_refl) as (e & He & _ & Hp & _).
    exists e. split; [exact He | exact Hp].
Defined.

(** X4. What [getEncryptCredentials] needs and what it builds.  It
    returns only when the plaintext is an [ArrayBuffer], the random source
    hands back an [Array] (the private key of the ephemeral instance) and
    the instance's own public key is an [Array]; the result is then the
    concatenation of the two-byte length of the ephemeral public key, that
    key, and the plaintext xored with a key stream derived from the shared
    secret, the ephemeral public key as salt, 1024 rounds, and the
    [length] of the plaintext, which for an [ArrayBuffer] is [undefined]. *)
Theorem getEncryptCredentials_returns
    (L : EC.Lib) (self : EC.instance L) (sd : EC.seed L) (dataBuf v : jsval) :
  EC.getEncryptCredentials L self sd dataBuf = Return v ->
  isArrayBuffer dataBuf = true
  /\ exists a q sh ks st,
      EC.srand_bytes L sd 128 = JArray a
      /\ EC.getPublicKey L self = Return (JArray q)
      /\ let k := EC.fromByteArrayUnsigned L a in
         let pubE := EC.publicOf L (EC.curveName self) k in
         EC.sharedOf L (EC.curveName self) q k = Return sh
         /\ EC.pbkdf2 L (JArray sh) (JArray pubE) 1024 JUndefined = Return ks
         /\ EC.buffer_xor L dataBuf ks = Return st
         /\ EC.buffer_concat L
              [Uint16Array_buffer (Z.of_nat (List.length pubE)); JArray pubE; st]
            = Return v.
Proof.
  unfold EC.getEncryptCredentials.
  destruct (isArrayBuffer dataBuf) eqn:Hd; cbn [negb]; [|discriminate].
  unfold EC.new_EC. destruct (EC.ecparams L (EC.curveName self)); cbn; [|discriminate].
  destruct (EC.srand_bytes L sd 128) as [| | | | |a|] eqn:Hr; cbn; try discriminate.
  destruct (EC.getPublicKey L self) as [pk|] eqn:Hp; cbn; [|discriminate].
  destruct pk as [| | | | |q|]; cbn; try discriminate.
  destruct (EC.sharedOf L (EC.curveName self) q _) as [sh|] eqn:Hs; cbn; [|discriminate].
  unfold EC._XOR.
  assert (Hl : js_length dataBuf = JUndefined) by (destruct dataBuf; try discriminate; reflexivity).
  rewrite Hl.
  destruct (EC.pbkdf2 L _ _ 1024 JUndefined) as [ks|] eqn:Hk; cbn; [|discriminate].
  destruct (EC.buffer_xor L dataBuf ks) as [st|] eqn:Hx; cbn; [|discriminate].
  intros Hc. split; [reflexivity|].
  exists a, q, sh, ks, st. repeat split; assumption.
Qed.

Lemma getEncryptCredentials_returns_witness :
  exists v,
    EC.getEncryptCredentials ToyEC.lib ToyEC.public_instance [3] (JArrayBuffer [x68; x69])
    = Return v
    /\ isArrayBuffer (JArrayBuffer [x68; x69]) = true
    /\ exists a q sh ks st,
        EC.srand_bytes ToyEC.lib [3] 128 = JArray a
        /\ EC.getPublicKey ToyEC.lib ToyEC.public_instance = Return (JArray q)
        /\ let k := EC.fromByteArrayUnsigned ToyEC.lib a in
           let pubE := EC.publicOf ToyEC.lib (EC.curveName ToyEC.public_instance) k in
           EC.sharedOf ToyEC.lib (EC.curveName ToyEC.public_instance) q k = Return sh
           /\ EC.pbkdf2 ToyEC.lib (JArray sh) (JArray pubE) 1024 JUndefined = Return ks
           /\ EC.buffer_xor ToyEC.lib (JArrayBuffer [x68; x69]) ks = Return st
           /\ EC.buffer_concat ToyEC.lib
                [Uint16Array_buffer (Z.of_nat (List.length pubE)); JArray pubE; st]
              = Return v.
Proof.
  eexists. split; [reflexivity|].
  apply (getEncryptCredentials_returns ToyEC.lib ToyEC.public_instance [3]
           (JArrayBuffer [x68; x69])).
  reflexivity.
Defined.

(** * More on identities *)

Lemma toy_identity_contract : Identity.Contract Toy.ilib.
Proof.
  constructor.
  - exact toy_identity_serializer.
  - intros k p sd c. cbn [Identity.sym_encrypt Identity.sym_decrypt Toy.ilib].
    destruct k; try discriminate. destruct p; try discriminate. cbn [Toy.on_buffer].
    intros H. injection H as <-. cbn [Toy.on_buffer].
    rewrite strip_prefix_app. reflexivity.
  - intros s. cbn. apply String.string_of_list_byte_of_string.
  - intros name a. cbn [Identity.getDef Toy.ilib].
    destruct (Toy.is_default_name name) eqn:Hn; [|discriminate].
    intros H. injection H as <-. cbn.
    destruct name; try discriminate. cbn in Hn. apply String.eqb_eq in Hn. subst.
    reflexivity.
  - intros c pk. cbn. intros H. injection H as <-. cbn. apply bytes_eqb_refl.
  - intros c0 k c1 d sd sig. cbn.
    destruct k; try discriminate. cbn. intros H. injection H as <-. cbn.
    destruct d; try discriminate. cbn. intros H. injection H as <-. cbn.
    rewrite bytes_eqb_refl. split; [reflexivity|].
    intros pk H. injection H as <-. cbn. eexists. split; [reflexivity|]. cbn.
    rewrite bytes_eqb_refl. reflexivity.
Qed.

Section IdentityMore.
Variable L : Identity.Lib.

Lemma subjectRule_length s :
  Identity.subjectRule_test s = true ->
  (8 <= String.length s <= 255)%nat.
Proof.
  unfold Identity.subjectRule_test. intros H.
  apply andb_true_iff in H. destruct H as [H H2].
  apply andb_true_iff in H. destruct H as [_ H1].
  apply Nat.leb_le in H1, H2. lia.
Qed.

(** What [generate] has done on a new object when it returns. *)
Lemma generate_fresh subject opts sd1 sd2 st :
  Identity.generate L subject opts sd1 sd2 (Identity.fresh L) = (Return tt, st) ->
  let o := match opts with
           | Some o => o
           | None => Identity.mkOptions JUndefined JUndefined
           end in
  let name := if truthy (Identity.algorithm o) then Identity.algorithm o
              else JStr Identity.defaultAlgorithmName in
  let id := Identity.mac L (Identity.publicKeyBuf st) (Identity.subjectBuf st) in
  Identity.subjectRule_test subject = true
  /\ exists a c0 c1,
      Identity.getDef L name = Some a
      /\ Identity.cipher_new L (Identity.def_name a) = Return c0
      /\ Identity.setPrivateKey L c0 (Identity.secretBuf st) = Return c1
      /\ Identity.getPublicKey L c1 = Return (Identity.publicKeyBuf st)
      /\ Identity.asym_sign L c1 (JArrayBuffer id) sd2 = Return (Identity.signatureBuf st)
      /\ Identity.secretBuf st
         = (if truthy (Identity.overrideSecret o)
            then Identity.hash_secret L (Identity.secretLength a) (Identity.overrideSecret o)
            else Identity.srand_bytes L sd1 (Identity.secretLength a))
      /\ st = Identity.mkState L (JArrayBuffer (Identity.encode_ascii L subject))
                (Identity.secretBuf st) (Identity.publicKeyBuf st) name
                (Identity.signatureBuf st) (Some c1) (Some id) (Some true).
Proof.
  unfold Identity.generate, Identity.initialize, Identity.getID.
  set (o := match opts with Some o => o | None => _ end).
  destruct (Identity.subjectRule_test subject); munfold; [|discriminate].
  cbn [negb].
  set (name := if truthy (Identity.algorithm o) then _ else _).
  destruct (Identity.getDef L name) as [a|] eqn:Ha; [|discriminate]. cbn.
  destruct (Identity.cipher_new L (Identity.def_name a)) as [c0|] eqn:E0; [|discriminate].
  cbn.
  destruct (Identity.setPrivateKey L c0 _) as [c1|] eqn:E1; [|discriminate]. cbn.
  destruct (Identity.getPublicKey L c1) as [pk|] eqn:E2; [|discriminate]. cbn.
  destruct (Identity.asym_sign L c1 _ sd2) as [sg|] eqn:E3; [|discriminate]. cbn.
  intros H. injection H as <-. cbn. split; [reflexivity|].
  exists a, c0, c1. repeat split; assumption.
Qed.

End IdentityMore.

(** X5. [generate] refuses a subject shorter than 8 or longer than 255
    characters, or with a character outside digits, letters, [-], [_] and
    white space, with [enigma-invalid-input], and leaves the object as it
    was. *)
Theorem generate_subject_rule
    (L : Identity.Lib) (st : Identity.state L) (subject : string)
    (opts : option Identity.options) (sd1 sd2 : Identity.seed L) :
  Identity.initialized st = None ->
  ((String.length subject < 8)%nat \/ (255 < String.length subject)%nat
   \/ exists c, In c (list_ascii_of_string subject) /\ Identity.subject_char c = false) ->
  Identity.call_generate L subject opts sd1 sd2 st
  = (Throw (Error "enigma-invalid-input"), st).
Proof.
  intros Hi Hbad. unfold Identity.call_generate, Identity.generate. rewrite Hi.
  assert (Ht : Identity.subjectRule_test subject = false).
  { destruct (Identity.subjectRule_test subject) eqn:Ht; [|reflexivity].
    pose proof (subjectRule_length subject Ht) as Hl.
    destruct Hbad as [Hb | [Hb | (c & Hc & Hf)]]; try lia.
    unfold Identity.subjectRule_test in Ht.
    apply andb_true_iff in Ht. destruct Ht as [Ht _].
    apply andb_true_iff in Ht. destruct Ht as [Ht _].
    rewrite forallb_forall in Ht. rewrite (Ht c Hc) in Hf. discriminate. }
  rewrite Ht. reflexivity.
Qed.

Lemma generate_subject_rule_witness :
  Identity.initialized (Identity.fresh Toy.ilib) = None
  /\ (String.length "alice" < 8)%nat
  /\ Identity.call_generate Toy.ilib "alice" None x0a x0a (Identity.fresh Toy.ilib)
     = (Throw (Error "enigma-invalid-input"), Identity.fresh Toy.ilib).
Proof.
  split; [reflexivity|]. split; [cbn; lia|].
  apply (generate_subject_rule Toy.ilib (Identity.fresh Toy.ilib) "alice" None x0a x0a).
  - reflexivity.
  - left. cbn. lia.
Defined.

(** The rule takes both cases of a letter, and a dot is outside it. *)
Example subjectRule_run :
  Identity.subjectRule_test "Alice_in-Wonder land" = true
  /\ Identity.subjectRule_test "alice.in.wonderland" = false
  /\ Identity.subjectRule_test "1234567" = false.
Proof. repeat split. Qed.

(** X6. [exportPrivate] refuses a pin key that is not an [ArrayBuffer] or
    has fewer than 32 bytes with [enigma-invalid-pinkey], before anything
    is encrypted. *)
Theorem exportPrivate_pinkey_length
    (L : Identity.Lib) (st : Identity.state L) (pinkey : jsval) (sd : Identity.seed L) :
  Identity.initialized st = Some true ->
  (isArrayBuffer pinkey = false
   \/ exists b, pinkey = JArrayBuffer b /\ (List.length b < 32)%nat) ->
  Identity.call_exportPrivate L st pinkey sd = Throw (Error "enigma-invalid-pinkey").
Proof.
  intros Hi Hbad. unfold Identity.call_exportPrivate, Identity.exportPrivate. rewrite Hi.
  destruct Hbad as [Hb | (b & -> & Hb)].
  - rewrite Hb. reflexivity.
  - cbn. unfold js_ge. cbn.
    destruct (Z.leb_spec 32 (Z.of_nat (List.length b))); [lia | reflexivity].
Qed.

Lemma exportPrivate_pinkey_length_witness :
  Identity.initialized Toy.alice = Some true
  /\ (List.length (repeat x07 31) < 32)%nat
  /\ Identity.call_exportPrivate Toy.ilib Toy.alice (JArrayBuffer (repeat x07 31)) x00
     = Throw (Error "enigma-invalid-pinkey").
Proof.
  split; [vm_compute; reflexivity|]. split; [cbn; lia|].
  apply (exportPrivate_pinkey_length Toy.ilib Toy.alice (JArrayBuffer (repeat x07 31)) x00).
  - vm_compute. reflexivity.
  - right. exists (repeat x07 31). split; [reflexivity | cbn; lia].
Defined.

(** X7. Private-key round trip.  An identity generated on a new object,
    exported under a pin key and loaded under the same pin key on another
    new object, is the identity it was: same subject, algorithm, keys,
    signature, cipher and fingerprint, and private-capable. *)
Theorem loadPrivate_of_exportPrivate
    (L : Identity.Lib) (subject : string) (opts : option Identity.options)
    (sd1 sd2 sd : Identity.seed L) (st : Identity.state L) (pinkey buf : jsval) :
  Identity.Contract L ->
  Identity.call_generate L subject opts sd1 sd2 (Identity.fresh L) = (Return tt, st) ->
  Identity.call_exportPrivate L st pinkey sd = Return buf ->
  Identity.call_loadPrivate L buf pinkey (Identity.fresh L) = (Return tt, st)
  /\ Identity.call_isPrivate L st = Return true.
Proof.
  intros HC Hg He.
  change (Identity.call_generate L subject opts sd1 sd2 (Identity.fresh L))
    with (Identity.generate L subject opts sd1 sd2 (Identity.fresh L)) in Hg.
  destruct (generate_fresh L _ _ _ _ _ Hg)
    as (Hsub & a & c0 & c1 & Ha & E0 & E1 & E2 & E3 & _ & Hst).
  clear Hg. cbn zeta in *.
  destruct st as [sb sec pkb an sg ac idm ini]. cbn in *.
  injection Hst as -> -> -> -> ->.
  set (name := if truthy _ then _ else _) in *.
  unfold Identity.call_exportPrivate, Identity.exportPrivate in He. cbn in He.
  destruct (isArrayBuffer pinkey) eqn:Hp; [|discriminate].
  destruct (js_ge _ _); [|discriminate]. cbn [andb negb] in He.
  destruct (Identity.sym_encrypt L pinkey _ sd) as [k|] eqn:Ek; [|discriminate].
  cbn [bind] in He.
  destruct (Identity.serializer_ok L HC _ _ He) as [Hb Hd].
  pose proof (Identity.symmetric_ok L HC _ _ _ _ Ek) as Hk.
  assert (Htr : truthy pinkey = true) by (destruct pinkey; try discriminate; reflexivity).
  split; [|reflexivity].
  change (Identity.call_loadPrivate L buf pinkey (Identity.fresh L))
    with (Identity.loadPrivate L buf pinkey (Identity.fresh L)).
  unfold Identity.loadPrivate, Identity.loadIdentityBuf.
  rewrite Hb, Hp, Htr. cbn [negb andb]. munfold. rewrite Hd. cbn.
  rewrite (Identity.ascii_ok L HC), Hsub. cbn.
  rewrite <- (Identity.definition_ok L HC _ _ Ha), E0. cbn.
  rewrite Hk. cbn. rewrite E1. cbn. rewrite E2. cbn.
  rewrite (Identity.equal_ok L HC _ _ E2). cbn.
  destruct (Identity.signature_ok L HC _ _ _ _ _ _ E1 E3) as [Hv _].
  rewrite Hv. cbn. reflexivity.
Qed.

Lemma loadPrivate_of_exportPrivate_witness :
  Identity.Contract Toy.ilib
  /\ Identity.call_generate Toy.ilib "alice in wonderland" None x0a x0a
       (Identity.fresh Toy.ilib) = (Return tt, Toy.alice)
  /\ Identity.call_exportPrivate Toy.ilib Toy.alice (Toy.pin x07) x00
     = Return (Toy.exported_private Toy.alice (Toy.pin x07))
  /\ Identity.call_loadPrivate Toy.ilib (Toy.exported_private Toy.alice (Toy.pin x07))
       (Toy.pin x07) (Identity.fresh Toy.ilib) = (Return tt, Toy.alice)
  /\ Identity.call_isPrivate Toy.ilib Toy.alice = Return true.
Proof.
  split; [exact toy_identity_contract|].
  split; [vm_compute; reflexivity|]. split; [vm_compute; reflexivity|].
  apply (loadPrivate_of_exportPrivate Toy.ilib "alice in wonderland" None x0a x0a x00
           Toy.alice (Toy.pin x07) (Toy.exported_private Toy.alice (Toy.pin x07))).
  - exact toy_identity_contract.
  - vm_compute. reflexivity.
  - vm_compute. reflexivity.
Defined.

(** X8. Public round trip.  The public export of an identity generated on
    a new object loads on another new object as a public-only identity
    with the same subject, algorithm, public key, signature and
    fingerprint and no secret; [sign], [decrypt] and [exportPrivate] are
    not on it. *)
Theorem loadPublic_of_exportPublic
    (L : Identity.Lib) (subject : string) (opts : option Identity.options)
    (sd1 sd2 : Identity.seed L) (st : Identity.state L) (buf : jsval) :
  Identity.Contract L ->
  Identity.call_generate L subject opts sd1 sd2 (Identity.fresh L) = (Return tt, st) ->
  Identity.call_exportPublic L st = Return buf ->
  exists st',
    Identity.call_loadPublic L buf (Identity.fresh L) = (Return tt, st')
    /\ Identity.call_isPrivate L st' = Return false
    /\ Identity.subjectBuf st' = Identity.subjectBuf st
    /\ Identity.algorithmName st' = Identity.algorithmName st
    /\ Identity.publicKeyBuf st' = Identity.publicKeyBuf st
    /\ Identity.signatureBuf st' = Identity.signatureBuf st
    /\ Identity.secretBuf st' = JUndefined
    /\ Identity.call_getFingerprint L st' = Identity.call_getFingerprint L st
    /\ (forall p sd, Identity.call_sign L st' p sd
                     = Throw (TypeError "sign is not a function"))
    /\ (forall c, Identity.call_decrypt L st' c
                  = Throw (TypeError "decrypt is not a function"))
    /\ (forall p sd, Identity.call_exportPrivate L st' p sd
                     = Throw (TypeError "exportPrivate is not a function")).
Proof.
  intros HC Hg He.
  change (Identity.call_generate L subject opts sd1 sd2 (Identity.fresh L))
    with (Identity.generate L subject opts sd1 sd2 (Identity.fresh L)) in Hg.
  destruct (generate_fresh L _ _ _ _ _ Hg)
    as (Hsub & a & c0 & c1 & Ha & E0 & E1 & E2 & E3 & _ & Hst).
  clear Hg. cbn zeta in *.
  destruct st as [sb sec pkb an sg ac idm ini]. cbn in *.
  injection Hst as -> -> -> -> ->.
  set (name := if truthy _ then _ else _) in *.
  unfold Identity.call_exportPublic, Identity.exportPublic in He. cbn in He.
  destruct (Identity.serializer_ok L HC _ _ He) as [Hb Hd].
  destruct (Identity.signature_ok L HC _ _ _ _ _ _ E1 E3) as [_ Hv].
  change (Identity.call_loadPublic L buf (Identity.fresh L))
    with (Identity.loadPublic L buf (Identity.fresh L)).
  unfold Identity.loadPublic, Identity.loadIdentityBuf.
  rewrite Hb. cbn [negb andb truthy]. munfold. rewrite Hd. cbn.
  rewrite (Identity.ascii_ok L HC), Hsub. cbn.
  rewrite <- (Identity.definition_ok L HC _ _ Ha), E0. cbn.
  destruct (Hv _ E2) as (c2 & E4 & Hv2).
  rewrite E4. cbn. rewrite Hv2. cbn. eexists. split; [reflexivity|].
  cbn. rewrite (Identity.definition_ok L HC _ _ Ha). repeat split.
Qed.

Lemma loadPublic_of_exportPublic_witness :
  Identity.Contract Toy.ilib
  /\ Identity.call_generate Toy.ilib "alice in wonderland" None x0a x0a
       (Identity.fresh Toy.ilib) = (Return tt, Toy.alice)
  /\ Identity.call_exportPublic Toy.ilib Toy.alice = Return (Toy.exported_public Toy.alice)
  /\ exists st',
      Identity.call_loadPublic Toy.ilib (Toy.exported_public Toy.alice)
        (Identity.fresh Toy.ilib) = (Return tt, st')
      /\ Identity.call_isPrivate Toy.ilib st' = Return false
      /\ Identity.call_getFingerprint Toy.ilib st'
         = Identity.call_getFingerprint Toy.ilib Toy.alice.
Proof.
  split; [exact toy_identity_contract|].
  split; [vm_compute; reflexivity|]. split; [vm_compute; reflexivity|].
  destruct (loadPublic_of_exportPublic Toy.ilib "alice in wonderland" None x0a x0a
              Toy.alice (Toy.exported_public Toy.alice) toy_identity_contract
              ltac:(vm_compute; reflexivity) ltac:(vm_compute; reflexivity))
    as (st' & H1 & H2 & _ & _ & _ & _ & _ & H3 & _).
  exists st'. repeat split; assumption.
Defined.

Section IdentityLoading.
Variable L : Identity.Lib.

(** [loadIdentityBuf] adds and deletes no method, and returns [true] when
    it returns. *)
Lemma loadIdentityBuf_initialized buf pinkey st :
  Identity.initialized (snd (Identity.loadIdentityBuf L buf pinkey st))
  = Identity.initialized st
  /\ (forall b, fst (Identity.loadIdentityBuf L buf pinkey st) = Return b -> b = true).
Proof.
  unfold Identity.loadIdentityBuf, Identity.getID. munfold.
  destruct st as [sb sec pkb an sg ac idm ini]. cbn.
  repeat (break_goal; cbn); split; try reflexivity; intros b0 H; congruence.
Qed.

Lemma generate_initialized subject opts sd1 sd2 st :
  Identity.initialized (snd (Identity.generate L subject opts sd1 sd2 st))
  = match fst (Identity.generate L subject opts sd1 sd2 st) with
    | Return _ => Some true
    | Throw _ => Identity.initialized st
    end.
Proof.
  unfold Identity.generate, Identity.initialize, Identity.getID. munfold.
  destruct st as [sb sec pkb an sg ac idm ini]. cbn.
  repeat (break_goal; cbn); reflexivity.
Qed.

End IdentityLoading.

(** X9. The self-signature is checked before an identity is usable.
    [loadPublic] on a new object returns only for a record that
    deserializes, whose subject passes the rule, and whose signature the
    cipher, given the stored public key, accepts over the identifier of
    that public key and subject; when the cipher refuses the signature or
    raises, the load fails with [enigma-identity-bad-self-signature] and
    the object stays uninitialized. *)
Theorem loadPublic_self_signature (L : Identity.Lib) (buf : jsval) :
  (forall st',
      Identity.call_loadPublic L buf (Identity.fresh L) = (Return tt, st') ->
      exists d c0 c v,
        isArrayBuffer buf = true
        /\ Identity.deserialize L buf = Return d
        /\ Identity.subjectRule_test (Identity.toASCII L (Identity.r_subject d)) = true
        /\ Identity.cipher_new L (Identity.r_algorithm d) = Return c0
        /\ Identity.setPublicKey L c0 (Identity.r_public d) = Return c
        /\ Identity.asym_verify L c
             (JArrayBuffer (Identity.mac L (Identity.r_public d) (Identity.r_subject d)))
             (Identity.r_signature d) = Return v
        /\ truthy v = true
        /\ st' = Identity.mkState L (Identity.r_subject d) JUndefined (Identity.r_public d)
                   (Identity.r_algorithm d) (Identity.r_signature d) (Some c)
                   (Some (Identity.mac L (Identity.r_public d) (Identity.r_subject d)))
                   (Some false))
  /\ (forall d c0 c,
      isArrayBuffer buf = true ->
      Identity.deserialize L buf = Return d ->
      Identity.subjectRule_test (Identity.toASCII L (Identity.r_subject d)) = true ->
      Identity.cipher_new L (Identity.r_algorithm d) = Return c0 ->
      Identity.setPublicKey L c0 (Identity.r_public d) = Return c ->
      match Identity.asym_verify L c
              (JArrayBuffer (Identity.mac L (Identity.r_public d) (Identity.r_subject d)))
              (Identity.r_signature d) with
      | Return v => truthy v = false
      | Throw _ => True
      end ->
      fst (Identity.call_loadPublic L buf (Identity.fresh L))
      = Throw (Error "enigma-identity-bad-self-signature")
      /\ Identity.initialized (snd (Identity.call_loadPublic L buf (Identity.fresh L)))
         = None).
Proof.
  change (Identity.call_loadPublic L buf (Identity.fresh L))
    with (Identity.loadPublic L buf (Identity.fresh L)).
  unfold Identity.loadPublic, Identity.loadIdentityBuf, Identity.getID, Identity.initialize.
  split.
  - intros st'. cbn [truthy andb]. munfold.
    destruct (isArrayBuffer buf) eqn:Hb; cbn; [|discriminate].
    destruct (Identity.deserialize L buf) as [d|] eqn:Hd; cbn; [|discriminate].
    destruct (Identity.subjectRule_test _) eqn:Hs; cbn; [|discriminate].
    destruct (Identity.cipher_new L _) as [c0|] eqn:E0; cbn; [|discriminate].
    destruct (Identity.setPublicKey L c0 _) as [c|] eqn:E1; cbn; [|discriminate].
    destruct (Identity.asym_verify L c _ _) as [v|] eqn:E2; cbn; [|discriminate].
    destruct (truthy v) eqn:Hv; cbn; [|discriminate].
    intros H. injection H as <-. exists d, c0, c, v. repeat split; assumption.
  - intros d c0 c Hb Hd Hs E0 E1 Hv. cbn [truthy andb]. munfold.
    rewrite Hb. cbn. rewrite Hd. cbn. rewrite Hs. cbn. rewrite E0. cbn. rewrite E1. cbn.
    destruct (Identity.asym_verify L c _ _) as [v|]; cbn.
    + rewrite Hv. cbn. split; reflexivity.
    + split; reflexivity.
Qed.

(** A record whose signature does not verify is refused. *)
Example loadPublic_bad_signature_run :
  fst (Identity.call_loadPublic Toy.ilib Toy.unsigned_public (Identity.fresh Toy.ilib))
  = Throw (Error "enigma-identity-bad-self-signature").
Proof. vm_compute. reflexivity. Qed.

(** X10. The identifier is memoized across a failed load.  On an object
    that is still uninitialized but on which [getID] has run, as it has
    when an earlier load got as far as the signature check, [loadPublic]
    checks the signature of the new record against the old identifier,
    and the identity it yields answers [getFingerprint] with the first ten
    bytes of the old identifier, whatever its own subject and public key
    are. *)
Theorem loadPublic_after_failed_load
    (L : Identity.Lib) (st st' : Identity.state L) (i : list byte) (buf : jsval) :
  Identity.initialized st = None ->
  Identity.identityID st = Some i ->
  Identity.call_loadPublic L buf st = (Return tt, st') ->
  Identity.call_getFingerprint L st' = Return (JArrayBuffer (firstn 10 i))
  /\ exists d c v,
      Identity.deserialize L buf = Return d
      /\ Identity.publicKeyBuf st' = Identity.r_public d
      /\ Identity.subjectBuf st' = Identity.r_subject d
      /\ Identity.asymCipher st' = Some c
      /\ Identity.asym_verify L c (JArrayBuffer i) (Identity.r_signature d) = Return v
      /\ truthy v = true.
Proof.
  intros Hi Hm. unfold Identity.call_loadPublic. rewrite Hi.
  unfold Identity.loadPublic, Identity.loadIdentityBuf, Identity.getID, Identity.initialize.
  cbn [truthy andb]. munfold.
  destruct st as [sb sec pkb an sg ac idm ini]. cbn in Hi, Hm. subst.
  destruct (isArrayBuffer buf) eqn:Hb; cbn; [|discriminate].
  destruct (Identity.deserialize L buf) as [d|] eqn:Hd; cbn; [|discriminate].
  destruct (Identity.subjectRule_test _) eqn:Hs; cbn; [|discriminate].
  destruct (Identity.cipher_new L _) as [c0|] eqn:E0; cbn; [|discriminate].
  destruct (Identity.setPublicKey L c0 _) as [c|] eqn:E1; cbn; [|discriminate].
  destruct (Identity.asym_verify L c _ _) as [v|] eqn:E2; cbn; [|discriminate].
  destruct (truthy v) eqn:Hv; cbn; [|discriminate].
  intros H. injection H as <-. split; [reflexivity|].
  exists d, c, v. repeat split; assumption.
Qed.

Lemma loadPublic_after_failed_load_witness :
  let st := snd (Identity.call_loadPublic Toy.ilib Toy.unsigned_public
                   (Identity.fresh Toy.ilib)) in
  let st' := snd (Identity.call_loadPublic Toy.ilib Toy.crossed_public st) in
  Identity.initialized st = None
  /\ Identity.identityID st = Identity.identityID Toy.alice
  /\ Identity.call_loadPublic Toy.ilib Toy.crossed_public st = (Return tt, st')
  /\ Identity.publicKeyBuf st' = Identity.publicKeyBuf Toy.bob
  /\ Identity.call_getFingerprint Toy.ilib st'
     = Identity.call_getFingerprint Toy.ilib Toy.alice.
Proof.
  cbv zeta.
  split; [vm_compute; reflexivity|]. split; [vm_compute; reflexivity|].
  split; [vm_compute; reflexivity|]. split; [vm_compute; reflexivity|].
  rewrite (proj1 (loadPublic_after_failed_load Toy.ilib
                    (snd (Identity.call_loadPublic Toy.ilib Toy.unsigned_public
                            (Identity.fresh Toy.ilib)))
                    (snd (Identity.call_loadPublic Toy.ilib Toy.crossed_public
                            (snd (Identity.call_loadPublic Toy.ilib Toy.unsigned_public
                                    (Identity.fresh Toy.ilib)))))
                    (Identity.mac Toy.ilib (Identity.publicKeyBuf Toy.alice)
                       (Identity.subjectBuf Toy.alice))
                    Toy.crossed_public
                    ltac:(vm_compute; reflexivity) ltac:(vm_compute; reflexivity)
                    ltac:(vm_compute; reflexivity))).
  vm_compute. reflexivity.
Defined.

(** On a new object the same record is refused: its signature is over
    another identifier than its own. *)
Example loadPublic_crossed_on_fresh_run :
  fst (Identity.call_loadPublic Toy.ilib Toy.crossed_public (Identity.fresh Toy.ilib))
  = Throw (Error "enigma-identity-bad-self-signature").
Proof. vm_compute. reflexivity. Qed.

(** X11. The fingerprint of an identity generated on a new object is the
    first ten bytes of the MAC of its public key and the ASCII bytes of
    its subject; it has at most ten bytes. *)
Theorem generated_fingerprint
    (L : Identity.Lib) (subject : string) (opts : option Identity.options)
    (sd1 sd2 : Identity.seed L) (st : Identity.state L) :
  Identity.call_generate L subject opts sd1 sd2 (Identity.fresh L) = (Return tt, st) ->
  exists fp,
    Identity.call_getFingerprint L st = Return (JArrayBuffer fp)
    /\ fp = firstn 10 (Identity.mac L (Identity.publicKeyBuf st)
                         (JArrayBuffer (Identity.encode_ascii L subject)))
    /\ (List.length fp <= 10)%nat.
Proof.
  intros Hg.
  change (Identity.call_generate L subject opts sd1 sd2 (Identity.fresh L))
    with (Identity.generate L subject opts sd1 sd2 (Identity.fresh L)) in Hg.
  destruct (generate_fresh L _ _ _ _ _ Hg) as (_ & a & c0 & c1 & _ & _ & _ & _ & _ & _ & Hst).
  cbn zeta in Hst. destruct st as [sb sec pkb an sg ac idm ini]. cbn in *.
  injection Hst as -> -> -> -> ->.
  eexists. split; [reflexivity|]. split; [reflexivity|].
  apply firstn_le_length.
Qed.

Lemma generated_fingerprint_witness :
  Identity.call_generate Toy.ilib "alice in wonderland" None x0a x0a
    (Identity.fresh Toy.ilib) = (Return tt, Toy.alice)
  /\ exists fp,
      Identity.call_getFingerprint Toy.ilib Toy.alice = Return (JArrayBuffer fp)
      /\ fp = firstn 10 (Identity.mac Toy.ilib (Identity.publicKeyBuf Toy.alice)
                           (JArrayBuffer (Identity.encode_ascii Toy.ilib
                                            "alice in wonderland")))
      /\ (List.length fp <= 10)%nat.
Proof.
  split; [vm_compute; reflexivity|].
  apply (generated_fingerprint Toy.ilib "alice in wonderland" None x0a x0a Toy.alice).
  vm_compute. reflexivity.
Defined.



(** A public-only identity asked to decrypt through the method body: the
    cipher's refusal comes out as the identity's own error. *)
Example identity_usage_errors_run :
  Identity.decrypt Toy.ilib Toy.bob_public (JArrayBuffer [x00; x0b])
  = Throw (Error "enigma-identity-unable-to-decrypt")
  /\ Identity.sign Toy.ilib Toy.alice (JStr "hello") x00
     = Throw (Error "enigma-invalid-input").
Proof. vm_compute. split; reflexivity. Qed.

(** X13. An identity is initialized once.  [generate], [loadPublic] and
    [loadPrivate] put the usage methods on the object and take themselves
    off it exactly when they return; when they raise, the three stay; and
    on an initialized object each of them raises [TypeError] and changes
    nothing. *)
Theorem identity_initialized_once
    (L : Identity.Lib) (st : Identity.state L) (subject : string)
    (opts : option Identity.options) (sd1 sd2 : Identity.seed L) (buf pinkey : jsval) :
  (Identity.initialized st = None ->
   Identity.initialized (snd (Identity.call_generate L subject opts sd1 sd2 st))
   = match fst (Identity.call_generate L subject opts sd1 sd2 st) with
     | Return _ => Some true
     | Throw _ => None
     end
   /\ Identity.initialized (snd (Identity.call_loadPublic L buf st))
      = match fst (Identity.call_loadPublic L buf st) with
        | Return _ => Some false
        | Throw _ => None
        end
   /\ Identity.initialized (snd (Identity.call_loadPrivate L buf pinkey st))
      = match fst (Identity.call_loadPrivate L buf pinkey st) with
        | Return _ => Some true
        | Throw _ => None
        end)
  /\ (Identity.initialized st <> None ->
      Identity.call_generate L subject opts sd1 sd2 st
      = (Throw (TypeError "generate is not a function"), st)
      /\ Identity.call_loadPublic L buf st
         = (Throw (TypeError "loadPublic is not a function"), st)
      /\ Identity.call_loadPrivate L buf pinkey st
         = (Throw (TypeError "loadPrivate is not a function"), st)).
Proof.
  unfold Identity.call_generate, Identity.call_loadPublic, Identity.call_loadPrivate.
  split.
  - intros Hi. rewrite Hi. repeat split.
    + rewrite generate_initialized, Hi. reflexivity.
    + unfold Identity.loadPublic, Identity.initialize. munfold.
      destruct (loadIdentityBuf_initialized L buf JUndefined st) as [H1 H2].
      destruct (Identity.loadIdentityBuf L buf JUndefined st) as [[b|e] s']; cbn in *.
      * rewrite (H2 b eq_refl). reflexivity.
      * rewrite H1. exact Hi.
    + unfold Identity.loadPrivate, Identity.initialize. munfold.
      destruct (loadIdentityBuf_initialized L buf pinkey st) as [H1 H2].
      destruct (Identity.loadIdentityBuf L buf pinkey st) as [[b|e] s']; cbn in *.
      * rewrite (H2 b eq_refl). reflexivity.
      * rewrite H1. exact Hi.
  - intros Hi. destruct (Identity.initialized st); [|congruence]. repeat split.
Qed.

(** * More on messages *)

Section MessageMore.
Variable L : Message.Lib.

Local Abbreviation has s m := (Message.has (Message.self s) m).

#[local] Arguments Nat.leb : simpl never.
#[local] Arguments Nat.ltb : simpl never.
#[local] Arguments Nat.eqb : simpl never.

(** Unpacking the payload either raises and leaves lists, plaintext and
    methods as they were, or takes the payload buffer (decompressed when
    the envelope says ['lzw']), reads a payload record with one signature
    per signer off it, and leaves the object with the content as
    plaintext, the lists of the record when it has signers, and
    [getPlaintext], and with signers [verify] and [getSigners], on it. *)
Lemma continueUnpackPayload_cases s :
  let out := Message.continueUnpackPayload L s in
  (Message.succeeded (fst out) = false
   /\ Message.signers (snd out) = Message.signers s
   /\ Message.signatures (snd out) = Message.signatures s
   /\ Message.receivers (snd out) = Message.receivers s
   /\ Message.decryptors (snd out) = Message.decryptors s
   /\ Message.plaintextBuf (snd out) = Message.plaintextBuf s
   /\ Message.clearSign (snd out) = Message.clearSign s
   /\ Message.mainKeyBuf (snd out) = Message.mainKeyBuf s
   /\ Message.self (snd out) = Message.self s)
  \/ (exists b pl,
        fst out = Return tt
        /\ ((Message.payloadCompression s = Some Message.NoCompression
             /\ b = Message.payloadBuf s)
            \/ (Message.payloadCompression s = Some Message.Lzw
                /\ Message.decompress L (Message.payloadBuf s) = Return b))
        /\ Message.payload_deserialize L b = Return pl
        /\ List.length (Message.p_signatures pl) = List.length (Message.p_signers pl)
        /\ let n := Nat.ltb 0 (List.length (Message.p_signers pl)) in
           let ms := Message.self s in
           snd out
           = Message.mkState (Message.p_content pl) (Message.mainKeyBuf s)
               (Message.receivers s) (Message.decryptors s)
               (if n then Message.p_signatures pl else Message.signatures s)
               (if n then Message.p_signers pl else Message.signers s)
               (Message.clearSign s) b (Message.payloadCompression s)
               (Message.mkMethods (Message.on_write ms) (Message.on_read ms)
                  (Message.on_sign ms) (Message.on_encrypt ms) (Message.on_done ms)
                  (Message.on_decrypt ms) (Message.on_getReceivers ms) true
                  (n || Message.on_verify ms) (n || Message.on_getSigners ms))).
Proof.
  unfold Message.continueUnpackPayload, Message.install. munfold.
  destruct s as [pt mk rc dc sgs sn cs pb pc ms]. cbn.
  destruct pc as [[|]|]; cbn.
  - destruct (Message.payload_deserialize L pb) as [pl|] eqn:Hp; cbn;
      [|left; repeat split].
    destruct (Nat.eqb _ _) eqn:Hl; cbn; [|left; repeat split].
    apply Nat.eqb_eq in Hl. right. exists pb, pl.
    split; [destruct (Nat.ltb 0 _); reflexivity|].
    split; [left; split; reflexivity|]. split; [exact Hp|]. split; [exact Hl|].
    destruct (Nat.ltb 0 _); reflexivity.
  - destruct (Message.decompress L pb) as [b|] eqn:Hd; cbn; [|left; repeat split].
    destruct (Message.payload_deserialize L b) as [pl|] eqn:Hp; cbn;
      [|left; repeat split].
    destruct (Nat.eqb _ _) eqn:Hl; cbn; [|left; repeat split].
    apply Nat.eqb_eq in Hl. right. exists b, pl.
    split; [destruct (Nat.ltb 0 _); reflexivity|].
    split; [right; split; reflexivity|]. split; [exact Hp|].
    split; [exact Hl|].
    destruct (Nat.ltb 0 _); reflexivity.
  - left. repeat split.
Qed.

Lemma continueUnpackPayload_aligned s :
  Message.aligned s -> Message.aligned (snd (Message.continueUnpackPayload L s)).
Proof.
  intros [H1 H2].
  destruct (continueUnpackPayload_cases s)
    as [(_ & E1 & E2 & E3 & E4 & _) | (b & pl & _ & _ & _ & Hl & E)]; cbn zeta in *.
  - unfold Message.aligned. rewrite E1, E2, E3, E4. split; assumption.
  - rewrite E. unfold Message.aligned. cbn.
    destruct (Nat.ltb 0 _); split; auto.
Qed.


#[local] Arguments Message.continueUnpackPayload : simpl never.

Lemma kept_refl s : Message.kept s s.
Proof. repeat split. Qed.

Lemma continueUnpackPayload_kept s :
  Message.succeeded (fst (Message.continueUnpackPayload L s)) = false ->
  Message.kept s (snd (Message.continueUnpackPayload L s)).
Proof.
  intros H.
  destruct (continueUnpackPayload_cases s)
    as [(_ & E1 & E2 & E3 & E4 & E5 & E6 & E7 & E8) | (b & pl & E & _)]; cbn zeta in *.
  - repeat split; assumption.
  - rewrite E in H. discriminate.
Qed.

(** [write] refuses what is not an [ArrayBuffer] and changes nothing
    then; otherwise it stores the plaintext and a fresh key of 64 bytes,
    and swaps [write] and [read] for [sign], and for [encrypt] unless the
    message is clear-signed. *)
Lemma write_cases p opts sd s :
  (isArrayBuffer p = false
   /\ Message.write L p opts sd s = (Throw (Error "enigma-invalid-input"), s))
  \/ (isArrayBuffer p = true
      /\ let cs := match opts with
                   | Some o => js_is_true (Message.clearsign o)
                   | None => false
                   end in
         let ms := Message.self s in
         Message.write L p opts sd s
         = (Return tt,
            Message.mkState p (Identity.srand_bytes (Message.I L) sd 64)
              (Message.receivers s) (Message.decryptors s)
              (Message.signatures s) (Message.signers s) cs
              (Message.payloadBuf s) (Message.payloadCompression s)
              (Message.mkMethods false false true (negb cs || Message.on_encrypt ms)
                 (Message.on_done ms) (Message.on_decrypt ms)
                 (Message.on_getReceivers ms) (Message.on_getPlaintext ms)
                 (Message.on_verify ms) (Message.on_getSigners ms)))).
Proof.
  unfold Message.write, Message.install, Message.delete. munfold.
  destruct s as [pt mk rc dc sgs sn cs pb pc ms]. cbn.
  destruct (isArrayBuffer p); cbn; [right | left; split; reflexivity].
  split; [reflexivity|].
  destruct opts as [o|]; cbn; [destruct (js_is_true _); cbn|]; reflexivity.
Qed.

(** [done] takes [sign] and [encrypt] off the object whatever happens.
    Clear-signed, it returns the serialized payload and stays on the
    object; otherwise it returns the envelope and goes as well. *)
Lemma done_cases sd s :
  let ms := Message.self s in
  let off2 := Message.set_self
                (Message.set_method Message.m_encrypt false
                   (Message.set_method Message.m_sign false ms)) s in
  let off3 := Message.set_self
                (Message.set_method Message.m_done false
                   (Message.set_method Message.m_encrypt false
                      (Message.set_method Message.m_sign false ms))) s in
  (exists e, Message.done L sd s = (Throw e, off2))
  \/ (exists pb,
        Message.clearSign s = true
        /\ Message.payload_serialize L
             (Message.mkPayload (Message.signers s) (Message.signatures s)
                (Message.plaintextBuf s)) = Return pb
        /\ Message.done L sd s = (Return pb, off2))
  \/ (exists B, Message.clearSign s = false
                /\ Message.done L sd s = (Return B, off3)).
Proof.
  unfold Message.done, Message.install, Message.delete. munfold.
  destruct s as [pt mk rc dc sgs sn cs pb pc ms]. cbn.
  destruct (Message.payload_serialize L _) as [b|e]; cbn; [|left; eauto].
  destruct cs; cbn; [right; left; eauto|].
  destruct (Message.compress L b) as [c|e]; cbn; [|left; eauto].
  destruct (Nat.ltb 0 _); cbn.
  - destruct (Identity.sym_encrypt _ mk c sd) as [x|e]; cbn; [|left; eauto].
    destruct (Message.envelope_serialize L _) as [B|e]; cbn; [|left; eauto].
    right; right; eauto.
  - destruct (Message.envelope_serialize L _) as [B|e]; cbn; [|left; eauto].
    right; right; eauto.
Qed.

(** [read] either raises and leaves methods, lists and plaintext as they
    were; or finds receivers in the envelope, stores them and swaps
    [write] and [read] for [decrypt] and [getReceivers]; or unpacks the
    payload of an envelope without receivers, or the buffer itself when
    it is no envelope, and takes [write] and [read] off the object. *)
Lemma read_cases b s :
  let out := Message.read L b s in
  (exists e, fst out = Throw e /\ Message.kept s (snd out))
  \/ (exists env,
        isArrayBuffer b = true
        /\ Message.envelope_deserialize L b = Return env
        /\ List.length (Message.e_receivers env) = List.length (Message.e_decryptors env)
        /\ (0 < List.length (Message.e_receivers env))%nat
        /\ let ms := Message.self s in
           out = (Return tt,
                  Message.mkState (Message.plaintextBuf s) (Message.mainKeyBuf s)
                    (Message.e_receivers env) (Message.e_decryptors env)
                    (Message.signatures s) (Message.signers s) (Message.clearSign s)
                    (Message.e_payload env) (Some (Message.e_compression env))
                    (Message.mkMethods false false (Message.on_sign ms)
                       (Message.on_encrypt ms) (Message.on_done ms) true true
                       (Message.on_getPlaintext ms) (Message.on_verify ms)
                       (Message.on_getSigners ms))))
  \/ (exists c p,
        isArrayBuffer b = true
        /\ ((exists env, Message.envelope_deserialize L b = Return env
                         /\ Message.e_receivers env = []
                         /\ Message.e_decryptors env = []
                         /\ c = Message.e_compression env /\ p = Message.e_payload env)
            \/ (throws (Message.envelope_deserialize L b)
                /\ c = Message.NoCompression /\ p = b))
        /\ let s0 := Message.set_payloadCompression (Some c)
                       (Message.set_payloadBuf p s) in
           fst (Message.continueUnpackPayload L s0) = Return tt
           /\ out = (Return tt,
                     Message.off_write_read (snd (Message.continueUnpackPayload L s0)))).
Proof.
  unfold Message.read, Message.install, Message.delete, Message.off_write_read. munfold.
  destruct s as [pt mk rc dc sgs sn cs pb pc ms]. cbn.
  destruct (isArrayBuffer b); cbn; [|left; eexists; split; [reflexivity|apply kept_refl]].
  destruct (Message.envelope_deserialize L b) as [[c er ed ep]|e] eqn:He; cbn.
  - destruct (Nat.eqb _ _) eqn:Hl; cbn;
      [|left; eexists; split; [reflexivity|repeat split]].
    apply Nat.eqb_eq in Hl.
    destruct (Nat.ltb 0 _) eqn:Hn; cbn.
    + apply Nat.ltb_lt in Hn. right; left.
      exists (Message.mkEnvelope c er ed ep). cbn. repeat split; auto.
    + apply Nat.ltb_ge in Hn.
      assert (er = []) by (destruct er; [reflexivity | cbn in Hn; lia]). subst er.
      assert (ed = []) by (destruct ed; [reflexivity | cbn in Hl; lia]). subst ed.
      match goal with
      | |- context [Message.continueUnpackPayload L ?x] =>
          pose proof (continueUnpackPayload_kept x) as Hk;
          destruct (Message.continueUnpackPayload L x) as [[[]|e] s'] eqn:Hc
      end; cbn in *.
      * right; right. exists c, ep. split; [reflexivity|]. split.
        { left. exists (Message.mkEnvelope c [] [] ep). cbn. repeat split. }
        cbn zeta.
        match goal with
        | |- context [Message.continueUnpackPayload L ?y] =>
            replace (Message.continueUnpackPayload L y) with (Return tt, s') by exact (eq_sym Hc)
        end.
        split; reflexivity.
      * left. eexists; split; [reflexivity|]. exact (Hk eq_refl).
  - match goal with
    | |- context [Message.continueUnpackPayload L ?x] =>
        pose proof (continueUnpackPayload_kept x) as Hk;
        destruct (Message.continueUnpackPayload L x) as [[[]|e'] s'] eqn:Hc
    end; cbn in *.
    + right; right. exists Message.NoCompression, b. split; [reflexivity|]. split.
      { right. repeat split. unfold throws. eauto. }
      cbn zeta.
      match goal with
      | |- context [Message.continueUnpackPayload L ?y] =>
          replace (Message.continueUnpackPayload L y) with (Return tt, s') by exact (eq_sym Hc)
      end.
      split; reflexivity.
    + left. eexists; split; [reflexivity|]. exact (Hk eq_refl).
Qed.


(** [decrypt] either raises before it has touched the object; or it has
    found the first receiver entry with the fingerprint of the identity,
    recovered the content key from the decryptor next to it and decrypted
    the payload with it, and goes on to unpack: when that raises,
    [decrypt] stays on the object, when it returns, [decrypt] and
    [getReceivers] go. *)
Lemma decrypt_cases d s :
  let out := Message.decrypt L d s in
  (exists e, out = (Throw e, s))
  \/ (exists fp i k b,
        Identity.call_isPrivate (Message.I L) d = Return true
        /\ Identity.call_getFingerprint (Message.I L) d = Return fp
        /\ Message.find_index (Identity.buffer_equal (Message.I L) fp)
             (Message.receivers s) = Some i
        /\ Identity.call_decrypt (Message.I L) d (Message.item (Message.decryptors s) i)
           = Return k
        /\ Identity.sym_decrypt (Message.I L) k (Message.payloadBuf s) = Return b
        /\ let c := Message.continueUnpackPayload L (Message.set_payloadBuf b s) in
           (exists e, fst c = Throw e /\ out = (Throw e, snd c))
           \/ (fst c = Return tt /\ out = (Return tt, Message.off_decrypt (snd c)))).
Proof.
  unfold Message.decrypt, Message.install, Message.delete, Message.off_decrypt. munfold.
  destruct s as [pt mk rc dc sgs sn cs pb pc ms]. cbn.
  destruct (Identity.call_isPrivate _ d) as [[|]|e] eqn:H1; cbn; eauto.
  destruct (Identity.call_getFingerprint _ d) as [fp|e] eqn:H2; cbn; eauto.
  destruct (Message.find_index _ rc) as [i|] eqn:H3; cbn; eauto.
  destruct (Identity.call_decrypt _ d _) as [k|e] eqn:H4; cbn; eauto.
  destruct (Identity.sym_decrypt _ k pb) as [b|e] eqn:H5; cbn; eauto.
  right. exists fp, i, k, b. do 5 (split; [first [reflexivity | assumption]|]). cbn zeta.
  match goal with
  | |- context [Message.continueUnpackPayload L ?x] =>
      destruct (Message.continueUnpackPayload L x) as [[[]|e] s']
  end; cbn; eauto.
Qed.

Lemma kept_aligned s s' : Message.kept s s' -> Message.aligned s -> Message.aligned s'.
Proof.
  intros (_ & _ & _ & _ & E1 & E2 & E3 & E4) [H1 H2].
  unfold Message.aligned. rewrite E1, E2, E3, E4. split; assumption.
Qed.

Lemma kept_blank s s' : Message.kept s s' -> Message.blank s -> Message.blank s'.
Proof.
  intros (E0 & Ep & _ & Ec & E1 & E2 & E3 & E4). unfold Message.blank.
  rewrite E0, Ep, Ec, E1, E2, E3, E4. exact (fun H => H).
Qed.

Lemma kept_locked s s' : Message.kept s s' -> Message.locked s -> Message.locked s'.
Proof.
  intros (E0 & Ep & _ & Ec & E1 & E2 & E3 & E4). unfold Message.locked.
  rewrite E0, Ep, Ec, E1, E3, E4. exact (fun H => H).
Qed.

Lemma read_side_false ms :
  Message.read_side ms = false ->
  Message.on_decrypt ms = false /\ Message.on_getReceivers ms = false
  /\ Message.on_getPlaintext ms = false /\ Message.on_verify ms = false
  /\ Message.on_getSigners ms = false.
Proof.
  unfold Message.read_side.
  destruct (Message.on_decrypt ms), (Message.on_getReceivers ms),
    (Message.on_getPlaintext ms), (Message.on_verify ms), (Message.on_getSigners ms);
    cbn; intros H; try discriminate; repeat split.
Qed.

(** The methods on the object tell its stage. *)
Lemma stage_of_method s m :
  Message.blank s \/ Message.written s \/ Message.locked s \/ Message.opened s ->
  has s m = true ->
  match m with
  | Message.m_write | Message.m_read => Message.blank s
  | Message.m_sign | Message.m_encrypt | Message.m_done => Message.written s
  | Message.m_decrypt | Message.m_getReceivers => Message.locked s
  | Message.m_getPlaintext | Message.m_verify | Message.m_getSigners => Message.opened s
  end.
Proof.
  intros [Hb | [Hw | [Hl | Ho]]] Hm.
  - pose proof Hb as (E & _). rewrite E in Hm. destruct m; cbn in Hm; try discriminate; exact Hb.
  - pose proof Hw as (E1 & E2 & E3 & _). apply read_side_false in E3.
    destruct E3 as (E3 & E4 & E5 & E6 & E7).
    destruct m; cbn in Hm; try congruence; exact Hw.
  - pose proof Hl as (E & _). rewrite E in Hm. destruct m; cbn in Hm; try discriminate; exact Hl.
  - pose proof Ho as (E & _). rewrite E in Hm. destruct m; cbn in Hm; try discriminate; exact Ho.
Qed.

Lemma exec_lifecycle o s :
  Message.lifecycle s -> Message.lifecycle (snd (Message.exec L o s)).
Proof.
  intros [Ha Hp].
  destruct (has s (Message.op_method L o)) eqn:Hm.
  2:{ rewrite (exec_absent L o s Hm). split; assumption. }
  rewrite (exec_present L o s Hm).
  pose proof (stage_of_method s _ Hp Hm) as Hst.
  destruct o; cbn [Message.op_method Message.op_body] in *.
  - (* write *)
    destruct (write_cases plaintext opts sd s) as [[_ E] | [Hb E]]; cbn zeta in E;
      rewrite E; cbn [snd]; [split; assumption|].
    destruct Hst as (E0 & Ep & Ec & E1 & E2 & E3 & E4).
    split.
    + unfold Message.aligned. cbn. rewrite E1, E2, E3, E4. split; reflexivity.
    + right; left. unfold Message.written. cbn. rewrite E0, E1. cbn.
      repeat split; auto.
      destruct opts as [o|]; [|discriminate].
      destruct (js_is_true _); [reflexivity | discriminate].
  - (* read *)
    destruct (read_cases textBuf s)
      as [(e & _ & K) | [(env & _ & _ & Hl & Hn & E)
                        | (c & p & _ & _ & Hc & E)]]; cbn zeta in *.
    + split; [exact (kept_aligned _ _ K Ha) | left; exact (kept_blank _ _ K Hst)].
    + rewrite E. cbn [snd].
      destruct Hst as (E0 & Ep & Ec & E1 & E2 & E3 & E4).
      split.
      * unfold Message.aligned. cbn. rewrite E3, E4. split; [reflexivity | exact Hl].
      * right; right; left. unfold Message.locked. cbn. rewrite E0, Ep, Ec, E3, E4. cbn.
        repeat split. intros H. rewrite H in Hn. inversion Hn.
    + rewrite E. cbn [snd].
      destruct Hst as (E0 & Ep & Ec & E1 & E2 & E3 & E4).
      match goal with
      | |- context [Message.continueUnpackPayload L ?x] =>
          destruct (continueUnpackPayload_cases x)
            as [(F & _) | (b & pl & _ & _ & _ & Hlen & F)]; cbn zeta in F
      end.
      { rewrite Hc in F. discriminate. }
      rewrite F. cbn. rewrite E0, E1, E2, E3, E4, Ec. cbn.
      split.
      * unfold Message.aligned. cbn. destruct (Nat.ltb 0 _); cbn; auto.
      * right; right; right. unfold Message.opened, Message.off_write_read. cbn.
        destruct (Nat.ltb 0 (List.length (Message.p_signers pl))) eqn:Hn; cbn;
          rewrite ?Hn; split; reflexivity.
  - (* sign *)
    pose proof Hst as (W1 & W2 & W3 & W4 & W5).
    destruct Ha as [A1 A2].
    destruct (sign_cases L withIdentity sd s) as [[e ->] | (fp & sig & _ & _ & _ & ->)];
      cbn [snd].
    + split; [split; assumption|]. right; left. exact Hst.
    + split.
      * unfold Message.aligned. cbn. rewrite !length_app, A1. split; [reflexivity | exact A2].
      * right; left. unfold Message.written. cbn.
        destruct s as [pt mk rc dc sgs sn cs pb pc [w r sg en dn de gr gp vf gs]].
        cbn in *. destruct (Nat.leb 255 _); cbn; repeat split; auto;
          try (apply W5; assumption); try (destruct W5; [assumption|]; congruence).
  - (* encrypt *)
    pose proof Hst as (W1 & W2 & W3 & W4 & W5).
    destruct Ha as [A1 A2].
    rewrite void_snd.
    destruct (encrypt_cases L toIdentity sd s) as [[e ->] | (fp & ct & _ & _ & ->)];
      cbn [snd].
    + split; [split; assumption|]. right; left. exact Hst.
    + split.
      * unfold Message.aligned. cbn. rewrite !length_app, A2. split; [exact A1 | reflexivity].
      * right; left. unfold Message.written. cbn.
        destruct s as [pt mk rc dc sgs sn cs pb pc [w r sg en dn de gr gp vf gs]].
        cbn in *. subst en.
        assert (Hcs : cs = false).
        { destruct cs; [|reflexivity]. destruct (W5 eq_refl). discriminate. }
        subst cs.
        destruct (Nat.leb 255 _); cbn; repeat split; auto; discriminate.
  - (* done *)
    pose proof Hst as (W1 & W2 & W3 & W4 & W5).
    rewrite void_snd.
    destruct s as [pt mk rc dc sgs sn cs pb pc [w r sg en dn de gr gp vf gs]].
    destruct (done_cases sd (Message.mkState pt mk rc dc sgs sn cs pb pc
                 (Message.mkMethods w r sg en dn de gr gp vf gs)))
      as [(e & E) | [(b & _ & _ & E) | (B & _ & E)]];
      cbn zeta in E; rewrite E; cbn in *.
    all: split; [exact Ha|]; right; left; unfold Message.written; cbn;
      repeat split; auto; try (apply W5; assumption).
  - (* decrypt *)
    pose proof Hst as (E0 & Ep & Ec & E3 & E4 & Er).
    destruct (decrypt_cases withIdentity s)
      as [[e E] | (fp & i & k & b & _ & _ & _ & _ & _ & [(e & Hc & E) | (Hc & E)])];
      cbn zeta in *; rewrite E; cbn [snd].
    + split; [exact Ha | right; right; left; exact Hst].
    + match goal with
      | |- context [Message.continueUnpackPayload L ?x] =>
          pose proof (continueUnpackPayload_kept x) as K
      end.
      rewrite Hc in K. specialize (K eq_refl).
      split.
      * eapply kept_aligned; [exact K|]. exact Ha.
      * right; right; left. eapply kept_locked; [exact K|]. exact Hst.
    + match goal with
      | |- context [Message.continueUnpackPayload L ?x] =>
          destruct (continueUnpackPayload_cases x)
            as [(F & _) | (b' & pl & _ & _ & _ & Hlen & F)]; cbn zeta in F
      end.
      { rewrite Hc in F. discriminate. }
      rewrite F. cbn. rewrite E0, E3, E4, Ec. cbn.
      destruct Ha as [A1 A2].
      split.
      * unfold Message.aligned. cbn. destruct (Nat.ltb 0 _); cbn; auto.
      * right; right; right. unfold Message.opened, Message.off_decrypt. cbn.
        destruct (Nat.ltb 0 (List.length (Message.p_signers pl))) eqn:Hn; cbn;
          rewrite ?Hn; split; reflexivity.
  - rewrite void_snd, verify_state. split; assumption.
  - cbn. split; assumption.
  - cbn. split; assumption.
  - cbn. split; assumption.
Qed.

Lemma lifecycle_fresh : Message.lifecycle Message.fresh.
Proof.
  split; [split; reflexivity|]. left. repeat split.
Qed.

Lemma run_lifecycle t s :
  Message.lifecycle s -> Message.lifecycle (snd (Message.run L t s)).
Proof.
  revert s. induction t as [|o t IH]; intros s H; [exact H|].
  rewrite run_cons. cbn [snd]. apply IH. apply exec_lifecycle. exact H.
Qed.

Lemma message_stages_aux t :
  let s := snd (Message.run L t Message.fresh) in
  Message.blank s \/ Message.written s \/ Message.locked s \/ Message.opened s.
Proof. exact (proj2 (run_lifecycle t Message.fresh lifecycle_fresh)). Qed.

End MessageMore.

Section MessageErrors.
Variable L : Message.Lib.

Local Abbreviation has s m := (Message.has (Message.self s) m).

#[local] Arguments Nat.leb : simpl never.
#[local] Arguments Nat.ltb : simpl never.
#[local] Arguments Nat.eqb : simpl never.

(** Whatever goes wrong while the payload is unpacked is reported as
    [enigma-invalid-input]. *)
Lemma continueUnpackPayload_error s e :
  fst (Message.continueUnpackPayload L s) = Throw e ->
  e = Error "enigma-invalid-input".
Proof.
  unfold Message.continueUnpackPayload, Message.install. munfold.
  destruct s as [pt mk rc dc sgs sn cs pb pc ms]. cbn.
  destruct pc as [[|]|]; cbn; repeat (break_goal; cbn); congruence.
Qed.

#[local] Arguments Message.continueUnpackPayload : simpl never.

Lemma read_error b s e :
  fst (Message.read L b s) = Throw e -> e = Error "enigma-invalid-input".
Proof.
  unfold Message.read, Message.install, Message.delete. munfold.
  destruct s as [pt mk rc dc sgs sn cs pb pc ms]. cbn.
  destruct (isArrayBuffer b); cbn; [|congruence].
  destruct (Message.envelope_deserialize L b) as [[c er ed ep]|e']; cbn.
  - destruct (Nat.eqb _ _); cbn; [|congruence].
    destruct (Nat.ltb 0 _); cbn; [discriminate|].
    match goal with
    | |- context [Message.continueUnpackPayload L ?x] =>
        pose proof (continueUnpackPayload_error x) as He;
        destruct (Message.continueUnpackPayload L x) as [[[]|e0] s']
    end; cbn in *; [discriminate|].
    intros H. injection H as <-. apply He. reflexivity.
  - match goal with
    | |- context [Message.continueUnpackPayload L ?x] =>
        pose proof (continueUnpackPayload_error x) as He;
        destruct (Message.continueUnpackPayload L x) as [[[]|e0] s']
    end; cbn in *; [discriminate|].
    intros H. injection H as <-. apply He. reflexivity.
Qed.

End MessageErrors.

(** X14. The stages of a message object.  Whatever calls are made on a
    new message object, in any order, returning or raising, the object is
    blank ([write] and [read] are its only methods), written (it has none
    of the methods of a blank or of a read one, and no receivers when it
    is clear-signed), locked ([decrypt] and [getReceivers] are its only
    methods and it holds no plaintext), or opened ([getPlaintext], and
    [verify] and [getSigners] exactly when it has signers, and nothing
    else). *)
Theorem message_stages (L : Message.Lib) (t : list (Message.op L)) :
  let s := snd (Message.run L t Message.fresh) in
  Message.blank s \/ Message.written s \/ Message.locked s \/ Message.opened s.
Proof.
  exact (proj2 (run_lifecycle L t Message.fresh (lifecycle_fresh))).
Qed.

(** X15. The parallel lists stay aligned.  Whatever calls are made on a
    new message object, it holds one signature per signer and one
    decryptor per receiver, so the index at which [verify] or [decrypt]
    finds a fingerprint is the index of an entry of the other list. *)
Theorem message_lists_aligned (L : Message.Lib) (t : list (Message.op L)) :
  let s := snd (Message.run L t Message.fresh) in
  Message.aligned s
  /\ (forall f i, Message.find_index f (Message.signers s) = Some i ->
                  (i < List.length (Message.signatures s))%nat)
  /\ (forall f i, Message.find_index f (Message.receivers s) = Some i ->
                  (i < List.length (Message.decryptors s))%nat).
Proof.
  cbn zeta.
  pose proof (proj1 (run_lifecycle L t Message.fresh (lifecycle_fresh))) as [H1 H2].
  split; [split; assumption|]. split; intros f i Hi.
  - rewrite <- H1. exact (proj1 (find_index_some f _ i Hi)).
  - rewrite <- H2. exact (proj1 (find_index_some f _ i Hi)).
Qed.

(** X16. [sign] and [encrypt] are all or nothing: a call that raises, for
    whatever reason, leaves the message object exactly as it was. *)
Theorem sign_encrypt_atomic (L : Message.Lib) (o : Message.op L) (s : Message.state) :
  Message.is_sign L o || Message.is_encrypt L o = true ->
  Message.succeeded (fst (Message.exec L o s)) = false ->
  snd (Message.exec L o s) = s.
Proof.
  intros Ho Hf.
  destruct (Message.has (Message.self s) (Message.op_method L o)) eqn:Hm.
  2:{ rewrite (exec_absent L o s Hm). reflexivity. }
  rewrite (exec_present L o s Hm) in *.
  destruct o; try discriminate; cbn [Message.op_body] in *.
  - destruct (sign_cases L withIdentity sd s) as [[e E] | (fp & sig & _ & _ & _ & E)];
      rewrite E in *; [reflexivity | discriminate].
  - rewrite void_snd. rewrite void_fst in Hf.
    destruct (encrypt_cases L toIdentity sd s) as [[e E] | (fp & ct & _ & _ & E)];
      rewrite E in *; [reflexivity | discriminate].
Qed.

Lemma sign_encrypt_atomic_witness :
  let o := Message.OpSign Toy.mlib Toy.alice_public x01 in
  Message.is_sign Toy.mlib o || Message.is_encrypt Toy.mlib o = true
  /\ Message.exec Toy.mlib o Toy.written
     = (Throw (Error "enigma-invalid-identity-for-sign"), Toy.written)
  /\ snd (Message.exec Toy.mlib o Toy.written) = Toy.written.
Proof.
  split; [reflexivity|]. split; [vm_compute; reflexivity|].
  apply (sign_encrypt_atomic Toy.mlib (Message.OpSign Toy.mlib Toy.alice_public x01)
           Toy.written); vm_compute; reflexivity.
Defined.

(** X17. [read] raises nothing but [enigma-invalid-input]: a value that
    is no [ArrayBuffer], an envelope whose receivers and decryptors differ
    in number, a payload that does not decompress or deserialize, or one
    whose signers and signatures differ in number.  The methods, the
    lists and the plaintext of the object are then as they were, so a
    blank object stays blank. *)
Theorem read_raises_invalid_input
    (L : Message.Lib) (b : jsval) (s : Message.state) (e : error) :
  Message.has (Message.self s) Message.m_read = true ->
  fst (Message.exec L (Message.OpRead L b) s) = Throw e ->
  let s' := snd (Message.exec L (Message.OpRead L b) s) in
  e = Error "enigma-invalid-input"
  /\ Message.self s' = Message.self s
  /\ Message.plaintextBuf s' = Message.plaintextBuf s
  /\ Message.receivers s' = Message.receivers s
  /\ Message.decryptors s' = Message.decryptors s
  /\ Message.signers s' = Message.signers s
  /\ Message.signatures s' = Message.signatures s
  /\ (Message.blank s -> Message.blank s').
Proof.
  intros Hm. rewrite (exec_present L (Message.OpRead L b) s Hm).
  cbn [Message.op_body]. intros He. cbn zeta.
  split; [exact (read_error L b s e He)|].
  destruct (read_cases L b s)
    as [(e' & _ & K) | [(env & _ & _ & _ & _ & E) | (c & p & _ & _ & _ & E)]];
    cbn zeta in *; try (rewrite E in He; discriminate).
  pose proof K as (K0 & K1 & _ & _ & K2 & K3 & K4 & K5).
  do 6 (split; [assumption|]). apply (kept_blank _ _ K).
Qed.

Lemma read_raises_invalid_input_witness :
  Message.has (Message.self Message.fresh) Message.m_read = true
  /\ fst (Message.exec Toy.mlib (Message.OpRead Toy.mlib (JArrayBuffer Toy.hello))
            Message.fresh) = Throw (Error "enigma-invalid-input")
  /\ Message.blank
       (snd (Message.exec Toy.mlib (Message.OpRead Toy.mlib (JArrayBuffer Toy.hello))
               Message.fresh)).
Proof.
  split; [reflexivity|]. split; [vm_compute; reflexivity|].
  apply (read_raises_invalid_input Toy.mlib (JArrayBuffer Toy.hello) Message.fresh
           (Error "enigma-invalid-input") eq_refl ltac:(vm_compute; reflexivity)).
  repeat split.
Defined.

(** X18. [done] spends a message.  On an object reached from a new one by
    any calls, and not clear-signed, a [done] that returns leaves no
    method at all on the object: every later call raises a [TypeError]
    and changes nothing. *)
Theorem done_spends_message
    (L : Message.Lib) (t : list (Message.op L)) (sd : Identity.seed (Message.I L))
    (B : jsval) :
  let s := snd (Message.run L t Message.fresh) in
  Message.clearSign s = false ->
  fst (Message.call Message.m_done (Message.done L sd) s) = Return B ->
  let s' := snd (Message.call Message.m_done (Message.done L sd) s) in
  (forall m, Message.has (Message.self s') m = false)
  /\ (forall o, Message.exec L o s' = (Throw (TypeError "not a function"), s')).
Proof.
  cbn zeta. intros Hcs HB.
  pose proof (message_stages_aux L t) as Hst.
  set (s := snd (Message.run L t Message.fresh)) in *.
  assert (Hm : Message.has (Message.self s) Message.m_done = true).
  { destruct (Message.has (Message.self s) Message.m_done) eqn:Hm; [reflexivity|].
    unfold Message.call in HB. rewrite Hm in HB. discriminate. }
  pose proof (stage_of_method s _ Hst Hm) as (W1 & W2 & W3 & _).
  apply read_side_false in W3. destruct W3 as (W3 & W4 & W5 & W6 & W7).
  unfold Message.call in *. rewrite Hm in *.
  assert (Hall : forall m,
             Message.has (Message.self (snd (Message.done L sd s))) m = false).
  { destruct (done_cases L sd s) as [(e & E) | [(b & Hc & _ & E) | (B2 & _ & E)]];
      cbn zeta in E.
    - rewrite E in HB. discriminate.
    - congruence.
    - rewrite E. cbn [snd].
      destruct s as [pt mk rc dc sgs sn cs pb pc [w r sg en dn de gr gp vf gs]].
      cbn in *. subst. intros m. destruct m; reflexivity. }
  split; [exact Hall|].
  intros o. apply exec_absent. apply Hall.
Qed.

(** ** Signatures across the round trip *)

Section MessageSignatures.
Variable L : Message.Lib.

Local Abbreviation has s m := (Message.has (Message.self s) m).
Local Abbreviation sign_or_encrypt :=
  (fun o => Message.is_sign L o || Message.is_encrypt L o).

#[local] Arguments Nat.leb : simpl never.
#[local] Arguments Nat.ltb : simpl never.
#[local] Arguments Nat.eqb : simpl never.

(** Unpacking a payload that decompresses, when it is compressed, and
    deserializes to a record with one signature per signer. *)
Lemma continueUnpackPayload_run s c b pl :
  Message.payloadCompression s = Some c ->
  match c with
  | Message.NoCompression => Return (Message.payloadBuf s)
  | Message.Lzw => Message.decompress L (Message.payloadBuf s)
  end = Return b ->
  Message.payload_deserialize L b = Return pl ->
  List.length (Message.p_signatures pl) = List.length (Message.p_signers pl) ->
  Message.continueUnpackPayload L s = (Return tt, Message.unpacked b pl s).
Proof.
  intros Hc Hb Hp Hl.
  unfold Message.continueUnpackPayload, Message.install, Message.unpacked. munfold.
  destruct s as [pt mk rc dc sgs sn cs pb pc ms]. cbn in *. subst pc.
  destruct c; cbn.
  - injection Hb as <-. rewrite Hp. cbn. rewrite Hl, Nat.eqb_refl. cbn.
    destruct (Nat.ltb 0 _); reflexivity.
  - rewrite Hb. cbn. rewrite Hp. cbn. rewrite Hl, Nat.eqb_refl. cbn.
    destruct (Nat.ltb 0 _); reflexivity.
Qed.

#[local] Arguments Message.continueUnpackPayload : simpl never.

(** Reading a buffer that is no envelope but a serialized payload. *)
Lemma read_payload B pl s :
  isArrayBuffer B = true ->
  throws (Message.envelope_deserialize L B) ->
  Message.payload_deserialize L B = Return pl ->
  List.length (Message.p_signatures pl) = List.length (Message.p_signers pl) ->
  Message.read L B s
  = (Return tt,
     Message.off_write_read
       (Message.unpacked B pl
          (Message.set_payloadBuf B
             (Message.set_payloadCompression (Some Message.NoCompression) s)))).
Proof.
  intros HB [e He] Hp Hl.
  unfold Message.read, Message.delete. munfold. rewrite HB, He. cbn.
  match goal with
  | |- context [Message.continueUnpackPayload L ?x] =>
      rewrite (continueUnpackPayload_run x Message.NoCompression B pl
                 eq_refl eq_refl Hp Hl)
  end.
  reflexivity.
Qed.

(** Reading an envelope without receivers. *)
Lemma read_envelope_open B c p b pl s :
  isArrayBuffer B = true ->
  Message.envelope_deserialize L B = Return (Message.mkEnvelope c [] [] p) ->
  match c with
  | Message.NoCompression => Return p
  | Message.Lzw => Message.decompress L p
  end = Return b ->
  Message.payload_deserialize L b = Return pl ->
  List.length (Message.p_signatures pl) = List.length (Message.p_signers pl) ->
  Message.read L B s
  = (Return tt,
     Message.off_write_read
       (Message.unpacked b pl
          (Message.set_payloadCompression (Some c) (Message.set_payloadBuf p s)))).
Proof.
  intros HB He Hb Hp Hl.
  unfold Message.read, Message.delete. munfold. rewrite HB, He. cbn.
  change (Nat.eqb 0 0) with true. change (Nat.ltb 0 0) with false. cbn.
  match goal with
  | |- context [Message.continueUnpackPayload L ?x] =>
      rewrite (continueUnpackPayload_run x c b pl eq_refl Hb Hp Hl)
  end.
  reflexivity.
Qed.

(** Decrypting with an identity whose first matching receiver entry it
    opens. *)
Lemma decrypt_run d s fp i K c x b pl :
  Message.payloadCompression s = Some c ->
  Identity.call_isPrivate (Message.I L) d = Return true ->
  Identity.call_getFingerprint (Message.I L) d = Return fp ->
  Message.find_index (Identity.buffer_equal (Message.I L) fp) (Message.receivers s) = Some i ->
  Identity.call_decrypt (Message.I L) d (Message.item (Message.decryptors s) i) = Return K ->
  Identity.sym_decrypt (Message.I L) K (Message.payloadBuf s) = Return x ->
  match c with
  | Message.NoCompression => Return x
  | Message.Lzw => Message.decompress L x
  end = Return b ->
  Message.payload_deserialize L b = Return pl ->
  List.length (Message.p_signatures pl) = List.length (Message.p_signers pl) ->
  Message.decrypt L d s
  = (Return tt, Message.off_decrypt (Message.unpacked b pl (Message.set_payloadBuf x s))).
Proof.
  intros Hc Hprv Hfp Hi HK Hs Hb Hp Hl.
  unfold Message.decrypt, Message.delete. munfold.
  rewrite Hprv, Hfp. cbn. rewrite Hi, HK, Hs. cbn.
  match goal with
  | |- context [Message.continueUnpackPayload L ?y] =>
      rewrite (continueUnpackPayload_run y c b pl Hc Hb Hp Hl)
  end.
  reflexivity.
Qed.

(** One [sign] or [encrypt] call that returns keeps the plaintext and the
    clear-sign flag, keeps every signer entry next to a signature over
    the plaintext made by one of the [sign] calls, and adds the
    fingerprint of the identity it was made with when it is [sign]. *)
Lemma exec_signing P all o s :
  Message.plaintextBuf s = P ->
  Message.signing L P all s ->
  In o all ->
  sign_or_encrypt o = true ->
  Message.succeeded (fst (Message.exec L o s)) = true ->
  let s' := snd (Message.exec L o s) in
  Message.plaintextBuf s' = P
  /\ Message.clearSign s' = Message.clearSign s
  /\ Message.signing L P all s'
  /\ (forall x, In x (Message.signers s) -> In x (Message.signers s'))
  /\ (forall r sd, o = Message.OpSign L r sd ->
        exists fr, Identity.call_getFingerprint (Message.I L) r = Return fr
                   /\ In fr (Message.signers s')).
Proof.
  intros HP HF Hin Ho Hok.
  pose proof (exec_succeeded_present L o s Hok) as Hm.
  rewrite (exec_present L o s Hm) in *.
  destruct o; try discriminate; cbn [Message.op_body] in *.
  - destruct (sign_cases L withIdentity sd s) as [[e E] | (fp & sig & _ & Hfp & Hsig & E)];
      rewrite E in *; cbn [fst snd Message.succeeded] in *; [congruence|].
    unfold Message.signing. cbn.
    split; [exact HP|]. split; [reflexivity|]. split; [|split].
    + apply Forall2_app; [exact HF|]. constructor; [|constructor].
      exists withIdentity, sd. rewrite <- HP. auto.
    + intros x Hx. apply in_or_app. left. exact Hx.
    + intros r sd0 Hr. injection Hr as <- <-. exists fp. split; [exact Hfp|].
      apply in_or_app. right. left. reflexivity.
  - rewrite void_snd. rewrite void_fst in Hok.
    destruct (encrypt_cases L toIdentity sd s) as [[e E] | (fp & ct & _ & _ & E)];
      rewrite E in *; cbn [fst snd Message.succeeded] in *; [congruence|].
    unfold Message.signing. cbn.
    split; [exact HP|]. split; [reflexivity|]. split; [exact HF|].
    split; [auto|]. intros r sd0 Hr. discriminate.
Qed.

Lemma run_signing P all t s :
  Message.plaintextBuf s = P ->
  Message.signing L P all s ->
  incl t all ->
  forallb sign_or_encrypt t = true ->
  forallb Message.succeeded (fst (Message.run L t s)) = true ->
  let s' := snd (Message.run L t s) in
  Message.plaintextBuf s' = P
  /\ Message.clearSign s' = Message.clearSign s
  /\ Message.signing L P all s'
  /\ (forall x, In x (Message.signers s) -> In x (Message.signers s'))
  /\ (forall r sd, In (Message.OpSign L r sd) t ->
        exists fr, Identity.call_getFingerprint (Message.I L) r = Return fr
                   /\ In fr (Message.signers s')).
Proof.
  revert s. induction t as [|o t IH]; intros s HP HF Hin Ht Hok.
  - cbn. repeat split; auto. intros r sd [].
  - cbn [forallb] in Ht. apply andb_true_iff in Ht. destruct Ht as [Ho Ht].
    rewrite run_cons in *. cbn [fst snd forallb] in *.
    apply andb_true_iff in Hok. destruct Hok as [Hok1 Hok].
    destruct (exec_signing P all o s HP HF (Hin o (or_introl eq_refl)) Ho Hok1)
      as (P1 & C1 & F1 & K1 & E1).
    destruct (IH (snd (Message.exec L o s)) P1 F1
                (fun x Hx => Hin x (or_intror Hx)) Ht Hok) as (P2 & C2 & F2 & K2 & E2).
    split; [exact P2|]. split; [congruence|]. split; [exact F2|]. split; [auto|].
    intros r sd [-> | Hr].
    + destruct (E1 r sd eq_refl) as (fr & Hfr & Hi). exists fr. auto.
    + apply (E2 r sd Hr).
Qed.

(** [verify] with a signer of a message whose signatures were made over
    its plaintext answers [true]. *)
Lemma verify_signer a calls all s P :
  Message.plaintextBuf s = P ->
  Message.signing L P all s ->
  incl calls all ->
  (forall r sd, In (Message.OpSign L r sd) calls ->
     exists fr, Identity.call_getFingerprint (Message.I L) r = Return fr
                /\ In fr (Message.signers s)) ->
  (forall r sd, In (Message.OpSign L r sd) all -> In (Message.OpSign L r sd) calls) ->
  Message.signer L a calls ->
  Message.verify L a s = (Return (JBool true), s).
Proof.
  intros HP HF Hincl Hall Hback (fp & Hfp & (r & sd & fr & Hin & Hfr & Heq) & Hv).
  destruct (Hall r sd Hin) as (fr' & Hfr' & Hinr).
  rewrite Hfr in Hfr'. injection Hfr' as <-.
  destruct (find_index_exists (Identity.buffer_equal (Message.I L) fp)
              (Message.signers s) (ex_intro _ fr (conj Hinr Heq))) as [i Hi].
  destruct (find_index_some _ _ _ Hi) as (Hlt & Hmatch & _).
  destruct (Forall2_item _ _ _ i HF Hlt) as (r' & sd' & Hin' & Hfr'' & Hsig).
  pose proof (Hv r' sd' _ (Hback _ _ Hin') Hfr'' Hmatch _ _ _ Hsig) as Hver.
  unfold Message.verify. munfold. rewrite Hfp. cbn. rewrite Hi, HP, Hver. reflexivity.
Qed.

(** What [done] returns on a clear-signed message. *)
Lemma done_returns_clearsign sd s B :
  fst (Message.call Message.m_done (Message.done L sd) s) = Return B ->
  Message.clearSign s = true ->
  Message.payload_serialize L
    (Message.mkPayload (Message.signers s) (Message.signatures s) (Message.plaintextBuf s))
  = Return B.
Proof.
  unfold Message.call. intros H Hc.
  destruct (Message.has (Message.self s) Message.m_done); [|discriminate].
  destruct (done_cases L sd s) as [(e & E) | [(b & _ & Hb & E) | (B' & Hc' & _)]];
    cbn zeta in *; try congruence.
  - rewrite E in H. discriminate.
  - rewrite E in H. cbn in H. congruence.
Qed.

End MessageSignatures.

Section MessageSigned.
Variable L : Message.Lib.

#[local] Arguments Nat.leb : simpl never.
#[local] Arguments Nat.ltb : simpl never.
#[local] Arguments Nat.eqb : simpl never.

Lemma forallb_is_sign (t : list (Message.op L)) :
  forallb (Message.is_sign L) t = true ->
  forallb (fun o => Message.is_sign L o || Message.is_encrypt L o) t = true.
Proof.
  induction t as [|o t IH]; cbn; [reflexivity|].
  intros H. apply andb_true_iff in H. destruct H as [H1 H2].
  rewrite H1, (IH H2). reflexivity.
Qed.

(** [verify] on an object on which a payload naming the signers of a
    signed message was unpacked. *)
Lemma verify_unpacked a calls s1 b s P :
  Message.plaintextBuf s1 = P ->
  Message.signing L P calls s1 ->
  (forall r sd, In (Message.OpSign L r sd) calls ->
     exists fr, Identity.call_getFingerprint (Message.I L) r = Return fr
                /\ In fr (Message.signers s1)) ->
  Message.signer L a calls ->
  let s' := Message.unpacked b
              (Message.mkPayload (Message.signers s1) (Message.signatures s1) P) s in
  Message.on_verify (Message.self s') = true
  /\ forall ms, Message.verify L a (Message.set_self ms s') = (Return (JBool true), Message.set_self ms s').
Proof.
  intros HP HF Hall Hs. cbn zeta.
  assert (Hn : Nat.ltb 0 (List.length (Message.signers s1)) = true).
  { destruct Hs as (fp & _ & (r & sd & fr & Hin & _) & _).
    destruct (Hall r sd Hin) as (fr' & _ & Hi).
    apply Nat.ltb_lt. destruct (Message.signers s1); [destruct Hi | cbn; lia]. }
  unfold Message.unpacked. cbn -[Message.verify]. rewrite Hn. cbn -[Message.verify].
  split; [reflexivity|].
  intros ms.
  apply (verify_signer L a calls calls _ P); cbn; auto.
  - exact (incl_refl calls).
Qed.

End MessageSigned.

(** X19. Round trip of a clear-signed message.  A plaintext buffer is
    written with [clearsign: true], any number of [sign] calls are made
    and return, and [done] returns a buffer that no envelope
    deserializes from.  Read on a new object, that buffer gives the
    plaintext back, and [verify] answers [true] for every identity that
    is one of the signers. *)
Theorem clearsign_roundtrip
    (L : Message.Lib) (P : list byte) (o : Message.woptions)
    (sd0 sdd : Identity.seed (Message.I L))
    (calls : list (Message.op L)) (B : jsval) :
  Message.Contract L ->
  js_is_true (Message.clearsign o) = true ->
  forallb (Message.is_sign L) calls = true ->
  let w := Message.run L (Message.OpWrite L (JArrayBuffer P) (Some o) sd0 :: calls)
             Message.fresh in
  forallb Message.succeeded (fst w) = true ->
  fst (Message.call Message.m_done (Message.done L sdd) (snd w)) = Return B ->
  isArrayBuffer B = true ->
  throws (Message.envelope_deserialize L B) ->
  fst ((Message.call Message.m_read (Message.read L B) ;;;
        Message.call Message.m_getPlaintext Message.getPlaintext) Message.fresh)
  = Return (JArrayBuffer P)
  /\ (forall a,
        Message.signer L a calls ->
        fst ((Message.call Message.m_read (Message.read L B) ;;;
              Message.call Message.m_verify (Message.verify L a)) Message.fresh)
        = Return (JBool true)).
Proof.
  intros HC Ho Hcalls w Hok HB HBuf Hnoenv. unfold w in *. clear w.
  rewrite run_cons in Hok, HB. cbn [fst snd forallb] in Hok, HB.
  apply andb_true_iff in Hok. destruct Hok as [_ Hok].
  set (s0 := snd (Message.exec L (Message.OpWrite L (JArrayBuffer P) (Some o) sd0)
                    Message.fresh)) in *.
  assert (H0 : Message.plaintextBuf s0 = JArrayBuffer P
               /\ Message.clearSign s0 = true
               /\ Message.signers s0 = [] /\ Message.signatures s0 = []).
  { unfold s0. cbn. unfold Message.write, Message.install, Message.delete. munfold.
    cbn. rewrite Ho. cbn. repeat split. }
  destruct H0 as (P0 & C0 & S0 & G0).
  assert (F0 : Message.signing L (JArrayBuffer P) calls s0).
  { unfold Message.signing. rewrite S0, G0. constructor. }
  destruct (run_signing L _ calls calls s0 P0 F0 (incl_refl calls)
              (forallb_is_sign L calls Hcalls) Hok) as (P1 & C1 & F1 & _ & E1).
  set (s1 := snd (Message.run L calls s0)) in *.
  rewrite C0 in C1.
  pose proof (done_returns_clearsign L sdd s1 B HB C1) as D1. rewrite P1 in D1.
  pose proof (Message.payload_roundtrip L HC _ _ D1) as Hpl.
  pose proof (Forall2_length F1) as Hlen. symmetry in Hlen.
  pose proof (read_payload L B _ Message.fresh HBuf Hnoenv Hpl Hlen) as Er.
  split.
  - unfold Message.call, Message.getPlaintext. munfold. cbn -[Message.read].
    rewrite Er. reflexivity.
  - intros a Ha.
    match type of Er with
    | _ = (_, Message.off_write_read (Message.unpacked _ _ ?x)) =>
        destruct (verify_unpacked L a calls s1 B x _ P1 F1 E1 Ha) as [Hv1 Hv2]
    end.
    unfold Message.call. munfold. cbn -[Message.read Message.verify].
    rewrite Er. cbn -[Message.verify Message.unpacked].
    unfold Message.off_write_read.
    cbn -[Message.verify Message.unpacked] in *.
    rewrite Hv1. rewrite Hv2. reflexivity.
Qed.

Lemma toy_alice_vouches : Message.vouches Toy.mlib Toy.alice_public Toy.alice.
Proof.
  assert (Hp : Identity.initialized Toy.alice_public = Some false
               /\ Identity.asymCipher Toy.alice_public
                  = Some (Toy.mkCipher None (repeat x0a 4)))
    by (vm_compute; split; reflexivity).
  assert (Hs : Identity.initialized Toy.alice = Some true
               /\ Identity.asymCipher Toy.alice
                  = Some (Toy.mkCipher (Some (repeat x0a 4)) (repeat x0a 4)))
    by (vm_compute; split; reflexivity).
  destruct Hp as [Hp1 Hp2]. destruct Hs as [Hs1 Hs2].
  intros p sd sig.
  unfold Identity.call_sign, Identity.call_verify, Identity.sign, Identity.verify.
  cbn [Message.I Toy.mlib]. rewrite Hp1, Hp2, Hs1, Hs2.
  destruct p; cbn; try discriminate.
  intros H. injection H as <-. cbn.
  rewrite bytes_eqb_refl. reflexivity.
Qed.

Lemma toy_alice_signer_clear :
  Message.signer Toy.mlib Toy.alice_public Toy.clear_calls.
Proof.
  exists (Toy.fingerprint_of Toy.alice). split; [vm_compute; reflexivity|]. split.
  - exists Toy.alice, x01, (Toy.fingerprint_of Toy.alice).
    split; [left; reflexivity|]. split; vm_compute; reflexivity.
  - intros r sd fr [H|[H|[]]]; injection H as <- <-.
    + intros _ _. exact toy_alice_vouches.
    + intros Hfr. vm_compute in Hfr. injection Hfr as <-. vm_compute. discriminate.
Qed.

Lemma clearsign_roundtrip_witness :
  Message.Contract Toy.mlib
  /\ forallb Message.succeeded
       (fst (Message.run Toy.mlib
               (Message.OpWrite Toy.mlib (JArrayBuffer Toy.hello)
                  (Some (Message.mkWoptions (JBool true))) x33 :: Toy.clear_calls)
               Message.fresh)) = true
  /\ fst (Message.call Message.m_done (Message.done Toy.mlib x03) Toy.clear_written)
     = Return Toy.clear_signed
  /\ isArrayBuffer Toy.clear_signed = true
  /\ throws (Message.envelope_deserialize Toy.mlib Toy.clear_signed)
  /\ Message.signer Toy.mlib Toy.alice_public Toy.clear_calls
  /\ fst ((Message.call Message.m_read (Message.read Toy.mlib Toy.clear_signed) ;;;
           Message.call Message.m_verify (Message.verify Toy.mlib Toy.alice_public))
            Message.fresh)
     = Return (JBool true).
Proof.
  split; [exact toy_message_contract|].
  split; [vm_compute; reflexivity|].
  split; [vm_compute; reflexivity|].
  split; [vm_compute; reflexivity|].
  split; [vm_compute; eexists; reflexivity|].
  split; [exact toy_alice_signer_clear|].
  apply (proj2 (clearsign_roundtrip Toy.mlib Toy.hello (Message.mkWoptions (JBool true))
                  x33 x03 Toy.clear_calls Toy.clear_signed toy_message_contract
                  eq_refl eq_refl
                  ltac:(vm_compute; reflexivity) ltac:(vm_compute; reflexivity)
                  ltac:(vm_compute; reflexivity)
                  ltac:(vm_compute; eexists; reflexivity))).
  exact toy_alice_signer_clear.
Defined.

(** X20. Signatures survive the round trip.  A plaintext buffer is
    written, [sign] and [encrypt] calls are made and return, and [done]
    returns a buffer.  Once that buffer is read on a new object, and
    decrypted by a recipient when [encrypt] was called, [verify] answers
    [true] for every identity that is one of the signers. *)
Theorem message_signatures_roundtrip
    (L : Message.Lib) (P : list byte) (sd0 sdd : Identity.seed (Message.I L))
    (calls : list (Message.op L)) (B : jsval) (a : Message.identity L) :
  Message.Contract L ->
  forallb (fun o => Message.is_sign L o || Message.is_encrypt L o) calls = true ->
  let w := Message.run L (Message.OpWrite L (JArrayBuffer P) None sd0 :: calls)
             Message.fresh in
  forallb Message.succeeded (fst w) = true ->
  fst (Message.call Message.m_done (Message.done L sdd) (snd w)) = Return B ->
  Message.signer L a calls ->
  (existsb (Message.is_encrypt L) calls = false ->
   fst ((Message.call Message.m_read (Message.read L B) ;;;
         Message.call Message.m_verify (Message.verify L a)) Message.fresh)
   = Return (JBool true))
  /\ (forall d,
      existsb (Message.is_encrypt L) calls = true ->
      Identity.call_isPrivate (Message.I L) d = Return true ->
      Message.recipient L d calls ->
      fst ((Message.call Message.m_read (Message.read L B) ;;;
            Message.call Message.m_decrypt (Message.decrypt L d) ;;;
            Message.call Message.m_verify (Message.verify L a)) Message.fresh)
      = Return (JBool true)).
Proof.
  intros HC Hcalls w Hok HB Ha. unfold w in *. clear w.
  rewrite run_cons in Hok, HB. cbn [fst snd forallb] in Hok, HB.
  destruct (write_fresh L P sd0 calls) as (_ & W0 & R0). cbn zeta in W0, R0.
  apply andb_true_iff in Hok. destruct Hok as [_ Hok].
  set (s0 := snd (Message.exec L (Message.OpWrite L (JArrayBuffer P) None sd0)
                    Message.fresh)) in *.
  assert (F0 : Message.signing L (JArrayBuffer P) calls s0) by (cbn; constructor).
  destruct (run_writing L _ _ calls calls s0 W0 (incl_refl calls) Hcalls Hok)
    as (W1 & _ & E1 & N1).
  destruct (run_signing L (JArrayBuffer P) calls calls s0 eq_refl F0 (incl_refl calls)
              Hcalls Hok)
    as (P1 & _ & F1 & _ & G1).
  set (s1 := snd (Message.run L calls s0)) in *.
  destruct W1 as (HP & HK & Hcs & Hlen & HF).
  destruct (done_returns L sdd s1 B HB Hcs) as (pb & cb & eb & D1 & D2 & D3 & D4).
  rewrite HP in D1. rewrite HK in D3.
  destruct (Message.envelope_roundtrip L HC _ _ D4) as [HBuf Henv].
  pose proof (Message.compress_roundtrip L HC _ _ D2) as Hdec.
  pose proof (Message.payload_roundtrip L HC _ _ D1) as Hpl.
  pose proof (Forall2_length HF) as Hrd.
  split.
  - intros Hnone. specialize (N1 Hnone). rewrite R0 in N1.
    rewrite N1 in *. destruct (Message.decryptors s1) as [|x l]; [|discriminate].
    cbn in D3. subst eb.
    pose proof (read_envelope_open L B Message.Lzw cb pb _ Message.fresh
                  HBuf Henv Hdec Hpl Hlen) as Er.
    match type of Er with
    | _ = (_, Message.off_write_read (Message.unpacked _ _ ?x)) =>
        destruct (verify_unpacked L a calls s1 pb x _ P1 F1 G1 Ha) as [Hv1 Hv2]
    end.
    unfold Message.call. munfold. cbn -[Message.read Message.verify].
    rewrite Er. cbn -[Message.verify Message.unpacked].
    unfold Message.off_write_read.
    cbn -[Message.verify Message.unpacked] in *.
    rewrite Hv1. rewrite Hv2. reflexivity.
  - intros d Hsome Hprv (fp & Hfp & (r & sd & fr & Hin & Hfr & Heq) & Hopen).
    destruct (E1 r sd Hin) as (fr' & Hfr' & Hinr).
    rewrite Hfr in Hfr'. injection Hfr' as <-.
    destruct (find_index_exists (Identity.buffer_equal (Message.I L) fp)
                (Message.receivers s1) (ex_intro _ fr (conj Hinr Heq))) as [i Hi].
    destruct (find_index_some _ _ _ Hi) as (Hlt & Hmatch & _).
    destruct (Forall2_item _ _ _ i HF Hlt) as (r' & sd' & Hin' & Hfr'' & Hct).
    pose proof (Hopen r' sd' _ Hin' Hfr'' Hmatch _ _ _ Hct) as Hkey.
    assert (Hpos : Nat.ltb 0 (List.length (Message.decryptors s1)) = true)
      by (apply Nat.ltb_lt; lia).
    rewrite Hpos in D3.
    pose proof (Message.symmetric_roundtrip L HC _ _ _ _ D3) as Hsym.
    unfold Message.call. munfold.
    cbn -[Message.read Message.decrypt Message.verify].
    rewrite (read_locked L B _ _ eb HBuf Henv Hrd) by lia.
    cbn -[Message.decrypt Message.verify].
    match goal with
    | |- context [Message.decrypt L d ?x] =>
        pose proof (decrypt_run L d x fp i _ Message.Lzw cb pb _
                      eq_refl Hprv Hfp Hi Hkey Hsym Hdec Hpl Hlen) as Ed;
        rewrite Ed
    end.
    match type of Ed with
    | _ = (_, Message.off_decrypt (Message.unpacked _ _ ?x)) =>
        destruct (verify_unpacked L a calls s1 pb x _ P1 F1 G1 Ha) as [Hv1 Hv2]
    end.
    cbn -[Message.verify Message.unpacked].
    unfold Message.off_decrypt.
    cbn -[Message.verify Message.unpacked] in *.
    rewrite Hv1. rewrite Hv2. reflexivity.
Qed.

Lemma toy_alice_signer :
  Message.signer Toy.mlib Toy.alice_public
    [Message.OpSign Toy.mlib Toy.alice x01; Message.OpEncrypt Toy.mlib Toy.bob_public x02].
Proof.
  exists (Toy.fingerprint_of Toy.alice). split; [vm_compute; reflexivity|]. split.
  - exists Toy.alice, x01, (Toy.fingerprint_of Toy.alice).
    split; [left; reflexivity|]. split; vm_compute; reflexivity.
  - intros r sd fr [H|[H|[]]]; [|discriminate].
    injection H as <- <-. intros _ _. exact toy_alice_vouches.
Qed.

Lemma message_signatures_roundtrip_witness :
  Message.Contract Toy.mlib
  /\ forallb Message.succeeded
       (fst (Message.run Toy.mlib
               [Message.OpWrite Toy.mlib (JArrayBuffer Toy.hello) None x33;
                Message.OpSign Toy.mlib Toy.alice x01;
                Message.OpEncrypt Toy.mlib Toy.bob_public x02]
               Message.fresh)) = true
  /\ fst (Message.call Message.m_done (Message.done Toy.mlib x03) Toy.written)
     = Return Toy.sealed
  /\ Message.signer Toy.mlib Toy.alice_public
       [Message.OpSign Toy.mlib Toy.alice x01; Message.OpEncrypt Toy.mlib Toy.bob_public x02]
  /\ Identity.call_isPrivate Toy.ilib Toy.bob = Return true
  /\ Message.recipient Toy.mlib Toy.bob
       [Message.OpSign Toy.mlib Toy.alice x01; Message.OpEncrypt Toy.mlib Toy.bob_public x02]
  /\ fst ((Message.call Message.m_read (Message.read Toy.mlib Toy.sealed) ;;;
           Message.call Message.m_decrypt (Message.decrypt Toy.mlib Toy.bob) ;;;
           Message.call Message.m_verify (Message.verify Toy.mlib Toy.alice_public))
            Message.fresh)
     = Return (JBool true).
Proof.
  split; [exact toy_message_contract|].
  split; [vm_compute; reflexivity|].
  split; [vm_compute; reflexivity|].
  split; [exact toy_alice_signer|].
  split; [vm_compute; reflexivity|].
  split; [exact toy_bob_recipient|].
  apply (proj2 (message_signatures_roundtrip Toy.mlib Toy.hello x33 x03
                  [Message.OpSign Toy.mlib Toy.alice x01;
                   Message.OpEncrypt Toy.mlib Toy.bob_public x02]
                  Toy.sealed Toy.alice_public toy_message_contract eq_refl
                  ltac:(vm_compute; reflexivity) ltac:(vm_compute; reflexivity)
                  toy_alice_signer)).
  - reflexivity.
  - vm_compute. reflexivity.
  - exact toy_bob_recipient.
Defined.

Lemma done_spends_message_witness :
  let t := [Message.OpWrite Toy.mlib (JArrayBuffer Toy.hello) None x33;
            Message.OpSign Toy.mlib Toy.alice x01;
            Message.OpEncrypt Toy.mlib Toy.bob_public x02] in
  Message.clearSign (snd (Message.run Toy.mlib t Message.fresh)) = false
  /\ fst (Message.call Message.m_done (Message.done Toy.mlib x03)
            (snd (Message.run Toy.mlib t Message.fresh))) = Return Toy.sealed
  /\ forall o,
       Message.exec Toy.mlib o
         (snd (Message.call Message.m_done (Message.done Toy.mlib x03)
                 (snd (Message.run Toy.mlib t Message.fresh))))
       = (Throw (TypeError "not a function"),
          snd (Message.call Message.m_done (Message.done Toy.mlib x03)
                 (snd (Message.run Toy.mlib t Message.fresh)))).
Proof.
  cbn zeta.
  split; [vm_compute; reflexivity|]. split; [vm_compute; reflexivity|].
  apply (done_spends_message Toy.mlib
           [Message.OpWrite Toy.mlib (JArrayBuffer Toy.hello) None x33;
            Message.OpSign Toy.mlib Toy.alice x01;
            Message.OpEncrypt Toy.mlib Toy.bob_public x02] x03 Toy.sealed);
    vm_compute; reflexivity.
Defined.

(** ** Reading a sealed message *)

Section MessageSealed.
Variable L : Message.Lib.

#[local] Arguments Nat.leb : simpl never.
#[local] Arguments Nat.ltb : simpl never.
#[local] Arguments Nat.eqb : simpl never.

Lemma Forall2_In_l (A B : Type) (R : A -> B -> Prop) l1 l2 x :
  Forall2 R l1 l2 -> In x l1 -> exists y, R x y.
Proof.
  intros H. induction H as [|a b l1 l2 Hab H IH]; intros Hx; [destruct Hx|].
  destruct Hx as [<- | Hx]; [eauto | exact (IH Hx)].
Qed.

Lemma existsb_is_encrypt (t : list (Message.op L)) :
  existsb (Message.is_encrypt L) t = true ->
  exists r sd, In (Message.OpEncrypt L r sd) t.
Proof.
  intros H. apply existsb_exists in H. destruct H as (o & Hin & Ho).
  destruct o; try discriminate. eauto.
Qed.

(** A message that was encrypted to someone reads as a locked object
    that carries the receivers of the written one, each the fingerprint
    of an identity [encrypt] was called for. *)
Lemma read_sealed P sd0 sdd calls B :
  Message.Contract L ->
  forallb (fun o => Message.is_sign L o || Message.is_encrypt L o) calls = true ->
  let w := Message.run L (Message.OpWrite L (JArrayBuffer P) None sd0 :: calls)
             Message.fresh in
  forallb Message.succeeded (fst w) = true ->
  fst (Message.call Message.m_done (Message.done L sdd) (snd w)) = Return B ->
  existsb (Message.is_encrypt L) calls = true ->
  (exists eb,
     Message.call Message.m_read (Message.read L B) Message.fresh
     = (Return tt,
        Message.mkState JUndefined JUndefined
          (Message.receivers (snd w)) (Message.decryptors (snd w)) [] [] false
          eb (Some Message.Lzw)
          (Message.mkMethods false false false false false true true false false false)))
  /\ Message.receivers (snd w) <> []
  /\ (forall fr, In fr (Message.receivers (snd w)) ->
        exists r sd, In (Message.OpEncrypt L r sd) calls
                     /\ Identity.call_getFingerprint (Message.I L) r = Return fr)
  /\ (forall r sd, In (Message.OpEncrypt L r sd) calls ->
        exists fr, Identity.call_getFingerprint (Message.I L) r = Return fr
                   /\ In fr (Message.receivers (snd w))).
Proof.
  intros HC Hcalls w Hok HB Hsome. unfold w in *. clear w.
  rewrite run_cons in *. cbn [fst snd forallb] in *.
  destruct (write_fresh L P sd0 calls) as (_ & W0 & R0). cbn zeta in W0, R0.
  apply andb_true_iff in Hok. destruct Hok as [_ Hok].
  set (s0 := snd (Message.exec L (Message.OpWrite L (JArrayBuffer P) None sd0)
                    Message.fresh)) in *.
  destruct (run_writing L _ _ calls calls s0 W0 (incl_refl calls) Hcalls Hok)
    as (W1 & _ & E1 & _).
  set (s1 := snd (Message.run L calls s0)) in *.
  destruct W1 as (HP & HK & Hcs & Hlen & HF).
  destruct (done_returns L sdd s1 B HB Hcs) as (pb & cb & eb & _ & _ & _ & D4).
  destruct (Message.envelope_roundtrip L HC _ _ D4) as [HBuf Henv].
  pose proof (Forall2_length HF) as Hrd.
  destruct (existsb_is_encrypt calls Hsome) as (r0 & sd1 & Hin0).
  destruct (E1 r0 sd1 Hin0) as (fr0 & _ & Hfr0).
  assert (Hne : Message.receivers s1 <> []).
  { intros H. rewrite H in Hfr0. destruct Hfr0. }
  split; [|split; [exact Hne|split; [|exact E1]]].
  - exists eb. unfold Message.call. cbn -[Message.read].
    apply (read_locked L B _ _ eb HBuf Henv Hrd).
    destruct (Message.receivers s1); [congruence | cbn; lia].
  - intros fr Hfr. destruct (Forall2_In_l _ _ _ _ _ fr HF Hfr) as (ct & r & sd & H1 & H2 & _).
    eauto.
Qed.

End MessageSealed.

(** X21. [decrypt] turns away who cannot open the message.  A message is
    written, signed and encrypted by calls that return, and the buffer
    [done] returns is read on a new object.  [decrypt] then raises
    [enigma-invalid-public-identity-for-decrypt] for an identity without
    a private key, recipient or not, and
    [enigma-not-intended-identity-for-decrypt] for a private identity
    whose fingerprint is that of no identity [encrypt] was called for.
    Either way the object stays as it was, locked, with [decrypt] on
    it. *)
Theorem decrypt_turns_away
    (L : Message.Lib) (P : list byte) (sd0 sdd : Identity.seed (Message.I L))
    (calls : list (Message.op L)) (B : jsval) :
  Message.Contract L ->
  forallb (fun o => Message.is_sign L o || Message.is_encrypt L o) calls = true ->
  let w := Message.run L (Message.OpWrite L (JArrayBuffer P) None sd0 :: calls)
             Message.fresh in
  forallb Message.succeeded (fst w) = true ->
  fst (Message.call Message.m_done (Message.done L sdd) (snd w)) = Return B ->
  existsb (Message.is_encrypt L) calls = true ->
  let s := snd (Message.call Message.m_read (Message.read L B) Message.fresh) in
  Message.locked s
  /\ (forall d,
        Identity.call_isPrivate (Message.I L) d = Return false ->
        Message.exec L (Message.OpDecrypt L d) s
        = (Throw (Error "enigma-invalid-public-identity-for-decrypt"), s))
  /\ (forall d fp,
        Identity.call_isPrivate (Message.I L) d = Return true ->
        Identity.call_getFingerprint (Message.I L) d = Return fp ->
        (forall r sd fr,
           In (Message.OpEncrypt L r sd) calls ->
           Identity.call_getFingerprint (Message.I L) r = Return fr ->
           Identity.buffer_equal (Message.I L) fp fr = false) ->
        Message.exec L (Message.OpDecrypt L d) s
        = (Throw (Error "enigma-not-intended-identity-for-decrypt"), s)).
Proof.
  intros HC Hcalls w Hok HB Hsome s.
  destruct (read_sealed L P sd0 sdd calls B HC Hcalls Hok HB Hsome)
    as ((eb & Er) & Hne & Hback & _).
  fold w in Er, Hne, Hback. unfold s. rewrite Er. cbn [snd]. clear s.
  set (rc := Message.receivers (snd w)) in *.
  set (dc := Message.decryptors (snd w)) in *. clearbody rc dc.
  split; [|split].
  - unfold Message.locked. cbn. repeat split. exact Hne.
  - intros d Hd. unfold Message.exec, Message.call, Message.decrypt. munfold. cbn.
    rewrite Hd. reflexivity.
  - intros d fp Hd Hfp Hno.
    unfold Message.exec, Message.call, Message.decrypt. munfold. cbn.
    rewrite Hd. cbn. rewrite Hfp. cbn.
    assert (Hnone : Message.find_index (Identity.buffer_equal (Message.I L) fp) rc
                    = None).
    { apply find_index_none. intros fr Hfr.
      destruct (Hback fr Hfr) as (r & sd & Hin & Hr). exact (Hno r sd fr Hin Hr). }
    rewrite Hnone. reflexivity.
Qed.

Lemma decrypt_turns_away_witness :
  Message.Contract Toy.mlib
  /\ forallb Message.succeeded
       (fst (Message.run Toy.mlib
               [Message.OpWrite Toy.mlib (JArrayBuffer Toy.hello) None x33;
                Message.OpSign Toy.mlib Toy.alice x01;
                Message.OpEncrypt Toy.mlib Toy.bob_public x02]
               Message.fresh)) = true
  /\ fst (Message.call Message.m_done (Message.done Toy.mlib x03) Toy.written)
     = Return Toy.sealed
  /\ Message.locked Toy.received
  /\ Message.exec Toy.mlib (Message.OpDecrypt Toy.mlib Toy.bob_public) Toy.received
     = (Throw (Error "enigma-invalid-public-identity-for-decrypt"), Toy.received)
  /\ Message.exec Toy.mlib (Message.OpDecrypt Toy.mlib Toy.carol) Toy.received
     = (Throw (Error "enigma-not-intended-identity-for-decrypt"), Toy.received).
Proof.
  split; [exact toy_message_contract|].
  split; [vm_compute; reflexivity|].
  split; [vm_compute; reflexivity|].
  destruct (decrypt_turns_away Toy.mlib Toy.hello x33 x03
              [Message.OpSign Toy.mlib Toy.alice x01;
               Message.OpEncrypt Toy.mlib Toy.bob_public x02]
              Toy.sealed toy_message_contract eq_refl
              ltac:(vm_compute; reflexivity) ltac:(vm_compute; reflexivity) eq_refl)
    as (H1 & H2 & H3).
  split; [exact H1|]. split.
  - apply H2. vm_compute. reflexivity.
  - apply (H3 Toy.carol (Toy.fingerprint_of Toy.carol)).
    + vm_compute. reflexivity.
    + vm_compute. reflexivity.
    + intros r sd fr [H|[H|[]]]; [discriminate|]. injection H as <- <-.
      intros Hfr. vm_compute in Hfr. injection Hfr as <-. vm_compute. reflexivity.
Defined.

(** X22. What a sealed message shows before it is decrypted.  A message
    is written, signed and encrypted by calls that return, and the buffer
    [done] returns is read on a new object.  [getReceivers] then lists,
    in base32 and in the order of the written message, the fingerprints
    of the identities [encrypt] was called for, and of no one else, while
    [getPlaintext], [getSigners] and [verify] are not on the object. *)
Theorem sealed_message_receivers
    (L : Message.Lib) (P : list byte) (sd0 sdd : Identity.seed (Message.I L))
    (calls : list (Message.op L)) (B : jsval) :
  Message.Contract L ->
  forallb (fun o => Message.is_sign L o || Message.is_encrypt L o) calls = true ->
  let w := Message.run L (Message.OpWrite L (JArrayBuffer P) None sd0 :: calls)
             Message.fresh in
  forallb Message.succeeded (fst w) = true ->
  fst (Message.call Message.m_done (Message.done L sdd) (snd w)) = Return B ->
  existsb (Message.is_encrypt L) calls = true ->
  let s := snd (Message.call Message.m_read (Message.read L B) Message.fresh) in
  (exists l,
     fst (Message.call Message.m_getReceivers (Message.getReceivers L) s) = Return l
     /\ l = Message._fpListToStr L (Message.receivers (snd w))
     /\ (forall r sd fr,
           In (Message.OpEncrypt L r sd) calls ->
           Identity.call_getFingerprint (Message.I L) r = Return fr ->
           In (Identity.toBase32 (Message.I L) fr) l)
     /\ (forall x, In x l ->
           exists r sd fr,
             In (Message.OpEncrypt L r sd) calls
             /\ Identity.call_getFingerprint (Message.I L) r = Return fr
             /\ x = Identity.toBase32 (Message.I L) fr))
  /\ (forall o,
        o = Message.OpGetPlaintext L \/ o = Message.OpGetSigners L
        \/ (exists a, o = Message.OpVerify L a) ->
        Message.exec L o s = (Throw (TypeError "not a function"), s)).
Proof.
  intros HC Hcalls w Hok HB Hsome s.
  destruct (read_sealed L P sd0 sdd calls B HC Hcalls Hok HB Hsome)
    as ((eb & Er) & Hne & Hback & Hforth).
  fold w in Er, Hne, Hback, Hforth. unfold s. rewrite Er. cbn [snd]. clear s.
  split.
  - eexists. split; [reflexivity|]. split; [reflexivity|]. split.
    + intros r sd fr Hin Hfr. destruct (Hforth r sd Hin) as (fr' & Hfr' & Hi).
      rewrite Hfr in Hfr'. injection Hfr' as <-.
      unfold Message._fpListToStr. apply in_map. exact Hi.
    + intros x Hx. unfold Message._fpListToStr in Hx. apply in_map_iff in Hx.
      destruct Hx as (fr & <- & Hfr). destruct (Hback fr Hfr) as (r & sd & Hin & Hr).
      exists r, sd, fr. auto.
  - intros o [-> | [-> | [a ->]]]; reflexivity.
Qed.

Lemma sealed_message_receivers_witness :
  Message.Contract Toy.mlib
  /\ forallb Message.succeeded
       (fst (Message.run Toy.mlib
               [Message.OpWrite Toy.mlib (JArrayBuffer Toy.hello) None x33;
                Message.OpSign Toy.mlib Toy.alice x01;
                Message.OpEncrypt Toy.mlib Toy.bob_public x02]
               Message.fresh)) = true
  /\ fst (Message.call Message.m_done (Message.done Toy.mlib x03) Toy.written)
     = Return Toy.sealed
  /\ Message.exec Toy.mlib (Message.OpGetPlaintext Toy.mlib) Toy.received
     = (Throw (TypeError "not a function"), Toy.received).
Proof.
  split; [exact toy_message_contract|].
  split; [vm_compute; reflexivity|].
  split; [vm_compute; reflexivity|].
  apply (proj2 (sealed_message_receivers Toy.mlib Toy.hello x33 x03
                  [Message.OpSign Toy.mlib Toy.alice x01;
                   Message.OpEncrypt Toy.mlib Toy.bob_public x02]
                  Toy.sealed toy_message_contract eq_refl
                  ltac:(vm_compute; reflexivity) ltac:(vm_compute; reflexivity) eq_refl)).
  left. reflexivity.
Defined.

(** X23. [done] on a clear-signed message can be repeated.  Once it has
    returned, [sign] is off the object, so no signature is added after
    the message was given out, and every later [done] returns the same
    buffer and changes nothing. *)
Theorem clearsign_done_repeatable
    (L : Message.Lib) (s : Message.state) (sd : Identity.seed (Message.I L)) (B : jsval) :
  Message.clearSign s = true ->
  fst (Message.call Message.m_done (Message.done L sd) s) = Return B ->
  let s' := snd (Message.call Message.m_done (Message.done L sd) s) in
  Message.has (Message.self s') Message.m_sign = false
  /\ Message.has (Message.self s') Message.m_encrypt = false
  /\ forall sd', Message.call Message.m_done (Message.done L sd') s' = (Return B, s').
Proof.
  unfold Message.call. intros Hc HB.
  destruct (Message.has (Message.self s) Message.m_done) eqn:Hm; [|discriminate].
  cbn zeta.
  destruct (done_cases L sd s) as [(e & E) | [(b & _ & Hb & E) | (B' & Hc' & _)]];
    cbn zeta in *; try congruence.
  { rewrite E in HB. discriminate. }
  rewrite E in *. cbn [fst snd] in *. injection HB as ->.
  destruct s as [pt mk rc dc sgs sn cs pb pc [w r sg en dn de gr gp vf gs]].
  cbn in *. subst.
  split; [reflexivity|]. split; [reflexivity|].
  intros sd'. unfold Message.done, Message.delete. munfold. cbn.
  rewrite Hb. reflexivity.
Qed.

Lemma clearsign_done_repeatable_witness :
  Message.clearSign Toy.clear_written = true
  /\ fst (Message.call Message.m_done (Message.done Toy.mlib x03) Toy.clear_written)
     = Return Toy.clear_signed
  /\ Message.call Message.m_done (Message.done Toy.mlib x07)
       (snd (Message.call Message.m_done (Message.done Toy.mlib x03) Toy.clear_written))
     = (Return Toy.clear_signed,
        snd (Message.call Message.m_done (Message.done Toy.mlib x03) Toy.clear_written)).
Proof.
  split; [vm_compute; reflexivity|]. split; [vm_compute; reflexivity|].
  apply (clearsign_done_repeatable Toy.mlib Toy.clear_written x03 Toy.clear_signed);
    vm_compute; reflexivity.
Defined.

(** * The storage wrapper *)

Section StorageStrings.

Lemma substring_0_all s : String.substring 0 (String.length s) s = s.
Proof. induction s as [|c s IH]; cbn; [reflexivity | rewrite IH; reflexivity]. Qed.

Lemma substring_0_0 s : String.substring 0 0 s = EmptyString.
Proof. destruct s; reflexivity. Qed.

Lemma slice_to_app p r :
  Storage.slice_to (p ++ r)%string (String.length p) = p.
Proof.
  unfold Storage.slice_to. induction p as [|c p IH]; cbn.
  - apply substring_0_0.
  - rewrite IH. reflexivity.
Qed.

Lemma length_append p r :
  String.length (p ++ r)%string = (String.length p + String.length r)%nat.
Proof. induction p as [|c p IH]; cbn; [reflexivity | rewrite IH; reflexivity]. Qed.

Lemma slice_from_app p r :
  Storage.slice_from (p ++ r)%string (String.length p) = r.
Proof.
  unfold Storage.slice_from. induction p as [|c p IH]; cbn.
  - rewrite Nat.sub_0_r. apply substring_0_all.
  - exact IH.
Qed.

Lemma slice_join p s :
  Storage.slice_to s (String.length p) = p ->
  (p ++ Storage.slice_from s (String.length p))%string = s.
Proof.
  unfold Storage.slice_to, Storage.slice_from. revert s.
  induction p as [|c p IH]; intros s H; cbn.
  - rewrite Nat.sub_0_r. apply substring_0_all.
  - destruct s as [|c' s]; cbn in H; [discriminate|].
    injection H as -> H. cbn. rewrite (IH s H). reflexivity.
Qed.

(** [prefix === key.slice(0, prefix.length)] holds of the keys that start
    with the prefix. *)
Lemma starts_iff p s :
  String.eqb p (Storage.slice_to s (String.length p)) = true
  <-> exists r, s = (p ++ r)%string.
Proof.
  split.
  - intros H. apply String.eqb_eq in H. symmetry in H.
    exists (Storage.slice_from s (String.length p)). symmetry. apply slice_join. exact H.
  - intros [r ->]. rewrite slice_to_app. apply String.eqb_refl.
Qed.

Lemma append_inj_l p a b : (p ++ a)%string = (p ++ b)%string -> a = b.
Proof. induction p as [|c p IH]; cbn; intros H; [exact H|]. injection H as H. auto. Qed.

Lemma append_assoc (a b c : string) : ((a ++ b) ++ c)%string = (a ++ b ++ c)%string.
Proof. induction a as [|x a IH]; cbn; [reflexivity | rewrite IH; reflexivity]. Qed.

(** No key that passes the test has a dot in it, so a key ends at the
    first dot of [<key>.<rest>]. *)
Lemma key_char_not_dot c : Storage.key_char c = true -> c <> Ascii.ascii_of_nat 46.
Proof. intros H ->. vm_compute in H. discriminate. Qed.

Lemma key_dot_inj k k' r r' :
  forallb Storage.key_char (list_ascii_of_string k) = true ->
  forallb Storage.key_char (list_ascii_of_string k') = true ->
  (k ++ String (Ascii.ascii_of_nat 46) r)%string
  = (k' ++ String (Ascii.ascii_of_nat 46) r')%string ->
  k = k' /\ r = r'.
Proof.
  revert k'. induction k as [|c k IH]; intros [|c' k'] Hk Hk' H; cbn in *.
  - injection H as ->. split; reflexivity.
  - injection H as <- _. apply andb_true_iff in Hk'. destruct Hk' as [Hc _].
    destruct (key_char_not_dot _ Hc eq_refl).
  - injection H as -> _. apply andb_true_iff in Hk. destruct Hk as [Hc _].
    destruct (key_char_not_dot _ Hc eq_refl).
  - injection H as -> H. apply andb_true_iff in Hk, Hk'.
    destruct (IH k' (proj2 Hk) (proj2 Hk') H) as [-> ->]. split; reflexivity.
Qed.

Lemma key_test_chars k :
  Storage.key_test k = true -> forallb Storage.key_char (list_ascii_of_string k) = true.
Proof. unfold Storage.key_test. intros H. apply andb_true_iff in H. exact (proj1 H). Qed.

End StorageStrings.

Section StorageEntries.

Lemma getItem_setItem_same st k v : Storage.getItem (Storage.setItem st k v) k = Some v.
Proof.
  induction st as [|[k' v'] st IH]; cbn.
  - rewrite String.eqb_refl. reflexivity.
  - destruct (String.eqb k' k) eqn:E; cbn; rewrite E; [reflexivity | exact IH].
Qed.

Lemma getItem_setItem_other st k v x :
  x <> k -> Storage.getItem (Storage.setItem st k v) x = Storage.getItem st x.
Proof.
  intros Hx. induction st as [|[k' v'] st IH]; cbn.
  - destruct (String.eqb k x) eqn:E; [|reflexivity].
    apply String.eqb_eq in E. congruence.
  - destruct (String.eqb k' k) eqn:E; cbn.
    + apply String.eqb_eq in E. subst k'.
      destruct (String.eqb k x) eqn:E'; [|reflexivity].
      apply String.eqb_eq in E'. congruence.
    + rewrite IH. reflexivity.
Qed.

Lemma getItem_removeItem_same st k : Storage.getItem (Storage.removeItem st k) k = None.
Proof.
  induction st as [|[k' v'] st IH]; cbn; [reflexivity|].
  destruct (String.eqb k' k) eqn:E; cbn; [exact IH|]. rewrite E. exact IH.
Qed.

Lemma getItem_removeItem_other st k x :
  x <> k -> Storage.getItem (Storage.removeItem st k) x = Storage.getItem st x.
Proof.
  intros Hx. unfold Storage.removeItem.
  induction st as [|[k' v'] st IH]; cbn; [reflexivity|].
  destruct (String.eqb k' k) eqn:E; cbn.
  - apply String.eqb_eq in E. subst k'.
    destruct (String.eqb k x) eqn:E'; [|exact IH].
    apply String.eqb_eq in E'. congruence.
  - rewrite IH. reflexivity.
Qed.

Lemma getItem_In st k : Storage.getItem st k <> None <-> In k (map fst st).
Proof.
  induction st as [|[k' v'] st IH]; cbn.
  - split; [congruence | intros []].
  - destruct (String.eqb k' k) eqn:E.
    + apply String.eqb_eq in E. split; [auto | discriminate].
    + apply String.eqb_neq in E. rewrite IH. split; [auto | intros [H|H]; congruence].
Qed.

(** [listAll] gives the rest of the keys that start with the prefix. *)
Lemma listAll_In p st x :
  In x (Storage.listAll p st) <-> In (p ++ x)%string (map fst st).
Proof.
  unfold Storage.listAll, Storage.length.
  set (f := fun ret i => match Storage.key st i with Some k => _ | None => ret end).
  assert (G : forall suf pre acc,
             st = pre ++ suf ->
             (In x (fold_left f (seq (List.length pre) (List.length suf)) acc)
              <-> In x acc \/ In (p ++ x)%string (map fst suf))).
  { induction suf as [|[k v] suf IH]; intros pre acc Hst; cbn [List.length seq fold_left].
    - cbn. tauto.
    - assert (Hk : Storage.key st (List.length pre) = Some k).
      { unfold Storage.key. rewrite Hst, map_app, nth_error_app2;
          rewrite length_map; [|lia]. rewrite Nat.sub_diag. reflexivity. }
      assert (Hst' : st = (pre ++ [(k, v)]) ++ suf)
        by (rewrite <- app_assoc; exact Hst).
      pose proof (IH (pre ++ [(k, v)]) (f acc (List.length pre)) Hst') as IH'.
      rewrite length_app in IH'. cbn [List.length] in IH'.
      rewrite Nat.add_1_r in IH'. rewrite IH'. clear IH IH'.
      unfold f at 1. rewrite Hk. cbn [map fst In].
      destruct (String.eqb p (Storage.slice_to k (String.length p))) eqn:E.
      + apply String.eqb_eq in E. symmetry in E. pose proof (slice_join p k E) as J.
        rewrite in_app_iff. cbn [In]. split.
        * intros [[H|[H|[]]]|H]; auto. right; left. rewrite <- H. symmetry. exact J.
        * intros [H|[H|H]]; auto. left; right; left.
          rewrite <- J in H. apply append_inj_l in H. exact H.
      + split; [tauto|]. intros [H|[H|H]]; auto.
        subst k. rewrite slice_to_app, String.eqb_refl in E. discriminate. }
  rewrite (G st [] [] eq_refl). cbn. tauto.
Qed.

Lemma for_each_remove (L : Storage.Lib) p l st :
  Storage.for_each l (fun n => Storage.operator L (p ++ n)%string JNull ;;; ret tt) st
  = (Return tt, fold_left (fun s n => Storage.removeItem s (p ++ n)%string) l st).
Proof.
  revert st. induction l as [|n l IH]; intros st; [reflexivity|].
  cbn [Storage.for_each fold_left]. unfold bindM at 1. cbn. apply IH.
Qed.

Lemma getItem_remove_all_in p l st n :
  In n l ->
  Storage.getItem (fold_left (fun s n => Storage.removeItem s (p ++ n)%string) l st)
    (p ++ n)%string = None.
Proof.
  revert st. induction l as [|m l IH]; intros st; [intros []|].
  cbn [fold_left]. intros [->|H]; [|apply IH; exact H].
  clear IH. generalize (getItem_removeItem_same st (p ++ n)%string).
  generalize (Storage.removeItem st (p ++ n)%string). induction l as [|m l IH]; intros s Hs.
  - exact Hs.
  - cbn [fold_left]. apply IH.
    destruct (string_dec (p ++ n)%string (p ++ m)%string) as [E|E].
    + rewrite E. apply getItem_removeItem_same.
    + rewrite getItem_removeItem_other by exact E. exact Hs.
Qed.

Lemma getItem_remove_all_out p l st x :
  (forall n, In n l -> x <> (p ++ n)%string) ->
  Storage.getItem (fold_left (fun s n => Storage.removeItem s (p ++ n)%string) l st) x
  = Storage.getItem st x.
Proof.
  revert st. induction l as [|m l IH]; intros st H; [reflexivity|].
  cbn [fold_left]. rewrite IH by (intros n Hn; apply H; right; exact Hn).
  apply getItem_removeItem_other. apply H. left. reflexivity.
Qed.

End StorageEntries.

Section StorageCalls.
Variable L : Storage.Lib.

(** What a read returns depends on the entry under the key alone. *)
Lemma operator_get x st st' :
  Storage.getItem st' x = Storage.getItem st x ->
  fst (Storage.operator L x JUndefined st') = fst (Storage.operator L x JUndefined st).
Proof. intros H. unfold Storage.operator. munfold. cbn. rewrite H. reflexivity. Qed.

Lemma operator_get_state x st : snd (Storage.operator L x JUndefined st) = st.
Proof. reflexivity. Qed.

Lemma operator_set x d st :
  d <> JUndefined -> d <> JNull ->
  Storage.operator L x d st
  = (Return Storage.Self, Storage.setItem st x (Storage.stringify L d)).
Proof. intros H1 H2. destruct d; try congruence; reflexivity. Qed.

Lemma operator_get_set x d st :
  Storage.parse L (Storage.stringify L d) = Return d ->
  let st' := Storage.setItem st x (Storage.stringify L d) in
  Storage.operator L x JUndefined st' = (Return (Storage.Value d), st').
Proof.
  intros H. cbn zeta. unfold Storage.operator. munfold. cbn.
  rewrite getItem_setItem_same, H. reflexivity.
Qed.

Lemma value_get k st st' :
  Storage.getItem st' ("value." ++ k)%string = Storage.getItem st ("value." ++ k)%string ->
  fst (Storage.value L k JUndefined st') = fst (Storage.value L k JUndefined st).
Proof.
  intros H. unfold Storage.value.
  destruct (Storage.key_test k); cbn [negb]; [|reflexivity].
  apply operator_get. exact H.
Qed.

Lemma note_get k n st st' :
  Storage.getItem st' ("note." ++ k ++ "." ++ n)%string
  = Storage.getItem st ("note." ++ k ++ "." ++ n)%string ->
  fst (Storage.note L k n JUndefined st') = fst (Storage.note L k n JUndefined st).
Proof.
  intros H. unfold Storage.note.
  destruct (Storage.key_test k); cbn [negb]; [|reflexivity].
  destruct (Storage.key_test n); cbn [negb]; [|reflexivity].
  apply operator_get. exact H.
Qed.

Lemma value_note_apart k k' n : ("value." ++ k)%string <> ("note." ++ k' ++ "." ++ n)%string.
Proof. cbn. discriminate. Qed.

Lemma note_keys_inj k n k' n' :
  Storage.key_test k = true -> Storage.key_test k' = true ->
  ("note." ++ k ++ "." ++ n)%string = ("note." ++ k' ++ "." ++ n')%string ->
  k = k' /\ n = n'.
Proof.
  intros Hk Hk' H. apply append_inj_l in H.
  apply (key_dot_inj k k' n n' (key_test_chars k Hk) (key_test_chars k' Hk')).
  exact H.
Qed.

Lemma bindM_run (S A B : Type) (m : M S A) (k : A -> M S B) s a s' :
  m s = (Return a, s') -> bindM m k s = k a s'.
Proof. intros H. unfold bindM. rewrite H. reflexivity. Qed.

(** What [remove] leaves in the storage. *)
Lemma remove_run k st :
  Storage.key_test k = true ->
  let p := ("note." ++ k ++ ".")%string in
  let st1 := Storage.removeItem st ("value." ++ k)%string in
  Storage.remove L k st
  = (Return tt,
     fold_left (fun s n => Storage.removeItem s (p ++ n)%string) (Storage.listAll p st1) st1).
Proof.
  intros Hk. cbn zeta. unfold Storage.remove, Storage.value. rewrite Hk. cbn [negb].
  rewrite (bindM_run _ _ _ _ _ _ Storage.Self
             (Storage.removeItem st ("value." ++ k)%string)) by reflexivity.
  rewrite (bindM_run _ _ _ _ _ _ (Storage.removeItem st ("value." ++ k)%string)
             (Storage.removeItem st ("value." ++ k)%string)) by reflexivity.
  apply for_each_remove.
Qed.

Lemma remove_entries k st x :
  Storage.key_test k = true ->
  Storage.getItem (snd (Storage.remove L k st)) x
  = if String.eqb x ("value." ++ k)%string
       || String.eqb ("note." ++ k ++ ".")%string
            (Storage.slice_to x (String.length ("note." ++ k ++ ".")%string))
    then None else Storage.getItem st x.
Proof.
  intros Hk. rewrite (remove_run k st Hk). cbn [snd].
  set (p := ("note." ++ k ++ ".")%string).
  set (st1 := Storage.removeItem st ("value." ++ k)%string).
  destruct (String.eqb p (Storage.slice_to x (String.length p))) eqn:Ep.
  - rewrite orb_true_r. apply starts_iff in Ep. destruct Ep as [n ->].
    destruct (Storage.getItem st1 (p ++ n)%string) eqn:G.
    + apply getItem_remove_all_in. apply listAll_In. apply getItem_In. congruence.
    + rewrite getItem_remove_all_out; [exact G|].
      intros m Hm E. apply append_inj_l in E. subst m.
      apply listAll_In, getItem_In in Hm. congruence.
  - rewrite orb_false_r.
    rewrite getItem_remove_all_out.
    + unfold st1. destruct (String.eqb x ("value." ++ k)%string) eqn:Ex.
      * apply String.eqb_eq in Ex. subst x. apply getItem_removeItem_same.
      * apply String.eqb_neq in Ex. apply getItem_removeItem_other. exact Ex.
    + intros n _ ->. rewrite (proj2 (starts_iff p (p ++ n)%string)) in Ep; [discriminate|].
      eauto.
Qed.

Lemma owned_value r : Storage.owned ("value." ++ r)%string = true.
Proof.
  unfold Storage.owned.
  change 6%nat with (String.length "value."). rewrite slice_to_app. reflexivity.
Qed.

Lemma owned_note r : Storage.owned ("note." ++ r)%string = true.
Proof.
  unfold Storage.owned.
  change 5%nat with (String.length "note."). rewrite slice_to_app.
  rewrite orb_true_r. reflexivity.
Qed.

(** What [remove] clears and what it leaves. *)
Lemma remove_effect (st : Storage.storage) (k : string) :
  Storage.key_test k = true ->
  let st' := snd (Storage.remove L k st) in
  fst (Storage.remove L k st) = Return tt
  /\ Storage.getItem st' ("value." ++ k)%string = None
  /\ (forall n, Storage.getItem st' ("note." ++ k ++ "." ++ n)%string = None)
  /\ (forall x,
        x <> ("value." ++ k)%string ->
        (forall n, x <> ("note." ++ k ++ "." ++ n)%string) ->
        Storage.getItem st' x = Storage.getItem st x)
  /\ (forall k', k' <> k ->
        fst (Storage.value L k' JUndefined st') = fst (Storage.value L k' JUndefined st))
  /\ (forall k' n, k' <> k ->
        fst (Storage.note L k' n JUndefined st') = fst (Storage.note L k' n JUndefined st)).
Proof.
  intros Hk. cbn zeta.
  split; [rewrite (remove_run k st Hk); reflexivity|].
  assert (Hpre : forall n, ("note." ++ k ++ "." ++ n)%string
                           = (("note." ++ k ++ ".") ++ n)%string).
  { intros n. cbn. f_equal. f_equal. f_equal. f_equal. f_equal.
    rewrite append_assoc. reflexivity. }
  assert (Hout : forall x,
             x <> ("value." ++ k)%string ->
             (forall n, x <> ("note." ++ k ++ "." ++ n)%string) ->
             Storage.getItem (snd (Storage.remove L k st)) x = Storage.getItem st x).
  { intros x Hx Hn. rewrite (remove_entries k st x Hk).
    destruct (String.eqb x ("value." ++ k)%string) eqn:E1.
    { apply String.eqb_eq in E1. congruence. }
    destruct (String.eqb _ (Storage.slice_to x _)) eqn:E2; [|reflexivity].
    apply starts_iff in E2. destruct E2 as [n ->].
    destruct (Hn n). symmetry. apply Hpre. }
  split; [|split; [|split; [exact Hout|split]]].
  - rewrite (remove_entries k st _ Hk). rewrite String.eqb_refl. reflexivity.
  - intros n. rewrite (remove_entries k st _ Hk).
    rewrite (Hpre n), slice_to_app, String.eqb_refl, orb_true_r. reflexivity.
  - intros k' Hk'. apply value_get. apply Hout.
    + intros E. apply append_inj_l in E. congruence.
    + intros n. exact (value_note_apart _ _ _).
  - intros k' n Hk'.
    destruct (Storage.key_test k') eqn:Ht;
      [|unfold Storage.note; rewrite Ht; reflexivity].
    apply note_get. apply Hout.
    + intros E. symmetry in E. exact (value_note_apart _ _ _ E).
    + intros m E. destruct (note_keys_inj _ _ _ _ Ht Hk E) as [-> _]. congruence.
Qed.

End StorageCalls.

(** X25. A value that is stored reads back.  For a key that passes the
    key test and data that is neither [undefined] nor [null] and that
    [JSON] writes and reads back, [value(key, data)] returns the wrapper
    and [value(key)] then returns the data; what [value] returns for any
    other key, and [note] for any key, stays what it was. *)
Theorem value_set_get
    (L : Storage.Lib) (st : Storage.storage) (k : string) (d : jsval) :
  Storage.key_test k = true ->
  d <> JUndefined -> d <> JNull ->
  Storage.parse L (Storage.stringify L d) = Return d ->
  let st' := snd (Storage.value L k d st) in
  fst (Storage.value L k d st) = Return Storage.Self
  /\ Storage.value L k JUndefined st' = (Return (Storage.Value d), st')
  /\ (forall k', k' <> k ->
        fst (Storage.value L k' JUndefined st') = fst (Storage.value L k' JUndefined st))
  /\ (forall k' n,
        fst (Storage.note L k' n JUndefined st') = fst (Storage.note L k' n JUndefined st)).
Proof.
  intros Hk H1 H2 Hp. cbn zeta.
  assert (Ew : Storage.value L k d st
              = (Return Storage.Self,
                 Storage.setItem st ("value." ++ k)%string (Storage.stringify L d))).
  { unfold Storage.value. rewrite Hk. cbn [negb]. apply (operator_set L _ d st H1 H2). }
  rewrite Ew. cbn [fst snd].
  split; [reflexivity|]. split; [|split].
  - unfold Storage.value. rewrite Hk. cbn [negb]. apply (operator_get_set L _ d st Hp).
  - intros k' Hk'. apply value_get. apply getItem_setItem_other.
    intros E. apply append_inj_l in E. congruence.
  - intros k' n. apply note_get. apply getItem_setItem_other.
    intros E. symmetry in E. exact (value_note_apart _ _ _ E).
Qed.

Lemma value_set_get_witness :
  Storage.key_test "bob" = true
  /\ Storage.parse ToyJSON.lib (Storage.stringify ToyJSON.lib (JStr "hello")) = Return (JStr "hello")
  /\ Storage.value ToyJSON.lib "bob" JUndefined
       (snd (Storage.value ToyJSON.lib "bob" (JStr "hello") ToyJSON.shelf))
     = (Return (Storage.Value (JStr "hello")),
        snd (Storage.value ToyJSON.lib "bob" (JStr "hello") ToyJSON.shelf)).
Proof.
  split; [reflexivity|]. split; [reflexivity|].
  apply (value_set_get ToyJSON.lib ToyJSON.shelf "bob" (JStr "hello") eq_refl);
    [discriminate | discriminate | reflexivity].
Defined.

(** X26. A note that is stored reads back, and notes do not collide.  For
    a key and a note key that pass the key test, [note(key, noteKey,
    data)] returns the wrapper and [note(key, noteKey)] then returns the
    data; what [note] returns for any other pair of key and note key, and
    [value] for any key, stays what it was. *)
Theorem note_set_get
    (L : Storage.Lib) (st : Storage.storage) (k n : string) (d : jsval) :
  Storage.key_test k = true ->
  Storage.key_test n = true ->
  d <> JUndefined -> d <> JNull ->
  Storage.parse L (Storage.stringify L d) = Return d ->
  let st' := snd (Storage.note L k n d st) in
  fst (Storage.note L k n d st) = Return Storage.Self
  /\ Storage.note L k n JUndefined st' = (Return (Storage.Value d), st')
  /\ (forall k' n', (k', n') <> (k, n) ->
        fst (Storage.note L k' n' JUndefined st') = fst (Storage.note L k' n' JUndefined st))
  /\ (forall k',
        fst (Storage.value L k' JUndefined st') = fst (Storage.value L k' JUndefined st)).
Proof.
  intros Hk Hn H1 H2 Hp. cbn zeta.
  assert (Ew : Storage.note L k n d st
              = (Return Storage.Self,
                 Storage.setItem st ("note." ++ k ++ "." ++ n)%string
                   (Storage.stringify L d))).
  { unfold Storage.note. rewrite Hk, Hn. cbn [negb]. apply (operator_set L _ d st H1 H2). }
  rewrite Ew. cbn [fst snd].
  split; [reflexivity|]. split; [|split].
  - unfold Storage.note. rewrite Hk, Hn. cbn [negb]. apply (operator_get_set L _ d st Hp).
  - intros k' n' Hne.
    destruct (Storage.key_test k') eqn:Hk';
      [|unfold Storage.note; rewrite Hk'; reflexivity].
    apply note_get. apply getItem_setItem_other.
    intros E. destruct (note_keys_inj _ _ _ _ Hk' Hk E) as [-> ->]. congruence.
  - intros k'. apply value_get. apply getItem_setItem_other.
    exact (value_note_apart _ _ _).
Qed.

Lemma note_set_get_witness :
  Storage.key_test "al" = true /\ Storage.key_test "ice-seen" = true
  /\ Storage.note ToyJSON.lib "al" "ice-seen" JUndefined
       (snd (Storage.note ToyJSON.lib "al" "ice-seen" (JBool true) ToyJSON.shelf))
     = (Return (Storage.Value (JBool true)),
        snd (Storage.note ToyJSON.lib "al" "ice-seen" (JBool true) ToyJSON.shelf))
  /\ fst (Storage.note ToyJSON.lib "alice" "seen" JUndefined
            (snd (Storage.note ToyJSON.lib "al" "ice-seen" (JBool true) ToyJSON.shelf)))
     = fst (Storage.note ToyJSON.lib "alice" "seen" JUndefined ToyJSON.shelf).
Proof.
  split; [reflexivity|]. split; [reflexivity|].
  destruct (note_set_get ToyJSON.lib ToyJSON.shelf "al" "ice-seen" (JBool true)
              eq_refl eq_refl ltac:(discriminate) ltac:(discriminate) eq_refl)
    as (_ & H2 & H3 & _).
  split; [exact H2|]. apply H3. discriminate.
Defined.

(** X27. [remove] clears a key and nothing else.  For a key that passes
    the key test, [remove(key)] returns, and afterwards the storage has
    no entry for the value of the key and none for any of its notes,
    while every other entry is as it was: what [value] and [note] return
    for any other key stays what it was. *)
Theorem remove_clears_key
    (L : Storage.Lib) (st : Storage.storage) (k : string) :
  Storage.key_test k = true ->
  let st' := snd (Storage.remove L k st) in
  fst (Storage.remove L k st) = Return tt
  /\ Storage.getItem st' ("value." ++ k)%string = None
  /\ (forall n, Storage.getItem st' ("note." ++ k ++ "." ++ n)%string = None)
  /\ (forall x,
        x <> ("value." ++ k)%string ->
        (forall n, x <> ("note." ++ k ++ "." ++ n)%string) ->
        Storage.getItem st' x = Storage.getItem st x)
  /\ (forall k', k' <> k ->
        fst (Storage.value L k' JUndefined st') = fst (Storage.value L k' JUndefined st))
  /\ (forall k' n, k' <> k ->
        fst (Storage.note L k' n JUndefined st') = fst (Storage.note L k' n JUndefined st)).
Proof. exact (remove_effect L st k). Qed.

Lemma remove_clears_key_witness :
  Storage.key_test "al" = true
  /\ Storage.remove ToyJSON.lib "al" ToyJSON.shelf
     = (Return tt,
        [("value.alice", String ToyJSON.quote "first");
         ("note.alice.seen", "true");
         ("theme", "dark");
         ("note.alice.mail", String ToyJSON.quote "a@example.org")])
  /\ Storage.getItem (snd (Storage.remove ToyJSON.lib "al" ToyJSON.shelf)) "value.al" = None.
Proof.
  split; [reflexivity|]. split; [vm_compute; reflexivity|].
  apply (remove_clears_key ToyJSON.lib ToyJSON.shelf "al" eq_refl).
Defined.

(** X28. [all] lists the keys that have a value: a key is in the list
    exactly when the storage has an entry [value.<key>].  So a key is
    listed once [value] has stored data under it, and is no longer listed
    once [remove] was called for it. *)
Theorem all_lists_values (L : Storage.Lib) (st : Storage.storage) :
  exists l,
    Storage.all st = (Return l, st)
    /\ (forall k, In k l <-> Storage.getItem st ("value." ++ k)%string <> None)
    /\ (forall k d l',
          Storage.key_test k = true -> d <> JUndefined -> d <> JNull ->
          fst (Storage.all (snd (Storage.value L k d st))) = Return l' -> In k l')
    /\ (forall k l',
          Storage.key_test k = true ->
          fst (Storage.all (snd (Storage.remove L k st))) = Return l' -> ~ In k l').
Proof.
  assert (Hall : forall s k,
             In k (Storage.listAll "value." s)
             <-> Storage.getItem s ("value." ++ k)%string <> None).
  { intros s k. rewrite listAll_In, getItem_In. tauto. }
  exists (Storage.listAll "value." st). split; [reflexivity|]. split; [apply Hall|]. split.
  - intros k d l' Hk H1 H2 H. unfold Storage.all in H. cbn in H. injection H as <-.
    apply Hall. unfold Storage.value. rewrite Hk. cbn [negb].
    rewrite (operator_set L _ d st H1 H2). cbn [snd].
    rewrite getItem_setItem_same. discriminate.
  - intros k l' Hk H. unfold Storage.all in H. cbn in H. injection H as <-.
    intros Hin. apply Hall in Hin. apply Hin.
    apply (remove_effect L st k Hk).
Qed.

(** X29. The wrapper keeps to its own entries.  Whatever call is made on
    it, with whatever arguments, returning or raising, an entry of the
    storage whose key starts with neither [value.] nor [note.] is as it
    was. *)
Theorem foreign_entries_untouched
    (L : Storage.Lib) (o : Storage.op) (st : Storage.storage) (x : string) :
  Storage.owned x = false ->
  Storage.getItem (snd (Storage.exec L o st)) x = Storage.getItem st x.
Proof.
  intros Hx.
  assert (Hv : forall r, x <> ("value." ++ r)%string).
  { intros r ->. rewrite owned_value in Hx. discriminate. }
  assert (Hn : forall r, x <> ("note." ++ r)%string).
  { intros r ->. rewrite owned_note in Hx. discriminate. }
  assert (Hop : forall y d s, x <> y ->
             Storage.getItem (snd (Storage.operator L y d s)) x = Storage.getItem s x).
  { intros y d s Hy. destruct d; cbn;
      first [reflexivity | apply getItem_removeItem_other; exact Hy
            | apply getItem_setItem_other; exact Hy]. }
  destruct o as [|k d|k n d|k]; cbn [Storage.exec].
  - reflexivity.
  - unfold Storage.value. destruct (Storage.key_test k); cbn [negb]; [|reflexivity].
    unfold bindM. pose proof (Hop ("value." ++ k)%string d st (Hv k)) as H.
    destruct (Storage.operator L _ d st) as [[a|e] s']; exact H.
  - unfold Storage.note. destruct (Storage.key_test k); cbn [negb]; [|reflexivity].
    destruct (Storage.key_test n); cbn [negb]; [|reflexivity].
    unfold bindM. pose proof (Hop ("note." ++ k ++ "." ++ n)%string d st (Hn _)) as H.
    destruct (Storage.operator L _ d st) as [[a|e] s']; exact H.
  - destruct (Storage.key_test k) eqn:Hk.
    + apply (remove_effect L st k Hk); [apply Hv | intros n; apply Hn].
    + unfold Storage.remove. rewrite Hk. reflexivity.
Qed.

Lemma foreign_entries_untouched_witness :
  Storage.owned "theme" = false
  /\ Storage.getItem
       (snd (Storage.exec ToyJSON.lib (Storage.OpRemove "alice") ToyJSON.shelf)) "theme"
     = Some "dark".
Proof.
  split; [reflexivity|].
  rewrite (foreign_entries_untouched ToyJSON.lib (Storage.OpRemove "alice") ToyJSON.shelf
             "theme" eq_refl).
  reflexivity.
Defined.

(** * Messages to identities over the EC primitive *)

Section MessageOverEC.
Variable L : Message.Lib.
Variable E : EC.Lib.
Hypothesis Hdel : Identity.decrypt_delegates (Message.I L) E.

#[local] Arguments Nat.leb : simpl never.
#[local] Arguments Nat.ltb : simpl never.
#[local] Arguments Nat.eqb : simpl never.

(** Through the object as well, [getDecryptCredential] never returns. *)
Lemma call_getDecryptCredential_throws (self : EC.instance E) d :
  throws (EC.call_getDecryptCredential E self d).
Proof.
  unfold EC.call_getDecryptCredential, throws.
  destruct (EC.has_getDecryptCredential self); [|eauto].
  rewrite getDecryptCredential_invalid_parameter. eauto.
Qed.

(** So the [decrypt] of an identity never returns either. *)
Lemma identity_decrypt_throws (d : Message.identity L) ct :
  throws (Identity.call_decrypt (Message.I L) d ct).
Proof.
  destruct Hdel as (ec & pre & post & Hd).
  unfold Identity.call_decrypt, Identity.decrypt, throws.
  destruct (Identity.initialized d) as [[|]|]; [|eauto|eauto].
  destruct (isArrayBuffer ct); cbn [negb]; [|eauto].
  destruct (Identity.asymCipher d) as [c|]; cbn; [|eauto].
  rewrite Hd.
  destruct (call_getDecryptCredential_throws (ec c) (pre ct)) as [e ->]. cbn. eauto.
Qed.

(** And [decrypt] on a message raises and leaves the object as it was;
    for a private identity whose fingerprint is among the receivers, what
    it raises is [enigma-identity-decryption-error]. *)
Lemma message_decrypt_throws d s :
  (exists e, Message.decrypt L d s = (Throw e, s))
  /\ (forall fp,
        Identity.call_isPrivate (Message.I L) d = Return true ->
        Identity.call_getFingerprint (Message.I L) d = Return fp ->
        (exists fr, In fr (Message.receivers s)
                    /\ Identity.buffer_equal (Message.I L) fp fr = true) ->
        Message.decrypt L d s
        = (Throw (Error "enigma-identity-decryption-error"), s)).
Proof.
  assert (G : forall fp i,
             Identity.call_isPrivate (Message.I L) d = Return true ->
             Identity.call_getFingerprint (Message.I L) d = Return fp ->
             Message.find_index (Identity.buffer_equal (Message.I L) fp)
               (Message.receivers s) = Some i ->
             Message.decrypt L d s
             = (Throw (Error "enigma-identity-decryption-error"), s)).
  { intros fp i Hp Hf Hi. unfold Message.decrypt. munfold. rewrite Hp. cbn.
    rewrite Hf. cbn. rewrite Hi.
    destruct (identity_decrypt_throws d (Message.item (Message.decryptors s) i))
      as [e ->].
    reflexivity. }
  split.
  - destruct (Identity.call_isPrivate (Message.I L) d) as [[|]|e] eqn:Hp.
    + destruct (Identity.call_getFingerprint (Message.I L) d) as [fp|e] eqn:Hf.
      * destruct (Message.find_index (Identity.buffer_equal (Message.I L) fp)
                    (Message.receivers s)) as [i|] eqn:Hi.
        { rewrite (G fp i eq_refl eq_refl Hi). eauto. }
        unfold Message.decrypt. munfold. rewrite Hp. cbn. rewrite Hf. cbn. rewrite Hi.
        cbn. eauto.
      * unfold Message.decrypt. munfold. rewrite Hp. cbn. rewrite Hf. cbn. eauto.
    + unfold Message.decrypt. munfold. rewrite Hp. cbn. eauto.
    + unfold Message.decrypt. munfold. rewrite Hp. cbn. eauto.
  - intros fp Hp Hf Hex.
    destruct (find_index_exists _ _ Hex) as [i Hi].
    exact (G fp i Hp Hf Hi).
Qed.

End MessageOverEC.

(** C1. Round trip of a message, with identities whose [decrypt] goes to
    the EC primitive.  A plaintext buffer is written, any number of
    [sign] and [encrypt] calls are made and return, and [done] returns a
    buffer.  When no [encrypt] call was made, that buffer read on a new
    object gives the plaintext back.  When one was made, [decrypt] on the
    object that read the buffer raises for every identity, and
    [enigma-identity-decryption-error] for a private identity that is one
    of the recipients, so [getPlaintext] is never reached: the primitive's
    [getDecryptCredential] raises on every ciphertext. *)
Theorem message_roundtrip_over_EC
    (L : Message.Lib) (E : EC.Lib) (P : list byte)
    (sd0 sdd : Identity.seed (Message.I L))
    (calls : list (Message.op L)) (B : jsval) :
  Message.Contract L ->
  Identity.decrypt_delegates (Message.I L) E ->
  forallb (fun o => Message.is_sign L o || Message.is_encrypt L o) calls = true ->
  let w := Message.run L (Message.OpWrite L (JArrayBuffer P) None sd0 :: calls)
             Message.fresh in
  forallb Message.succeeded (fst w) = true ->
  fst (Message.call Message.m_done (Message.done L sdd) (snd w)) = Return B ->
  (existsb (Message.is_encrypt L) calls = false ->
   fst ((Message.call Message.m_read (Message.read L B) ;;;
         Message.call Message.m_getPlaintext Message.getPlaintext) Message.fresh)
   = Return (JArrayBuffer P))
  /\ (existsb (Message.is_encrypt L) calls = true ->
      forall d,
        let out := fst ((Message.call Message.m_read (Message.read L B) ;;;
                         Message.call Message.m_decrypt (Message.decrypt L d) ;;;
                         Message.call Message.m_getPlaintext Message.getPlaintext)
                          Message.fresh) in
        throws out
        /\ (forall fp,
              Identity.call_isPrivate (Message.I L) d = Return true ->
              Identity.call_getFingerprint (Message.I L) d = Return fp ->
              (exists r sd fr,
                 In (Message.OpEncrypt L r sd) calls
                 /\ Identity.call_getFingerprint (Message.I L) r = Return fr
                 /\ Identity.buffer_equal (Message.I L) fp fr = true) ->
              out = Throw (Error "enigma-identity-decryption-error"))).
Proof.
  intros HC Hdel Hcalls w Hok HB.
  split.
  - exact (proj1 (message_roundtrip_opened L P sd0 sdd calls B HC Hcalls Hok HB)).
  - intros Hsome d out.
    destruct (read_sealed L P sd0 sdd calls B HC Hcalls Hok HB Hsome)
      as ((eb & Er) & _ & _ & Hforth).
    fold w in Er, Hforth.
    assert (Hout : forall s e,
               Message.call Message.m_read (Message.read L B) Message.fresh
               = (Return tt, s) ->
               Message.has (Message.self s) Message.m_decrypt = true ->
               Message.decrypt L d s = (Throw e, s) ->
               out = Throw e).
    { intros s e H1 H3 H4. unfold out, bindM. rewrite H1.
      unfold Message.call at 1. rewrite H3, H4. reflexivity. }
    match type of Er with
    | _ = (_, ?s) =>
        destruct (message_decrypt_throws L E Hdel d s) as [[e He] Hrec];
        pose proof (Hout s e Er eq_refl He) as Ho
    end.
    split.
    + exists e. exact Ho.
    + intros fp Hp Hf (r & sd & fr & Hin & Hfr & Heq).
      rewrite Ho. rewrite Hrec with (fp := fp) in He.
      * injection He as <-. reflexivity.
      * exact Hp.
      * exact Hf.
      * cbn [Message.receivers].
        destruct (Hforth r sd Hin) as (fr' & Hfr' & Hi).
        rewrite Hfr in Hfr'. injection Hfr' as <-. eauto.
Qed.

Lemma toy_over_ec_contract : Message.Contract ToyOverEC.mlib.
Proof.
  constructor.
  - exact toy_payload_roundtrip.
  - exact toy_envelope_roundtrip.
  - exact (Message.compress_roundtrip Toy.mlib toy_message_contract).
  - exact (Message.symmetric_roundtrip Toy.mlib toy_message_contract).
Qed.

Lemma toy_over_ec_delegates : Identity.decrypt_delegates ToyOverEC.ilib ToyEC.lib.
Proof.
  exists (fun c => c), (fun ct => ct), (fun v => Return v).
  intros c ct. cbn [Identity.asym_decrypt ToyOverEC.ilib].
  destruct (EC.call_getDecryptCredential ToyEC.lib c ct); reflexivity.
Qed.

Lemma message_roundtrip_over_EC_witness :
  Message.Contract ToyOverEC.mlib
  /\ Identity.decrypt_delegates ToyOverEC.ilib ToyEC.lib
  /\ forallb Message.succeeded
       (fst (Message.run ToyOverEC.mlib
               (Message.OpWrite ToyOverEC.mlib (JArrayBuffer Toy.hello) None x33
                  :: ToyOverEC.calls)
               Message.fresh)) = true
  /\ fst (Message.call Message.m_done (Message.done ToyOverEC.mlib x03) ToyOverEC.written)
     = Return ToyOverEC.sealed
  /\ existsb (Message.is_encrypt ToyOverEC.mlib) ToyOverEC.calls = true
  /\ Identity.call_isPrivate ToyOverEC.ilib ToyOverEC.bob = Return true
  /\ fst ((Message.call Message.m_read (Message.read ToyOverEC.mlib ToyOverEC.sealed) ;;;
           Message.call Message.m_decrypt (Message.decrypt ToyOverEC.mlib ToyOverEC.bob) ;;;
           Message.call Message.m_getPlaintext Message.getPlaintext) Message.fresh)
     = Throw (Error "enigma-identity-decryption-error").
Proof.
  split; [exact toy_over_ec_contract|].
  split; [exact toy_over_ec_delegates|].
  split; [vm_compute; reflexivity|].
  split; [vm_compute; reflexivity|].
  split; [reflexivity|].
  split; [vm_compute; reflexivity|].
  destruct (proj2 (message_roundtrip_over_EC ToyOverEC.mlib ToyEC.lib Toy.hello x33 x03
                     ToyOverEC.calls ToyOverEC.sealed toy_over_ec_contract
                     toy_over_ec_delegates eq_refl
                     ltac:(vm_compute; reflexivity) ltac:(vm_compute; reflexivity))
              eq_refl ToyOverEC.bob) as [_ H].
  apply (H (ToyOverEC.fingerprint_of ToyOverEC.bob)).
  - vm_compute. reflexivity.
  - vm_compute. reflexivity.
  - exists ToyOverEC.bob, x02, (ToyOverEC.fingerprint_of ToyOverEC.bob).
    split; [left; reflexivity|]. split; vm_compute; reflexivity.
Defined.

(** The same run evaluated: the message is written, encrypted to [bob]
    and sealed; [bob] reads it and cannot decrypt it. *)
Example message_roundtrip_over_EC_run :
  fst ((Message.call Message.m_read (Message.read ToyOverEC.mlib ToyOverEC.sealed) ;;;
        Message.call Message.m_decrypt (Message.decrypt ToyOverEC.mlib ToyOverEC.bob) ;;;
        Message.call Message.m_getPlaintext Message.getPlaintext) Message.fresh)
  = Throw (Error "enigma-identity-decryption-error")
  /\ Identity.call_decrypt ToyOverEC.ilib ToyOverEC.bob
       (Message.item (Message.decryptors ToyOverEC.written) 0)
     = Throw (Error "enigma-identity-unable-to-decrypt").
Proof. vm_compute. split; reflexivity. Qed.
